(** * TradeLogic: the analysis-request contract and the case archive

    A shallow embedding of the parts of the TradeLogic workbench that carry
    its contracts:

    - [src/types.ts]: the input and result shapes;
    - [src/services/geminiService.ts]: [analyzeStock] and
      [runConsistencyCheck], the two calls to the hosted model;
    - the application component ([App]): [saveToVault],
      [removeFromVault] and [handleImportVault] over the case archive;
    - the input form ([InputForm]): the capital advisory effect and
      [isStepValid];
    - the archive view ([CaseVault]): the identity key [c.id || c.ticker].

    JavaScript values are modelled by [JSValue], objects by finite maps
    from property names to values.  The effects of the handlers (component
    state, local storage, alerts, the console, the identifiers drawn from
    [crypto.randomUUID], the requests sent to the model) are threaded
    through an explicit state with exceptions.  What the host provides and
    the repository does not define ([JSON.parse], [JSON.stringify],
    [crypto.randomUUID], the answers of the hosted model) is a variable of
    the section [Host]. *)

From Stdlib Require Import ZArith QArith String Ascii List Lia Permutation Sorted.
From stdpp Require Import base option list gmap strings pretty.

Close Scope Q_scope.
Local Open Scope Z_scope.

#[local] Set Warnings "-register-all".

(** stdpp keeps [simpl] from unfolding string concatenation; the proofs
    below compute with it. *)
#[local] Arguments String.append !_ _ / : simpl nomatch.

(** ** Strings *)

(** A JavaScript string is modelled by a Rocq [string]; each character
    stands for one code unit, so [String.length] is [.length]. *)

(** The double quote character, for the string constants of the source that
    contain one. *)
Definition dq : string := String (ascii_of_nat 34) EmptyString.

(** A template literal is the concatenation of its fixed segments and of its
    substitutions, in order. *)
Definition template (parts : list string) : string :=
  foldr String.append EmptyString parts.

(** [Substring s t]: [s] occurs in [t]. *)
Definition Substring (s t : string) : Prop :=
  exists before after, t = before +:+ s +:+ after.

(** [String.prototype.startsWith]. *)
Fixpoint startsWith (t s : string) {struct s} : bool :=
  match s, t with
  | EmptyString, _ => true
  | String c s', String d t' => if Ascii.eqb c d then startsWith t' s' else false
  | String _ _, EmptyString => false
  end.

(** [String.prototype.includes]: the decidable counterpart of [Substring]. *)
Fixpoint includes (t s : string) : bool :=
  startsWith t s ||
  match t with
  | EmptyString => false
  | String _ t' => includes t' s
  end.

(** ** JavaScript values *)

(** The values [JSON.parse] produces.  A number is the rational its decimal
    literal denotes; [undefined], which [JSON.parse] never produces, is the
    [None] of an optional value. *)
Inductive JSValue : Type :=
| JNull
| JBool (b : bool)
| JNum (n : Q)
| JStr (s : string)
| JArr (items : list JSValue)
| JObj (props : gmap string JSValue).

(** An object, as its own enumerable properties. *)
Abbreviation JSObject := (gmap string JSValue).

(** ToBoolean, on a value that may be [undefined]. *)
Definition truthy (v : option JSValue) : bool :=
  match v with
  | None => false
  | Some JNull => false
  | Some (JBool b) => b
  | Some (JNum n) => negb (Qeq_bool n 0)
  | Some (JStr s) => negb (String.eqb s EmptyString)
  | Some (JArr _) => true
  | Some (JObj _) => true
  end.

(** [a || b]. *)
Definition orElse (a b : option JSValue) : option JSValue :=
  if truthy a then a else b.

(** The own enumerable properties that an object spread [{...v}] copies:
    those of an object, the indexed elements of an array, the indexed
    characters of a string, and nothing for [null], a boolean or a number. *)
Definition indexed (vs : list JSValue) : JSObject :=
  list_to_map (imap (fun i v => (pretty i, v)) vs).

Fixpoint characters (s : string) : list JSValue :=
  match s with
  | EmptyString => []
  | String c s' => JStr (String c EmptyString) :: characters s'
  end.

Definition spread (v : JSValue) : JSObject :=
  match v with
  | JObj props => props
  | JArr items => indexed items
  | JStr s => indexed (characters s)
  | JNull | JBool _ | JNum _ => ∅
  end.

(** [Array.isArray]. *)
Definition isArray (v : JSValue) : bool :=
  match v with JArr _ => true | _ => false end.

(** [v !== s] for a string [s]: strict inequality holds unless [v] is the
    same string. *)
Definition strictNeqString (v : option JSValue) (s : string) : bool :=
  match v with
  | Some (JStr s') => negb (String.eqb s' s)
  | _ => true
  end.

(** ** [src/types.ts] *)

Inductive CapitalTier := MICRO | RETAIL | HIGH_NET | INSTITUTIONAL.
Inductive RiskProfile := CONSERVATIVE | BALANCED | AGGRESSIVE.

Definition CapitalTier_toString (t : CapitalTier) : string :=
  match t with
  | MICRO => "MICRO"
  | RETAIL => "RETAIL"
  | HIGH_NET => "HIGH_NET"
  | INSTITUTIONAL => "INSTITUTIONAL"
  end.

Definition RiskProfile_toString (r : RiskProfile) : string :=
  match r with
  | CONSERVATIVE => "CONSERVATIVE"
  | BALANCED => "BALANCED"
  | AGGRESSIVE => "AGGRESSIVE"
  end.

Record Fundamentals := {
  roe : string;
  der : string;
  pbv : string;
  per : string;
  npm : string;
  growth : string;
  cfo : string;
  fcf : string
}.

Record Bandarmology := {
  orderBookBid : string;
  orderBookAsk : string;
  tradeBookBid : string;
  tradeBookAsk : string;
  brokerSummaryVal : Z;
  topBrokers : string;
  duration : string;
  bandarAvgPrice : string
}.

Record StockAnalysisInput := {
  ticker : string;
  price : string;
  capital : string;
  capitalTier : CapitalTier;
  riskProfile : RiskProfile;
  fundamentals : Fundamentals;
  bandarmology : Bandarmology;
  rawIntelligenceData : string
}.

(** An [AnalysisResult] as [runConsistencyCheck] and the archive view
    receive it: the three fields they read, and the remaining properties
    (priceInfo, prediction, strategy, ...) as they are.  The id and the
    ticker are strings.  A timestamp is a count of milliseconds, as
    [Date.now] gives it; the interface requires one, but an entry that
    came in through an import has one only if the imported file gave it
    one, so the field is optional here. *)
Record AnalysisResult := {
  ar_id : string;
  ar_timestamp : option Z;
  ar_ticker : string;
  ar_rest : JSObject
}.

(** The object an [AnalysisResult] is. *)
Definition AnalysisResult_toJS (r : AnalysisResult) : JSValue :=
  JObj (<["id" := JStr (ar_id r)]>
       (match ar_timestamp r with
        | Some t => <["timestamp" := JNum (inject_Z t)]>
        | None => fun props => props
        end
       (<["ticker" := JStr (ar_ticker r)]> (ar_rest r)))).

(** ** The request sent to the hosted model *)

(** The response schemas of [geminiService.ts]: [Type.STRING] with its
    optional [enum], [Type.NUMBER], [Type.BOOLEAN], [Type.OBJECT] with its
    [properties] and [required] list, and an optional [description]. *)
Inductive Schema : Type :=
| TString (enum : option (list string))
| TNumber
| TBoolean
| TObject (properties : list (string * Schema)) (required : list string)
| Described (description : string) (s : Schema).

Record GenerationConfig := {
  systemInstruction : option string;
  responseMimeType : string;
  responseSchema_ : Schema;
  temperature : Q;
  topK : option Z;
  topP : option Q;
  seed : Z
}.

Record GenerateContentParameters := {
  model : string;
  contents : string;
  config : GenerationConfig
}.

(** What awaiting [ai.models.generateContent] gives: a rejected promise, or a
    response whose [text] is the given string.  A response without text
    behaves as one whose text does not parse. *)
Inductive Response :=
| Rejected
| ResponseText (text : string).

Definition SYSTEM_INSTRUCTION : string :=
  "
System Role: Institutional Portfolio Manager & Senior Forensic Analyst (TradeLogic " +:+ dq +:+ "The Executioner" +:+ dq +:+ " v7.0).

LANGUAGE STYLE:
- Formal, Professional, Institutional-Grade Indonesian.
- Vocabulary: Use terms like " +:+ dq +:+ "Liquidity Injection" +:+ dq +:+ ", " +:+ dq +:+ "Cash Flow Divergence" +:+ dq +:+ ", " +:+ dq +:+ "Accumulation Structure" +:+ dq +:+ ", " +:+ dq +:+ "Institutional Sponsorship" +:+ dq +:+ ", " +:+ dq +:+ "Retail Absorption" +:+ dq +:+ ", " +:+ dq +:+ "Liquidity Trap" +:+ dq +:+ ".
- Tone: Objective, Deeply Analytical, High-Conviction, No Fluff.
- Avoid slang like " +:+ dq +:+ "serok" +:+ dq +:+ ", " +:+ dq +:+ "cuan luber" +:+ dq +:+ ". Use " +:+ dq +:+ "Accumulate" +:+ dq +:+ ", " +:+ dq +:+ "Profit Realization" +:+ dq +:+ ".

ANALYTICAL FRAMEWORK (THE INSTITUTIONAL LENS):

1.  **CAPITAL & LIQUIDITY LOGIC GUARD (CRITICAL - DO THIS FIRST):**
    *   **Input Validation:** Compare [User Capital] vs [Estimated Daily Transaction Value].
    *   **The Whale Rule:** If User Capital is > 1% of the stock's Daily Turnover (Volume * Price), you MUST Issue a " +:+ dq +:+ "FORBIDDEN" +:+ dq +:+ " Verdict.
    *   *Reasoning:* " +:+ dq +:+ "Liquidity Trap. Your size is too big for this pool. You cannot exit without crashing the price." +:+ dq +:+ "
    *   *Mismatch Check:* If User selected " +:+ dq +:+ "MICRO" +:+ dq +:+ " Tier but entered Capital > 1 Billion IDR, IGNORE the Tier label and judge based on the RAW CAPITAL AMOUNT.

2.  **Forensic Accounting (The " +:+ dq +:+ "Litmus Test" +:+ dq +:+ "):**
    *   Do not just read the ROE. Compare Net Income vs. CFO (Operating Cash Flow).
    *   *Rule:* If Net Income is High but CFO is Negative -> " +:+ dq +:+ "Earnings Quality is Low (Accrual Driven)" +:+ dq +:+ ". Flag this as a major risk.
    *   *Rule:* If FCF (Free Cash Flow) is consistent -> " +:+ dq +:+ "Cash Cow" +:+ dq +:+ ". This validates the Dividend capability.

3.  **Bandarmology & Market Structure (The " +:+ dq +:+ "Battlefield" +:+ dq +:+ "):**
    *   **Mapping:** Identify the dominant force.
        *   Accumulation: Top Buyer (Inst) absorbs supply from Top Seller (Retail/Mixed).
        *   Distribution: Top Buyer (Retail) absorbs supply from Top Seller (Inst).
    *   **Broker Codes:**
        *   Institutional/Smart Money: ZP (Maybank), AK (UBS), BK (JP Morgan), KZ (CLSA), RX (Macquarie), CC (Mandiri - Inst version).
        *   Retail/Noise: YP (Mirae), XL (Stockbit), PD (Indo Premier), XC (Ajaib).

4.  **Supply/Demand Dynamics (The " +:+ dq +:+ "Tape Reading" +:+ dq +:+ "):**
    *   Analyze the Bid/Offer thickness provided in the input.
    *   **Fake Bid:** Thick bid but price drops? -> " +:+ dq +:+ "Spoofing / Trap" +:+ dq +:+ ".
    *   **Absorption:** Price flat but high volume on Offer? -> " +:+ dq +:+ "Silent Accumulation" +:+ dq +:+ ".

OUTPUT REQUIREMENTS:
- **fullAnalysis:** This is the core report. Must be detailed (3-4 paragraphs). Structure it as:
    1.  *Executive Summary:* The immediate verdict based on current price action.
    2.  *Liquidity & Capital Fit:* explicitly state if the user's capital is safe for this specific stock's volume.
    3.  *Forensic Deep Dive:* The Cash Flow and Valuation audit.
    4.  *Institutional Stance:* Final decision for large capital placement.

LOGIC GUARD (MANDATORY):
- IF Capital Tier = " +:+ dq +:+ "INSTITUTIONAL" +:+ dq +:+ " AND Volume is Low -> VERDICT: FORBIDDEN (Liquidity Risk).
- IF CFO is Negative for >2 periods AND Price is at All Time High -> VERDICT: REDUCE/AVOID (Divergence).
".

Definition tradePlanSchema : Schema :=
  TObject
    [ ("verdict", TString None);
      ("entry", TString None);
      ("tp", TString None);
      ("sl", TString None);
      ("reasoning", TString None);
      ("status", TString (Some ["RECOMMENDED"; "POSSIBLE"; "FORBIDDEN"])) ]
    [].

Definition responseSchema : Schema :=
  TObject
    [ ("ticker", TString None);
      ("priceInfo",
        TObject
          [ ("current", TString None);
            ("bandarAvg", TString None);
            ("diffPercent", TNumber);
            ("status", TString None) ]
          []);
      ("marketCapAnalysis",
        TObject
          [ ("category", TString (Some ["Small Cap"; "Mid Cap"; "Big Cap"; "UNKNOWN"]));
            ("behavior", TString None) ]
          []);
      ("supplyDemand",
        TObject
          [ ("bidStrength",
              Described "0-100 Score of buying pressure/support thickness" TNumber);
            ("offerStrength",
              Described "0-100 Score of selling pressure/resistance thickness" TNumber);
            ("verdict",
              Described
                "Professional summary like 'INSTITUTIONAL ABSORPTION' or 'DISTRIBUTION PRESSURE'"
                (TString None)) ]
          []);
      ("prediction",
        TObject
          [ ("direction", TString (Some ["UP"; "DOWN"; "CONSOLIDATE"; "UNKNOWN"]));
            ("probability", TNumber);
            ("reasoning", TString None) ]
          []);
      ("stressTest",
        TObject
          [ ("passed", TBoolean);
            ("score", TNumber);
            ("details", TString None) ]
          []);
      ("brokerAnalysis",
        TObject
          [ ("classification", TString None);
            ("insight", TString None) ]
          []);
      ("summary", TString None);
      ("bearCase", TString None);
      ("strategy",
        TObject
          [ ("bestTimeframe", TString (Some ["SHORT"; "MEDIUM"; "LONG"]));
            ("shortTerm", tradePlanSchema);
            ("mediumTerm", tradePlanSchema);
            ("longTerm", tradePlanSchema) ]
          []);
      ("fullAnalysis", TString None) ]
    [ "ticker"; "priceInfo"; "marketCapAnalysis"; "supplyDemand"; "prediction";
      "stressTest"; "brokerAnalysis"; "summary"; "bearCase"; "strategy";
      "fullAnalysis" ].

Definition consistencySchema : Schema :=
  TObject
    [ ("ticker", TString None);
      ("dataPoints", TNumber);
      ("trendVerdict", TString (Some ["IMPROVING"; "STABLE"; "DEGRADING"; "VOLATILE"]));
      ("consistencyScore", TNumber);
      ("analysis", TString None);
      ("actionItem", TString None) ]
    [].

(** ** Effects *)

Inductive JSError :=
| TypeError
| SyntaxError
| RejectedCall.

Inductive Result (A : Type) : Type :=
| Ok (a : A)
| Throw (e : JSError).
Arguments Ok {A} a.
Arguments Throw {A} e.

(** What the handlers read and write: the [vaultCases] state of [App], local
    storage, the alerts shown and the console lines written (most recent
    last), how many identifiers were drawn from [crypto.randomUUID], the
    reading of [Date.now], and the requests sent to the hosted model (most
    recent last).  Every archive entry is built by an object literal, so the
    archive is a list of objects.  Writing to the component state, to local
    storage, to the console and showing an alert are taken to succeed. *)
Record State := {
  vaultCases : list JSObject;
  localStorage : gmap string string;
  alerts : list string;
  console : list string;
  uuidsDrawn : nat;
  clock : Z;
  requests : list GenerateContentParameters
}.

(** A computation with effects on [State] that returns or throws. *)
Definition M (A : Type) : Type := State -> Result A * State.

Definition ret {A} (a : A) : M A := fun st => (Ok a, st).

Definition throw {A} (e : JSError) : M A := fun st => (Throw e, st).

Definition bind {A B} (c : M A) (k : A -> M B) : M B :=
  fun st =>
    match c st with
    | (Ok a, st') => k a st'
    | (Throw e, st') => (Throw e, st')
    end.

(** [try { c } catch (e) { handler e }]. *)
Definition tryCatch {A} (c : M A) (handler : JSError -> M A) : M A :=
  fun st =>
    match c st with
    | (Ok a, st') => (Ok a, st')
    | (Throw e, st') => handler e st'
    end.

Declare Scope js_scope.
Delimit Scope js_scope with js.
Notation "'const' x <~ c ;;; k" := (bind c (fun x => k))
  (at level 10, x name, c at level 100, k at level 200) : js_scope.
Notation "'run' c ;;; k" := (bind c (fun _ => k))
  (at level 10, c at level 100, k at level 200) : js_scope.
Local Open Scope js_scope.

(** The state updates of the effects: the archive replaced, an item
    stored, an alert shown, a console line written, one more identifier
    drawn, one more request sent. *)
Definition withVaultCases (cases : list JSObject) (st : State) : State :=
  {| vaultCases := cases; localStorage := localStorage st; alerts := alerts st;
     console := console st; uuidsDrawn := uuidsDrawn st; clock := clock st;
     requests := requests st |}.

Definition storeItem (key value : string) (st : State) : State :=
  {| vaultCases := vaultCases st; localStorage := <[key := value]> (localStorage st);
     alerts := alerts st; console := console st; uuidsDrawn := uuidsDrawn st;
     clock := clock st; requests := requests st |}.

Definition showAlert (message : string) (st : State) : State :=
  {| vaultCases := vaultCases st; localStorage := localStorage st;
     alerts := alerts st ++ [message]; console := console st;
     uuidsDrawn := uuidsDrawn st; clock := clock st; requests := requests st |}.

Definition logError (label : string) (st : State) : State :=
  {| vaultCases := vaultCases st; localStorage := localStorage st;
     alerts := alerts st; console := console st ++ [label];
     uuidsDrawn := uuidsDrawn st; clock := clock st; requests := requests st |}.

Definition drawUuid (st : State) : State :=
  {| vaultCases := vaultCases st; localStorage := localStorage st;
     alerts := alerts st; console := console st;
     uuidsDrawn := S (uuidsDrawn st); clock := clock st;
     requests := requests st |}.

Definition recordRequest (params : GenerateContentParameters) (st : State) : State :=
  {| vaultCases := vaultCases st; localStorage := localStorage st;
     alerts := alerts st; console := console st;
     uuidsDrawn := uuidsDrawn st; clock := clock st;
     requests := requests st ++ [params] |}.

Definition setVaultCases (cases : list JSObject) : M unit :=
  fun st => (Ok tt, withVaultCases cases st).

Definition getVaultCases : M (list JSObject) :=
  fun st => (Ok (vaultCases st), st).

Definition localStorage_setItem (key value : string) : M unit :=
  fun st => (Ok tt, storeItem key value st).

Definition alert (message : string) : M unit :=
  fun st => (Ok tt, showAlert message st).

Definition console_error (label : string) : M unit :=
  fun st => (Ok tt, logError label st).

Definition Date_now : M Z :=
  fun st => (Ok (clock st), st).

(** ** Numbers *)

(** A Number: [NaN], an infinity, or a finite number, given by the
    rational it is. *)
Inductive JSNumber :=
| NaN
| Infinity (negative : bool)
| Finite (q : Q).

(** [n / d] divided by [2 ^ e], as a fraction. *)
Definition scaleByPow2 (n d e : Z) : Z * Z :=
  if (0 <=? e)%Z then (n, d * 2 ^ e) else (n * 2 ^ (- e), d).

(** The exponent of the greatest power of two that is at most [n / d],
    for positive [n] and [d]. *)
Definition floorLog2 (n d : Z) : Z :=
  let k := Z.log2 n - Z.log2 d in
  let '(n', d') := scaleByPow2 n d k in
  if (d' <=? n')%Z then k else k - 1.

(** [n / d] rounded to the nearest integer, a tie to the even one. *)
Definition roundHalfEven (n d : Z) : Z :=
  let q := n / d in
  match (2 * (n mod d) ?= d)%Z with
  | Lt => q
  | Gt => q + 1
  | Eq => if Z.even q then q else q + 1
  end.

(** The Number value of a rational: the nearest binary64 number, that is
    the nearest multiple of [2 ^ e] with a significand of at most 53 bits
    and [e] at least -1074, a tie to the even significand; an infinity when
    the rounded magnitude reaches [2 ^ 1024]. *)
Definition roundToNumber (q : Q) : JSNumber :=
  let n := Z.abs (Qnum q) in
  let d := Z.pos (Qden q) in
  if (n =? 0)%Z then Finite 0
  else
    let e := Z.max (floorLog2 n d - 52) (-1074) in
    let '(n', d') := scaleByPow2 n d e in
    let m := roundHalfEven n' d' in
    if (1024 <=? Z.log2 m + e)%Z then Infinity (Qnum q <? 0)%Z
    else
      let s := if (Qnum q <? 0)%Z then - m else m in
      Finite (if (0 <=? e)%Z then inject_Z (s * 2 ^ e)
              else Qmake s (Z.to_pos (2 ^ (- e)))).

(** [a - b].  The difference of two finite numbers is kept exact; its
    sign, which is all a sort reads of it, is the sign of the rounded
    difference. *)
Definition subtract (a b : JSNumber) : JSNumber :=
  match a, b with
  | NaN, _ | _, NaN => NaN
  | Infinity s, Infinity s' => if Bool.eqb s s' then NaN else Infinity s
  | Infinity s, Finite _ => Infinity s
  | Finite _, Infinity s => Infinity (negb s)
  | Finite x, Finite y => Finite (Qminus x y)
  end.

(** ** Numbers read from text: [parseFloat] *)

(** [parseFloat] skips white space, reads the longest prefix that is a
    decimal literal (a sign, digits with an optional fraction, an optional
    exponent) or an infinity, and gives the Number value of its
    mathematical value; [NaN] when there is no such prefix.  A literal of
    more than 20 significant digits may be rounded from its first 20 by an
    implementation; the value here is the correctly rounded one, which is
    what V8 gives. *)
Definition isDigit (c : ascii) : bool :=
  (48 <=? nat_of_ascii c)%nat && (nat_of_ascii c <=? 57)%nat.

Definition digitValue (c : ascii) : Z :=
  Z.of_nat (nat_of_ascii c) - 48.

(** Tab, line feed, vertical tab, form feed, carriage return, space and
    no-break space. *)
Definition isWhiteSpace (c : ascii) : bool :=
  let n := nat_of_ascii c in
  ((9 <=? n)%nat && (n <=? 13)%nat) || (n =? 32)%nat || (n =? 160)%nat.

Fixpoint skipWhiteSpace (s : string) : string :=
  match s with
  | String c s' => if isWhiteSpace c then skipWhiteSpace s' else s
  | EmptyString => s
  end.

(** The longest run of digits at the head of [s]: its value on top of
    [acc], the number of digits added to [count], and what follows. *)
Fixpoint readDigits (acc : Z) (count : nat) (s : string) : Z * nat * string :=
  match s with
  | String c s' =>
      if isDigit c then readDigits (10 * acc + digitValue c) (S count) s'
      else (acc, count, s)
  | EmptyString => (acc, count, s)
  end.

Definition readSign (s : string) : bool * string :=
  match s with
  | String c s' =>
      if Ascii.eqb c "-" then (true, s')
      else if Ascii.eqb c "+" then (false, s')
      else (false, s)
  | EmptyString => (false, s)
  end.

(** The exponent part [e], [e+] or [e-] followed by at least one digit; 0
    when the text has none. *)
Definition readExponent (s : string) : Z :=
  match s with
  | String c s' =>
      if Ascii.eqb c "e" || Ascii.eqb c "E" then
        let '(negative, s'') := readSign s' in
        let '(e, n, _) := readDigits 0 0 s'' in
        if (n =? 0)%nat then 0 else if negative then - e else e
      else 0
  | EmptyString => 0
  end.

(** The mathematical value of a decimal literal with the digits [int]
    before the point, the [nfrac] digits [frac] after it and the exponent
    [e]: ([int] + [frac] / 10 ^ [nfrac]) * 10 ^ [e]. *)
Definition decimalMV (int frac : Z) (nfrac : nat) (e : Z) : Q :=
  Qmult (Qplus (inject_Z int)
               (Qdiv (inject_Z frac) (inject_Z (10 ^ Z.of_nat nfrac))))
        (Qpower (inject_Z 10) e).

Definition parseFloat (input : string) : JSNumber :=
  let '(negative, s) := readSign (skipWhiteSpace input) in
  if startsWith s "Infinity" then Infinity negative
  else
    let '(int, nint, s1) := readDigits 0 0 s in
    let '(frac, nfrac, s2) :=
      match s1 with
      | String c r => if Ascii.eqb c "." then readDigits 0 0 r else (0, 0%nat, s1)
      | EmptyString => (0, 0%nat, s1)
      end in
    if (nint + nfrac =? 0)%nat then NaN
    else
      let value := decimalMV int frac nfrac (readExponent s2) in
      roundToNumber (if negative then Qopp value else value).

(** [a > b] and [a < b] for an integer [b]; both are false on [NaN]. *)
Definition gt (a : JSNumber) (b : Z) : bool :=
  match a with
  | NaN => false
  | Infinity negative => negb negative
  | Finite q => negb (Qle_bool q (inject_Z b))
  end.

Definition lt (a : JSNumber) (b : Z) : bool :=
  match a with
  | NaN => false
  | Infinity negative => negative
  | Finite q => negb (Qle_bool (inject_Z b) q)
  end.

(** ** The input form *)

Definition INITIAL_STATE : StockAnalysisInput :=
  {| ticker := EmptyString; price := EmptyString; capital := EmptyString;
     capitalTier := RETAIL; riskProfile := BALANCED;
     fundamentals :=
       {| roe := EmptyString; der := EmptyString; pbv := EmptyString;
          per := EmptyString; npm := EmptyString; growth := EmptyString;
          cfo := EmptyString; fcf := EmptyString |};
     bandarmology :=
       {| orderBookBid := EmptyString; orderBookAsk := EmptyString;
          tradeBookBid := EmptyString; tradeBookAsk := EmptyString;
          brokerSummaryVal := 50; topBrokers := EmptyString;
          duration := EmptyString; bandarAvgPrice := EmptyString |};
     rawIntelligenceData := EmptyString |}.

Definition CapitalTier_eqb (a b : CapitalTier) : bool :=
  match a, b with
  | MICRO, MICRO | RETAIL, RETAIL | HIGH_NET, HIGH_NET
  | INSTITUTIONAL, INSTITUTIONAL => true
  | _, _ => false
  end.

(** A string in a condition: true unless empty. *)
Definition nonEmpty (s : string) : bool := negb (String.eqb s EmptyString).

Definition WARNING_MICRO : string :=
  "CRITICAL: Nominal modal terlalu besar untuk Tier MICRO.".
Definition WARNING_RETAIL : string :=
  "WARNING: Modal Anda mendekati High Net Worth. Pertimbangkan upgrade Tier.".
Definition WARNING_INSTITUTIONAL : string :=
  "INVALID: Tier Institutional butuh modal minimal 1 Miliar.".

(** The capital validation effect of [InputForm]: the value it gives the
    [capitalWarning] state ([None] for [null]).  It runs whenever
    [formData.capital] or [formData.capitalTier] changes. *)
Definition capitalWarning (formData : StockAnalysisInput) : option string :=
  if negb (nonEmpty (capital formData)) then None
  else
    let amount := parseFloat (capital formData) in
    let tier := capitalTier formData in
    if CapitalTier_eqb tier MICRO && gt amount 150000000 then
      Some WARNING_MICRO
    else if CapitalTier_eqb tier RETAIL && gt amount 600000000 then
      Some WARNING_RETAIL
    else if CapitalTier_eqb tier INSTITUTIONAL && lt amount 1000000000 then
      Some WARNING_INSTITUTIONAL
    else None.

(** [Object.values(formData.fundamentals)]. *)
Definition Fundamentals_values (f : Fundamentals) : list string :=
  [roe f; der f; pbv f; per f; npm f; growth f; cfo f; fcf f].

(** [isStepValid], as the condition its result is used for. *)
Definition isStepValid (formData : StockAnalysisInput) (s : Z) : bool :=
  if (s =? 1)%Z then
    nonEmpty (ticker formData) && nonEmpty (price formData)
    && nonEmpty (capital formData)
  else if (s =? 2)%Z then
    forallb (fun v => negb (String.eqb v EmptyString))
      (Fundamentals_values (fundamentals formData))
  else if (s =? 3)%Z then
    nonEmpty (topBrokers (bandarmology formData))
    && nonEmpty (bandarAvgPrice (bandarmology formData))
  else if (s =? 4)%Z then
    (50 <? String.length (rawIntelligenceData formData))%nat
  else false.

(** The form's submit handler: [Some formData] when it calls
    [onSubmit(formData)], [None] when it does not. *)
Definition form_onSubmit (formData : StockAnalysisInput) : option StockAnalysisInput :=
  if isStepValid formData 1 && isStepValid formData 2
     && isStepValid formData 3 && isStepValid formData 4
  then Some formData
  else None.

(** ** [analyzeStock]: the request text *)

Definition riskInstruction (input : StockAnalysisInput) : string :=
  match riskProfile input with
  | CONSERVATIVE =>
      "RISK PROFILE: CONSERVATIVE (HAWK). Penalize high PBV/PER severely if Growth is < 15%. Require positive CFO. Be skeptical of unproven breakouts."
  | AGGRESSIVE =>
      "RISK PROFILE: AGGRESSIVE (BULL). Tolerate high Valuation if Growth > 20% or Momentum is very strong. Focus on Future Value over current metrics."
  | BALANCED =>
      "RISK PROFILE: BALANCED. Standard institutional weighting."
  end.

(** The segments of the [prompt] template literal of [analyzeStock], with
    the line breaks and the indentation of the source. *)
Definition promptParts (input : StockAnalysisInput) : list string :=
    [ "
    INSTITUTIONAL AUDIT REQUEST: ";
      ticker input;
      " @ ";
      price input;
      "
    CLIENT MANDATE: ";
      RiskProfile_toString (riskProfile input);
      "
    CLIENT CAPITAL: ";
      capital input;
      " IDR (Tier selected: ";
      CapitalTier_toString (capitalTier input);
      ")
    
    [LOGIC INJECTION]
    ";
      riskInstruction input;
      "

    [FUNDAMENTAL DATA - AUDITED]
    ROE: ";
      roe (fundamentals input);
      "% | DER: ";
      der (fundamentals input);
      "x | PBV: ";
      pbv (fundamentals input);
      "x
    PER: ";
      per (fundamentals input);
      "x | CFO (Operating Cash): ";
      cfo (fundamentals input);
      " | FCF (Free Cash): ";
      fcf (fundamentals input);
      "
    
    [MARKET STRUCTURE DATA]
    Bandar Score: ";
      pretty (brokerSummaryVal (bandarmology input));
      " | Top Actors: ";
      topBrokers (bandarmology input);
      " | Avg Cost: ";
      bandarAvgPrice (bandarmology input);
      "
    Bid Depth: ";
      orderBookBid (bandarmology input);
      " 
    Offer Depth: ";
      orderBookAsk (bandarmology input);
      "
    Haka (Aggressive Buy): ";
      tradeBookAsk (bandarmology input);
      " 
    Haki (Aggressive Sell): ";
      tradeBookBid (bandarmology input);
      "
    
    [INTELLIGENCE REPORT]
    ";
      rawIntelligenceData input;
      "
    " ].

Definition prompt (input : StockAnalysisInput) : string :=
  template (promptParts input).

(** Every field value of the input, as the text a template substitution
    would give it. *)
Definition inputFieldValues (input : StockAnalysisInput) : list string :=
  [ ticker input; price input; capital input;
    CapitalTier_toString (capitalTier input);
    RiskProfile_toString (riskProfile input);
    roe (fundamentals input); der (fundamentals input);
    pbv (fundamentals input); per (fundamentals input);
    npm (fundamentals input); growth (fundamentals input);
    cfo (fundamentals input); fcf (fundamentals input);
    orderBookBid (bandarmology input); orderBookAsk (bandarmology input);
    tradeBookBid (bandarmology input); tradeBookAsk (bandarmology input);
    pretty (brokerSummaryVal (bandarmology input));
    topBrokers (bandarmology input); duration (bandarmology input);
    bandarAvgPrice (bandarmology input);
    rawIntelligenceData input ].

(** The fields the template substitutes. *)
Definition interpolatedFieldValues (input : StockAnalysisInput) : list string :=
  [ ticker input; price input; capital input;
    CapitalTier_toString (capitalTier input);
    RiskProfile_toString (riskProfile input);
    roe (fundamentals input); der (fundamentals input);
    pbv (fundamentals input); per (fundamentals input);
    cfo (fundamentals input); fcf (fundamentals input);
    orderBookBid (bandarmology input); orderBookAsk (bandarmology input);
    tradeBookBid (bandarmology input); tradeBookAsk (bandarmology input);
    pretty (brokerSummaryVal (bandarmology input));
    topBrokers (bandarmology input);
    bandarAvgPrice (bandarmology input);
    rawIntelligenceData input ].

(** ** [Array.prototype.sort] *)

(** How [sort] reads what the comparator answers for [x] and [y]: [NaN]
    is taken for [+0]; [x] goes ahead of [y] unless the answer is
    positive. *)
Definition notAfter (v : JSNumber) : bool :=
  match v with
  | NaN => true
  | Infinity negative => negative
  | Finite q => Qle_bool q 0
  end.

(** [sort] with a comparator is stable, and for a comparator that orders
    the elements consistently its result is the one stable arrangement:
    each element, from the last to the first, is placed before the first
    element of the sorted rest that does not order before it.  When the
    comparator is not consistent, as it is when some of its answers are
    [NaN], the language leaves the order to the implementation.  The model
    inserts in the same way then; the order it gives is stated below for
    one such array only, one in which every comparison between neighbours
    answers [NaN]: there V8 takes the array for one ascending run and
    leaves it as it is, as the model does. *)
Fixpoint insertBy {A} (compareFn : A -> A -> JSNumber) (x : A) (l : list A) : list A :=
  match l with
  | [] => [x]
  | y :: l' =>
      if notAfter (compareFn x y) then x :: y :: l'
      else y :: insertBy compareFn x l'
  end.

Definition Array_sort {A} (compareFn : A -> A -> JSNumber) (l : list A) : list A :=
  foldr (insertBy compareFn) [] l.

(** The number [r.timestamp] is in a subtraction: [NaN] when the entry
    has none. *)
Definition timestampNumber (r : AnalysisResult) : JSNumber :=
  match ar_timestamp r with
  | Some t => Finite (inject_Z t)
  | None => NaN
  end.

(** [(a, b) => a.timestamp - b.timestamp]. *)
Definition compareTimestamp (a b : AnalysisResult) : JSNumber :=
  subtract (timestampNumber a) (timestampNumber b).

(** [history.sort((a, b) => a.timestamp - b.timestamp)]. *)
Definition sortByTimestamp (history : list AnalysisResult) : list AnalysisResult :=
  Array_sort compareTimestamp history.

(** ** The case archive: keys *)

(** [c.id || c.ticker], the identity key of [CaseVault]. *)
Definition identityKey (c : JSObject) : option JSValue :=
  orElse (c !! "id") (c !! "ticker").

(** ** The configuration *)

Record AppConfig := {
  defaultTier : CapitalTier;
  config_riskProfile : RiskProfile;
  userName : string
}.

Definition DEFAULT_CONFIG : AppConfig :=
  {| defaultTier := RETAIL; config_riskProfile := BALANCED; userName := "Trader Pro" |}.

(** [{ ...data, riskProfile: profile }]. *)
Definition withRiskProfile (profile : RiskProfile) (data : StockAnalysisInput)
  : StockAnalysisInput :=
  {| ticker := ticker data; price := price data; capital := capital data;
     capitalTier := capitalTier data; riskProfile := profile;
     fundamentals := fundamentals data; bandarmology := bandarmology data;
     rawIntelligenceData := rawIntelligenceData data |}.

(** The configuration as the object [JSON.stringify] is given. *)
Definition AppConfig_toJS (c : AppConfig) : JSValue :=
  JObj (<["userName" := JStr (userName c)]>
          (<["riskProfile" := JStr (RiskProfile_toString (config_riskProfile c))]>
             (<["defaultTier" := JStr (CapitalTier_toString (defaultTier c))]> ∅))).

(** [{ ...prev, capitalTier: value }]: the form after the tier was
    changed. *)
Definition withCapitalTier (value : CapitalTier) (prev : StockAnalysisInput)
  : StockAnalysisInput :=
  {| ticker := ticker prev; price := price prev; capital := capital prev;
     capitalTier := value; riskProfile := riskProfile prev;
     fundamentals := fundamentals prev; bandarmology := bandarmology prev;
     rawIntelligenceData := rawIntelligenceData prev |}.

(** ** The archive view: the selection of [CaseVault] *)

(** A [Set] of strings, as the list of its members in the order they were
    added: [has], [add] (a new member goes last), [delete], and the set
    made from the values of an array. *)
Definition Set_has (s : list string) (x : string) : bool :=
  existsb (String.eqb x) s.

Definition Set_add (s : list string) (x : string) : list string :=
  if Set_has s x then s else s ++ [x].

Definition Set_delete (s : list string) (x : string) : list string :=
  List.filter (fun y => negb (String.eqb y x)) s.

Definition Set_from (values : list string) : list string :=
  foldl Set_add [] values.

(** [c.id || c.ticker] on an entry typed as the interface types it. *)
Definition caseKey (c : AnalysisResult) : string :=
  if nonEmpty (ar_id c) then ar_id c else ar_ticker c.

(** The effect that runs when [cases] changes: the selection without the
    keys that no case has. *)
Definition syncSelection (cases : list AnalysisResult) (prev : list string)
  : list string :=
  let validIds := Set_from (map caseKey cases) in
  let newSet := Set_from (List.filter (Set_has validIds) prev) in
  if (length newSet =? length prev)%nat then prev else newSet.

(** [c.id === firstId || (!c.id && c.ticker === firstId)]. *)
Definition matchesKey (firstId : string) (c : AnalysisResult) : bool :=
  String.eqb (ar_id c) firstId
  || (negb (nonEmpty (ar_id c)) && String.eqb (ar_ticker c) firstId).

(** [activeTicker]: [None] for [null]. *)
Definition activeTicker (cases : list AnalysisResult) (selectedIds : list string)
  : option string :=
  match selectedIds with
  | [] => None
  | firstId :: _ =>
      match List.find (matchesKey firstId) cases with
      | Some item => Some (ar_ticker item)
      | None => None
      end
  end.

Definition toggleSelection (selectedIds : list string) (item : AnalysisResult)
  : list string :=
  let id := caseKey item in
  let newSet := Set_from selectedIds in
  if Set_has newSet id then Set_delete newSet id else Set_add newSet id.

Definition isSelected (selectedIds : list string) (item : AnalysisResult) : bool :=
  Set_has selectedIds (caseKey item).

Definition isDisabled (cases : list AnalysisResult) (selectedIds : list string)
    (item : AnalysisResult) : bool :=
  match activeTicker cases selectedIds with
  | None => false
  | Some active =>
      negb (String.eqb active (ar_ticker item)) && negb (isSelected selectedIds item)
  end.

(** The click on a card: [!isDisabled && toggleSelection(item)]; the
    result is the selection after the click. *)
Definition card_onClick (cases : list AnalysisResult) (selectedIds : list string)
    (item : AnalysisResult) : list string :=
  if isDisabled cases selectedIds item then selectedIds
  else toggleSelection selectedIds item.

(** The audit button: rendered when at least two keys are selected; a
    click passes the cases whose key is selected to [onRunConsistency].
    [None] when the button is not rendered. *)
Definition auditButton_onClick (cases : list AnalysisResult) (selectedIds : list string)
  : option (list AnalysisResult) :=
  if (2 <=? length selectedIds)%nat then
    Some (List.filter (fun c => Set_has selectedIds (caseKey c)) cases)
  else None.

(** ** The application view *)

(** The component state of [App] that the two submit handlers write. *)
Record AppView := {
  loading : bool;
  analysis : option JSObject;
  error : option string;
  sidebarOpen : bool;
  consistencyResult : option JSValue;
  checkingConsistency : bool
}.

Definition ANALYSIS_FAILED : string :=
  "Analysis Failed. Ensure all data fields are valid and try again.".

(** The line [console.error(err)] writes for an error: its name. *)
Definition JSError_name (e : JSError) : string :=
  match e with
  | TypeError => "TypeError"
  | SyntaxError => "SyntaxError"
  | RejectedCall => "Error"
  end.

(** ** Vocabulary of the specification *)

(** The fields a request must carry: ticker, price and capital, the eight
    fundamentals, the top-broker codes and the average price, none of them
    empty. *)
Definition RequiredFieldsFilled (f : StockAnalysisInput) : Prop :=
  ticker f <> EmptyString /\ price f <> EmptyString /\ capital f <> EmptyString
  /\ (roe (fundamentals f) <> EmptyString /\ der (fundamentals f) <> EmptyString
      /\ pbv (fundamentals f) <> EmptyString /\ per (fundamentals f) <> EmptyString
      /\ npm (fundamentals f) <> EmptyString /\ growth (fundamentals f) <> EmptyString
      /\ cfo (fundamentals f) <> EmptyString /\ fcf (fundamentals f) <> EmptyString)
  /\ topBrokers (bandarmology f) <> EmptyString
  /\ bandarAvgPrice (bandarmology f) <> EmptyString.

(** A request is submission-eligible when these fields are filled and the
    raw intelligence text is longer than 50 characters. *)
Definition SubmissionEligible (f : StockAnalysisInput) : Prop :=
  RequiredFieldsFilled f
  /\ (50 < String.length (rawIntelligenceData f))%nat.

(** A run of decimal digits, and the number it denotes. *)
Fixpoint allDigits (s : string) : bool :=
  match s with
  | EmptyString => true
  | String c s' => isDigit c && allDigits s'
  end.

Fixpoint decimalValueFrom (acc : Z) (s : string) : Z :=
  match s with
  | EmptyString => acc
  | String c s' => decimalValueFrom (10 * acc + digitValue c) s'
  end.

Definition decimalValue (s : string) : Z := decimalValueFrom 0 s.

(** A text at which a run of digits ends: it does not start with a
    digit. *)
Definition stopsDigits (s : string) : bool :=
  match s with
  | String c _ => negb (isDigit c)
  | EmptyString => true
  end.

Fixpoint allWhiteSpace (s : string) : bool :=
  match s with
  | EmptyString => true
  | String c s' => isWhiteSpace c && allWhiteSpace s'
  end.

(** A capital amount written as a numeric string, by its parts: white
    space, a sign, the digits before the point, the point with the digits
    after it, an exponent ([e] or [E], a sign, digits), white space. *)
Inductive Sign := Unsigned | Plus | Minus.

Record Exponent := {
  exp_upper : bool;
  exp_sign : Sign;
  exp_digits : string
}.

Record Numeral := {
  num_leading : string;
  num_sign : Sign;
  num_whole : string;
  num_fraction : option string;
  num_exponent : option Exponent;
  num_trailing : string
}.

Definition Sign_text (s : Sign) : string :=
  match s with
  | Unsigned => EmptyString
  | Plus => "+"
  | Minus => "-"
  end.

Definition Exponent_text (e : Exponent) : string :=
  (if exp_upper e then "E" else "e") +:+ Sign_text (exp_sign e) +:+ exp_digits e.

Definition Numeral_text (n : Numeral) : string :=
  num_leading n +:+ Sign_text (num_sign n) +:+ num_whole n
  +:+ match num_fraction n with
      | Some digits => "." +:+ digits
      | None => EmptyString
      end
  +:+ match num_exponent n with
      | Some e => Exponent_text e
      | None => EmptyString
      end
  +:+ num_trailing n.

(** The parts are what they are called, there is a digit before or after
    the point, and an exponent has a digit. *)
Definition wellFormed (n : Numeral) : bool :=
  allWhiteSpace (num_leading n)
  && allDigits (num_whole n)
  && allDigits (default EmptyString (num_fraction n))
  && nonEmpty (num_whole n +:+ default EmptyString (num_fraction n))
  && match num_exponent n with
     | Some e => allDigits (exp_digits e) && nonEmpty (exp_digits e)
     | None => true
     end
  && allWhiteSpace (num_trailing n).

(** The amount a numeric string denotes. *)
Definition Exponent_value (e : option Exponent) : Z :=
  match e with
  | Some x =>
      match exp_sign x with
      | Minus => - decimalValue (exp_digits x)
      | _ => decimalValue (exp_digits x)
      end
  | None => 0
  end.

Definition Numeral_value (n : Numeral) : Q :=
  let magnitude :=
    decimalMV (decimalValue (num_whole n))
      (decimalValue (default EmptyString (num_fraction n)))
      (String.length (default EmptyString (num_fraction n)))
      (Exponent_value (num_exponent n)) in
  match num_sign n with
  | Minus => Qopp magnitude
  | _ => magnitude
  end.

(** A whole amount written in digits only. *)
Definition wholeAmount (digits : string) : Numeral :=
  {| num_leading := EmptyString; num_sign := Unsigned; num_whole := digits;
     num_fraction := None; num_exponent := None; num_trailing := EmptyString |}.

(** The advisory the rules give for a tier and an amount, the first rule
    that applies deciding. *)
Definition advisory (tier : CapitalTier) (amount : JSNumber) : option string :=
  match tier with
  | MICRO => if gt amount 150000000 then Some WARNING_MICRO else None
  | RETAIL => if gt amount 600000000 then Some WARNING_RETAIL else None
  | HIGH_NET => None
  | INSTITUTIONAL =>
      if lt amount 1000000000 then Some WARNING_INSTITUTIONAL else None
  end.

(** Validation of a value against a schema: the type of each value, the
    enumerated set of a string, the required keys of an object, and each
    declared property that is present. *)
Fixpoint conforms (s : Schema) (v : JSValue) : bool :=
  match s with
  | TString enum =>
      match v with
      | JStr x =>
          match enum with
          | None => true
          | Some allowed => existsb (String.eqb x) allowed
          end
      | _ => false
      end
  | TNumber => match v with JNum _ => true | _ => false end
  | TBoolean => match v with JBool _ => true | _ => false end
  | TObject properties required =>
      match v with
      | JObj props =>
          forallb (fun key => bool_decide (is_Some (props !! key))) required
          && forallb
               (fun property =>
                  match props !! fst property with
                  | None => true
                  | Some v' => conforms (snd property) v'
                  end)
               properties
      | _ => false
      end
  | Described _ s' => conforms s' v
  end.

(** A snapshot is an ordered sequence of result-shaped records when it is
    an array whose every element conforms to the result schema. *)
Definition resultShaped (v : JSValue) : bool := conforms responseSchema v.

Definition sequenceOfResults (v : JSValue) : bool :=
  match v with
  | JArr items => forallb resultShaped items
  | _ => false
  end.

(** An entry that has a timestamp; ascending order of timestamps; the
    entries of one timestamp. *)
Definition dated (r : AnalysisResult) : Prop := ar_timestamp r <> None.

Definition byTimestamp (a b : AnalysisResult) : Prop :=
  match ar_timestamp a, ar_timestamp b with
  | Some x, Some y => x <= y
  | _, _ => False
  end.

Definition hasTimestamp (t : Z) (r : AnalysisResult) : bool :=
  match ar_timestamp r with
  | Some x => (x =? t)%Z
  | None => false
  end.

(** All entries share one ticker. *)
Definition sameTicker (history : list AnalysisResult) : Prop :=
  forall a b, In a history -> In b history -> ar_ticker a = ar_ticker b.

(** What [crypto.randomUUID] may change: the count of identifiers drawn,
    which does not decrease, and nothing else. *)
Definition onlyUuidsDrawn (st st' : State) : Prop :=
  vaultCases st' = vaultCases st /\ localStorage st' = localStorage st
  /\ alerts st' = alerts st /\ console st' = console st
  /\ clock st' = clock st /\ requests st' = requests st
  /\ (uuidsDrawn st <= uuidsDrawn st')%nat.

(** An imported element and the archive entry made from it: the element's
    own properties with [id] set to the element's [id] when that is truthy
    and to an identifier that satisfies [generated] otherwise. *)
Definition stampedFrom (generated : string -> Prop) (c : JSValue) (entry : JSObject) : Prop :=
  exists id,
    entry = <["id" := id]> (spread c)
    /\ (truthy (spread c !! "id") = true -> spread c !! "id" = Some id)
    /\ (truthy (spread c !! "id") = false -> exists u, generated u /\ id = JStr u).

(** ** Sample data *)

Definition quoted (s : string) : string := dq +:+ s +:+ dq.

Definition sampleUUID (n : nat) : string := "uuid-" +:+ pretty n.

(** A payload that conforms to the result schema, with the least content;
    the same payload with a direction outside the enumerated set; a
    payload with an id, a timestamp and sources of its own; an archive
    entry with an id. *)
Definition validPayload : JSObject :=
  <["ticker" := JStr "BBCA"]>
    (<["priceInfo" := JObj ∅]>
    (<["marketCapAnalysis" := JObj ∅]>
    (<["supplyDemand" := JObj ∅]>
    (<["prediction" := JObj ∅]>
    (<["stressTest" := JObj ∅]>
    (<["brokerAnalysis" := JObj ∅]>
    (<["summary" := JStr "s"]>
    (<["bearCase" := JStr "b"]>
    (<["strategy" := JObj ∅]>
    (<["fullAnalysis" := JStr "f"]> ∅)))))))))).

Definition sidewaysPayload : JSObject :=
  <["prediction" := JObj (<["direction" := JStr "SIDEWAYS"]> ∅)]> validPayload.

Definition identityPayload : JSObject :=
  <["id" := JStr "from-model"]>
    (<["timestamp" := JNum 1]> (<["sources" := JArr [JBool true]]> ∅)).

Definition case1 : JSObject :=
  <["id" := JStr "case-1"]> (<["ticker" := JStr "BBCA"]> ∅).

(** The JSON texts of these values, and of two snapshots: one holding
    [validPayload] and the number 42, one holding [case1]. *)
Definition textPayload (prediction : string) : string :=
  template
    [ "{"; quoted "ticker"; ":"; quoted "BBCA"; ",";
      quoted "priceInfo"; ":{},"; quoted "marketCapAnalysis"; ":{},";
      quoted "supplyDemand"; ":{},"; quoted "prediction"; ":"; prediction; ",";
      quoted "stressTest"; ":{},"; quoted "brokerAnalysis"; ":{},";
      quoted "summary"; ":"; quoted "s"; ","; quoted "bearCase"; ":"; quoted "b"; ",";
      quoted "strategy"; ":{},"; quoted "fullAnalysis"; ":"; quoted "f"; "}" ].

Definition textValid : string := textPayload "{}".

Definition textSideways : string :=
  textPayload (template ["{"; quoted "direction"; ":"; quoted "SIDEWAYS"; "}"]).

Definition textWithIdentity : string :=
  template [ "{"; quoted "id"; ":"; quoted "from-model"; ",";
             quoted "timestamp"; ":1,"; quoted "sources"; ":[true]}" ].

Definition textSnapshotMixed : string :=
  template ["["; textValid; ",42]"].

Definition textSnapshotCase1 : string :=
  template [ "[{"; quoted "id"; ":"; quoted "case-1"; ",";
             quoted "ticker"; ":"; quoted "BBCA"; "}]" ].

(** [JSON.parse] on the texts the examples use; every other text is
    treated as one that does not parse. *)
Definition sampleParse (text : string) : option JSValue :=
  if String.eqb text "{}" then Some (JObj ∅)
  else if String.eqb text "[{}, null]" then Some (JArr [JObj ∅; JNull])
  else if String.eqb text "42" then Some (JNum 42)
  else if String.eqb text textValid then Some (JObj validPayload)
  else if String.eqb text textSideways then Some (JObj sidewaysPayload)
  else if String.eqb text textWithIdentity then Some (JObj identityPayload)
  else if String.eqb text textSnapshotMixed then
    Some (JArr [JObj validPayload; JNum 42])
  else if String.eqb text textSnapshotCase1 then Some (JArr [JObj case1])
  else None.

(** The examples do not look at serialised text: one text stands for it. *)
Definition sampleStringify (v : JSValue) : string := "[]".

(** A hosted model that answers every request with [text]. *)
Definition answering (text : string) (n : nat) (params : GenerateContentParameters) : Response :=
  ResponseText text.

Definition emptyState : State :=
  {| vaultCases := []; localStorage := ∅; alerts := []; console := [];
     uuidsDrawn := 0; clock := 1700000000000; requests := [] |}.

Definition bbcaAt (id : string) (timestamp : Z) : AnalysisResult :=
  {| ar_id := id; ar_timestamp := Some timestamp; ar_ticker := "BBCA"; ar_rest := ∅ |}.

Definition tlkmAt (id : string) (timestamp : Z) : AnalysisResult :=
  {| ar_id := id; ar_timestamp := Some timestamp; ar_ticker := "TLKM"; ar_rest := ∅ |}.

(** A complete form: every field filled, 69 characters of intelligence. *)
Definition auditInput : StockAnalysisInput :=
  {| ticker := "BBCA"; price := "9500"; capital := "2000000000";
     capitalTier := RETAIL; riskProfile := BALANCED;
     fundamentals :=
       {| roe := "21.4"; der := "0.6"; pbv := "4.8"; per := "23.9";
          npm := "37.7"; growth := "11.3"; cfo := "56000"; fcf := "48000" |};
     bandarmology :=
       {| orderBookBid := "9475 x 12000"; orderBookAsk := "9525 x 8000";
          tradeBookBid := "3100 lot"; tradeBookAsk := "5200 lot";
          brokerSummaryVal := 65; topBrokers := "ZP, AK, BK";
          duration := "Last 3 Months"; bandarAvgPrice := "9310" |};
     rawIntelligenceData :=
       "Market cap 1170T, average daily volume 82M shares, free float 42 pct." |}.

Definition singleHistory : list AnalysisResult := [bbcaAt "a" 100].

Definition mixedHistory : list AnalysisResult := [bbcaAt "a" 100; tlkmAt "b" 200].

Definition unsortedHistory : list AnalysisResult :=
  [bbcaAt "c" 300; bbcaAt "a" 100; bbcaAt "b" 200].

(** The same form with another capital and tier. *)
Definition withCapital (amount : string) (tier : CapitalTier) (f : StockAnalysisInput)
  : StockAnalysisInput :=
  {| ticker := ticker f; price := price f; capital := amount; capitalTier := tier;
     riskProfile := riskProfile f; fundamentals := fundamentals f;
     bandarmology := bandarmology f; rawIntelligenceData := rawIntelligenceData f |}.

(** The same form with another raw intelligence text. *)
Definition withIntelligence (text : string) (f : StockAnalysisInput)
  : StockAnalysisInput :=
  {| ticker := ticker f; price := price f; capital := capital f;
     capitalTier := capitalTier f; riskProfile := riskProfile f;
     fundamentals := fundamentals f; bandarmology := bandarmology f;
     rawIntelligenceData := text |}.

Definition fiftyCharacters : string :=
  "0123456789012345678901234567890123456789012345678X".

(** An archive holding one entry whose id is [case-1]. *)
Definition archiveWithCase1 : State := withVaultCases [case1] emptyState.
(** ** Invariants of the archive and of the selection *)

(** An archive entry carries an id, and a timestamp, that a condition
    takes for true. *)
Definition HasId (entry : JSObject) : Prop := truthy (entry !! "id") = true.

Definition HasTimestamp (entry : JSObject) : Prop :=
  truthy (entry !! "timestamp") = true.

(** A stored element and the archive entry the mount effect makes from
    it: the element's own properties, with [id] as for an import and
    [timestamp] set to the element's when that is truthy and to [now]
    otherwise. *)
Definition sanitizedFrom (generated : string -> Prop) (now : Z) (item : JSValue)
    (entry : JSObject) : Prop :=
  exists id timestamp,
    entry = <["timestamp" := timestamp]> (<["id" := id]> (spread item))
    /\ (truthy (spread item !! "id") = true -> spread item !! "id" = Some id)
    /\ (truthy (spread item !! "id") = false -> exists u, generated u /\ id = JStr u)
    /\ (truthy (spread item !! "timestamp") = true ->
        spread item !! "timestamp" = Some timestamp)
    /\ (truthy (spread item !! "timestamp") = false ->
        timestamp = JNum (inject_Z now)).

(** No two cases have one key, and no case has the empty key. *)
Definition KeysDistinct (cases : list AnalysisResult) : Prop :=
  List.NoDup (map caseKey cases).

Definition KeysNonEmpty (cases : list AnalysisResult) : Prop :=
  forall c, In c cases -> caseKey c <> EmptyString.

(** A selection over [cases] is coherent when it lists no key twice, every
    key it lists is the key of a case, and the cases whose key it lists
    share one ticker. *)
Definition SelectionCoherent (cases : list AnalysisResult) (selectedIds : list string)
  : Prop :=
  List.NoDup selectedIds
  /\ (forall k, In k selectedIds -> exists c, In c cases /\ caseKey c = k)
  /\ (forall c c',
        In c cases -> In c' cases ->
        In (caseKey c) selectedIds -> In (caseKey c') selectedIds ->
        ar_ticker c = ar_ticker c').

(** The selection after the cards of [clicks] were clicked in turn. *)
Definition afterClicks (cases : list AnalysisResult) (clicks : list AnalysisResult)
  : list string :=
  foldl (card_onClick cases) [] clicks.


(** ** Sample data for the archive, the configuration and the selection *)

(** An archive entry with an id and a timestamp, the JSON text of the
    archive that holds it, and the JSON text of the default
    configuration. *)
Definition stampedCase : JSObject := <["timestamp" := JNum 5]> case1.

Definition textStampedArchive : string :=
  template [ "[{"; quoted "id"; ":"; quoted "case-1"; ",";
             quoted "ticker"; ":"; quoted "BBCA"; ",";
             quoted "timestamp"; ":5}]" ].

Definition textDefaultConfig : string :=
  template [ "{"; quoted "defaultTier"; ":"; quoted "RETAIL"; ",";
             quoted "riskProfile"; ":"; quoted "BALANCED"; ",";
             quoted "userName"; ":"; quoted "Trader Pro"; "}" ].

(** [JSON.stringify] and [JSON.parse] on the two values these examples
    store: the archive text stands for every array, the configuration
    text for every other value, and both texts parse back. *)
Definition storedStringify (v : JSValue) : string :=
  match v with
  | JArr _ => textStampedArchive
  | _ => textDefaultConfig
  end.

Definition storedParse (text : string) : option JSValue :=
  if String.eqb text textStampedArchive then Some (JArr [JObj stampedCase])
  else if String.eqb text textDefaultConfig then Some (AppConfig_toJS DEFAULT_CONFIG)
  else sampleParse text.

(** An archive holding [stampedCase] with its stored copy, and a page
    that starts on the same storage with an empty archive. *)
Definition stampedArchive : State :=
  storeItem "tradeLogic_cases" textStampedArchive
    (withVaultCases [stampedCase] emptyState).

Definition freshPage : State :=
  storeItem "tradeLogic_cases" textStampedArchive emptyState.

(** Three archive entries as the archive view has them, two of one
    ticker. *)
Definition sampleCases : list AnalysisResult :=
  [bbcaAt "a" 100; tlkmAt "b" 200; bbcaAt "c" 300].

(** ** Sample data for the capital advisory *)

(** The capital [ +1.6e8 ], with white space, a sign, a fraction and an
    exponent; [6000000001e-1], with a negative exponent; and two amounts
    next to a bound, [150000000.00000001] and [999999999.99999999]. *)
Definition spacedNumeral : Numeral :=
  {| num_leading := " "; num_sign := Plus; num_whole := "1";
     num_fraction := Some "6";
     num_exponent := Some {| exp_upper := false; exp_sign := Unsigned; exp_digits := "8" |};
     num_trailing := " " |}.

Definition tenthNumeral : Numeral :=
  {| num_leading := EmptyString; num_sign := Unsigned; num_whole := "6000000001";
     num_fraction := None;
     num_exponent := Some {| exp_upper := false; exp_sign := Minus; exp_digits := "1" |};
     num_trailing := EmptyString |}.

Definition justAboveMicroBound : Numeral :=
  {| num_leading := EmptyString; num_sign := Unsigned; num_whole := "150000000";
     num_fraction := Some "00000001"; num_exponent := None;
     num_trailing := EmptyString |}.

Definition justBelowInstitutionalBound : Numeral :=
  {| num_leading := EmptyString; num_sign := Unsigned; num_whole := "999999999";
     num_fraction := Some "99999999"; num_exponent := None;
     num_trailing := EmptyString |}.

(** ** Sample data for an import without timestamps *)

(** Three entries of one ticker as an imported file gives them, the
    second without a timestamp; the JSON text of the file; and the same
    three entries as the archive view has them. *)
Definition datedEntry (id : string) (timestamp : Z) : JSObject :=
  <["id" := JStr id]>
    (<["timestamp" := JNum (inject_Z timestamp)]> (<["ticker" := JStr "BBCA"]> ∅)).

Definition undatedEntry (id : string) : JSObject :=
  <["id" := JStr id]> (<["ticker" := JStr "BBCA"]> ∅).

Definition snapshotUndated : list JSObject :=
  [datedEntry "x" 300; undatedEntry "y"; datedEntry "z" 100].

Definition textSnapshotUndated : string :=
  template
    [ "[{"; quoted "id"; ":"; quoted "x"; ","; quoted "ticker"; ":"; quoted "BBCA"; ",";
      quoted "timestamp"; ":300},{";
      quoted "id"; ":"; quoted "y"; ","; quoted "ticker"; ":"; quoted "BBCA"; "},{";
      quoted "id"; ":"; quoted "z"; ","; quoted "ticker"; ":"; quoted "BBCA"; ",";
      quoted "timestamp"; ":100}]" ].

Definition importParse (text : string) : option JSValue :=
  if String.eqb text textSnapshotUndated then Some (JArr (map JObj snapshotUndated))
  else sampleParse text.

(** A [JSON.stringify] for this example that shows the order of an
    array: the timestamp of each element, [none] where it has none. *)
Definition orderStringify (v : JSValue) : string :=
  match v with
  | JArr items =>
      template
        (map (fun item =>
                match item with
                | JObj props =>
                    match props !! "timestamp" with
                    | Some (JNum q) => pretty (Qnum q) +:+ ";"
                    | _ => "none;"
                    end
                | _ => "none;"
                end)
             items)
  | _ => EmptyString
  end.

Definition bbcaUndated (id : string) : AnalysisResult :=
  {| ar_id := id; ar_timestamp := None; ar_ticker := "BBCA"; ar_rest := ∅ |}.

Definition undatedHistory : list AnalysisResult :=
  [bbcaAt "x" 300; bbcaUndated "y"; bbcaAt "z" 100].

(** ** The host *)

Section Host.

(** [JSON.parse]: [None] when it throws a [SyntaxError]. *)
Variable JSON_parse : string -> option JSValue.

(** [JSON.stringify]. *)
Variable JSON_stringify : JSValue -> string.

(** The identifier the [n]-th call of [crypto.randomUUID] returns,
    counting from 0. *)
Variable randomUUID_at : nat -> string.

(** The answer of the hosted model to the [n]-th request, counting
    from 0. *)
Variable generateContent_at : nat -> GenerateContentParameters -> Response.

Definition parse (text : string) : M JSValue :=
  match JSON_parse text with
  | Some v => ret v
  | None => throw SyntaxError
  end.

Definition crypto_randomUUID : M string :=
  fun st => (Ok (randomUUID_at (uuidsDrawn st)), drawUuid st).

(** [await ai.models.generateContent(params)], giving [response.text]:
    the request is recorded as sent, then the promise settles. *)
Definition generateContent (params : GenerateContentParameters) : M string :=
  fun st =>
    match generateContent_at (length (requests st)) params with
    | Rejected => (Throw RejectedCall, recordRequest params st)
    | ResponseText text => (Ok text, recordRequest params st)
    end.

(** Reading the property [name] of [v], for a name that is no built-in
    property of arrays or strings ([id], [ticker], ...): a [TypeError] on
    [null], otherwise the own property or [undefined]. *)
Definition getProperty (v : JSValue) (name : string) : M (option JSValue) :=
  match v with
  | JNull => throw TypeError
  | _ => ret (spread v !! name)
  end.

(** [items.map(f)] for a callback with effects: left to right, stopping at
    the first throw. *)
Fixpoint Array_map {A B} (f : A -> M B) (items : list A) : M (list B) :=
  match items with
  | [] => ret []
  | x :: items' =>
      const y <~ f x ;;;
      const ys <~ Array_map f items' ;;;
      ret (y :: ys)
  end.

(** *** [geminiService.ts] *)

Definition analysisRequest (input : StockAnalysisInput) : GenerateContentParameters :=
  {| model := "gemini-3-flash-preview";
     contents := prompt input;
     config :=
       {| systemInstruction := Some SYSTEM_INSTRUCTION;
          responseMimeType := "application/json";
          responseSchema_ := responseSchema;
          temperature := 0%Q;
          topK := Some 1;
          topP := Some (1 # 10)%Q;
          seed := 42069 |} |}.

(** [{ ...data, id: crypto.randomUUID(), timestamp: Date.now(), sources: [] }]. *)
Definition stampResult (data : JSValue) (id : string) (timestamp : Z) : JSObject :=
  <["sources" := JArr []]>
    (<["timestamp" := JNum (inject_Z timestamp)]>
    (<["id" := JStr id]> (spread data))).

Definition analyzeStock (input : StockAnalysisInput) : M JSObject :=
  tryCatch
    (const text <~ generateContent (analysisRequest input) ;;;
     const data <~ parse text ;;;
     const id <~ crypto_randomUUID ;;;
     const timestamp <~ Date_now ;;;
     ret (stampResult data id timestamp))
    (fun error =>
       run console_error "Gemini Error:" ;;;
       throw error).

Definition consistencyPrompt (sorted : list AnalysisResult) (first : AnalysisResult) : string :=
  template
    [ "Analisa tren konsistensi untuk ";
      ar_ticker first;
      ". Data: ";
      JSON_stringify (JArr (map AnalysisResult_toJS sorted));
      ". Gunakan bahasa profesional dan berikan outlook trend jangka panjang." ].

Definition consistencyRequest (sorted : list AnalysisResult) (first : AnalysisResult)
  : GenerateContentParameters :=
  {| model := "gemini-3-flash-preview";
     contents := consistencyPrompt sorted first;
     config :=
       {| systemInstruction := None;
          responseMimeType := "application/json";
          responseSchema_ := consistencySchema;
          temperature := 0%Q;
          topK := None;
          topP := None;
          seed := 42069 |} |}.

(** [sorted[0].ticker] throws a [TypeError] when [sorted] is empty. *)
Definition runConsistencyCheck (history : list AnalysisResult) : M JSValue :=
  let sorted := sortByTimestamp history in
  const first <~
    match sorted with
    | [] => throw TypeError
    | r :: _ => ret r
    end ;;;
  const text <~ generateContent (consistencyRequest sorted first) ;;;
  parse text.

(** *** The archive handlers of [App] *)

Definition saveToVault (result : JSObject) : M unit :=
  const id <~ crypto_randomUUID ;;;
  const timestamp <~ Date_now ;;;
  let uniqueResult :=
    <["timestamp" := JNum (inject_Z timestamp)]> (<["id" := JStr id]> result) in
  const cases <~ getVaultCases ;;;
  let newCases := uniqueResult :: cases in
  run setVaultCases newCases ;;;
  run localStorage_setItem "tradeLogic_cases"
        (JSON_stringify (JArr (map JObj newCases))) ;;;
  alert "Snapshot archived to Vault successfully.".

Definition removeFromVault (id : string) : M unit :=
  const cases <~ getVaultCases ;;;
  let newCases := List.filter (fun c => strictNeqString (c !! "id") id) cases in
  run setVaultCases newCases ;;;
  localStorage_setItem "tradeLogic_cases"
    (JSON_stringify (JArr (map JObj newCases))).

(** [{ ...c, id: c.id || crypto.randomUUID() }]. *)
Definition stampEntry (c : JSValue) : M JSObject :=
  const own <~ getProperty c "id" ;;;
  const id <~
    (if truthy own then ret (default JNull own)
     else const fresh <~ crypto_randomUUID ;;; ret (JStr fresh)) ;;;
  ret (<["id" := id]> (spread c)).

(** [`Successfully imported ${json.length} cases.`]. *)
Definition importedMessage (n : nat) : string :=
  template ["Successfully imported "; pretty n; " cases."].

(** [handleImportVault] with the text of the chosen file, [None] when no
    file was chosen; the body is the [onload] callback of the file
    reader, run on that text. *)
Definition handleImportVault (file : option string) : M unit :=
  match file with
  | None => ret tt
  | Some text =>
      tryCatch
        (const json <~ parse text ;;;
         match json with
         | JArr items =>
             const cases <~ getVaultCases ;;;
             const stamped <~ Array_map stampEntry items ;;;
             let merged := (cases ++ stamped)%list in
             run setVaultCases merged ;;;
             run localStorage_setItem "tradeLogic_cases"
                   (JSON_stringify (JArr (map JObj merged))) ;;;
             alert (importedMessage (length items))
         | _ => ret tt
         end)
        (fun err =>
           run console_error "Import failed" ;;;
           alert "Invalid JSON file.")
  end.

(** The identifiers drawn between two states. *)
Definition drawnBetween (st st' : State) (u : string) : Prop :=
  exists n, (uuidsDrawn st <= n < uuidsDrawn st')%nat /\ u = randomUUID_at n.

(** *** Loading and exporting the archive *)

(** [JSON.stringify(value, null, 2)]. *)
Variable JSON_stringify_indented : JSValue -> string.

(** The text [handleExportVault] puts in the downloaded file; the handler
    changes no state. *)
Definition handleExportVault (st : State) : string :=
  JSON_stringify_indented (JArr (map JObj (vaultCases st))).

(** [parsed.map(f)] on a parsed value: a [TypeError] unless the value is
    an array. *)
Definition callMap {B} (parsed : JSValue) (f : JSValue -> M B) : M (list B) :=
  match parsed with
  | JArr items => Array_map f items
  | _ => throw TypeError
  end.

(** [{ ...item, id: item.id || crypto.randomUUID(),
       timestamp: item.timestamp || Date.now() }]. *)
Definition sanitizeEntry (item : JSValue) : M JSObject :=
  const ownId <~ getProperty item "id" ;;;
  const id <~
    (if truthy ownId then ret (default JNull ownId)
     else const fresh <~ crypto_randomUUID ;;; ret (JStr fresh)) ;;;
  const ownTimestamp <~ getProperty item "timestamp" ;;;
  const timestamp <~
    (if truthy ownTimestamp then ret (default JNull ownTimestamp)
     else const now <~ Date_now ;;; ret (JNum (inject_Z now))) ;;;
  ret (<["timestamp" := timestamp]> (<["id" := id]> (spread item))).

(** The part of the mount effect of [App] that loads the archive. *)
Definition loadVault : M unit :=
  fun st =>
    match localStorage st !! "tradeLogic_cases" with
    | None => (Ok tt, st)
    | Some savedVault =>
        if nonEmpty savedVault then
          tryCatch
            (const parsed <~ parse savedVault ;;;
             const sanitized <~ callMap parsed sanitizeEntry ;;;
             setVaultCases sanitized)
            (fun e => console_error "Failed to load vault")
            st
        else (Ok tt, st)
    end.

(** *** The states of the archive *)

(** The states [App] can be in.  It starts with an empty archive;
    [setVaultCases] is called in the mount effect, in [saveToVault], in
    [removeFromVault] and in [handleImportVault] and nowhere else, so
    every other step leaves the archive as it is. *)
Inductive Reachable : State -> Prop :=
| Reachable_start st :
    vaultCases st = [] -> Reachable st
| Reachable_loadVault st :
    Reachable st -> Reachable (snd (loadVault st))
| Reachable_saveToVault result st :
    Reachable st -> Reachable (snd (saveToVault result st))
| Reachable_removeFromVault id st :
    Reachable st -> Reachable (snd (removeFromVault id st))
| Reachable_handleImportVault file st :
    Reachable st -> Reachable (snd (handleImportVault file st))
| Reachable_other st st' :
    Reachable st -> vaultCases st' = vaultCases st -> Reachable st'.

(** *** The configuration: saving and loading *)

(** [handleSaveConfig]: the configuration [App] holds afterwards, as a
    value, and the state. *)
Definition handleSaveConfig (newConfig : AppConfig) (st : State) : JSValue * State :=
  (AppConfig_toJS newConfig,
   showAlert "Mandate updated successfully."
     (storeItem "tradeLogic_config" (JSON_stringify (AppConfig_toJS newConfig)) st)).

(** The part of the mount effect of [App] that loads the configuration:
    the configuration [App] holds afterwards, and the state. *)
Definition loadConfig (appConfig : JSValue) (st : State) : JSValue * State :=
  match localStorage st !! "tradeLogic_config" with
  | None => (appConfig, st)
  | Some savedConfig =>
      if nonEmpty savedConfig then
        match JSON_parse savedConfig with
        | Some parsed => (parsed, st)
        | None => (appConfig, logError "Failed to load config" st)
        end
      else (appConfig, st)
  end.

(** *** The submit handlers of [App] *)

Definition handleAnalysisSubmit (appConfig : AppConfig) (innerWidth : Z)
    (data : StockAnalysisInput) (view : AppView) (st : State) : AppView * State :=
  let closed := if (innerWidth <? 768)%Z then false else sidebarOpen view in
  let enrichedData := withRiskProfile (config_riskProfile appConfig) data in
  match analyzeStock enrichedData st with
  | (Ok result, st') =>
      ({| loading := false; analysis := Some result; error := None;
          sidebarOpen := closed; consistencyResult := consistencyResult view;
          checkingConsistency := checkingConsistency view |},
       st')
  | (Throw err, st') =>
      ({| loading := false; analysis := None; error := Some ANALYSIS_FAILED;
          sidebarOpen := closed; consistencyResult := consistencyResult view;
          checkingConsistency := checkingConsistency view |},
       logError (JSError_name err) st')
  end.

Definition handleRunConsistency (selected : list AnalysisResult) (view : AppView)
    (st : State) : AppView * State :=
  match runConsistencyCheck selected st with
  | (Ok result, st') =>
      ({| loading := loading view; analysis := analysis view; error := error view;
          sidebarOpen := sidebarOpen view; consistencyResult := Some result;
          checkingConsistency := false |},
       st')
  | (Throw err, st') =>
      ({| loading := loading view; analysis := analysis view; error := error view;
          sidebarOpen := sidebarOpen view;
          consistencyResult := consistencyResult view;
          checkingConsistency := false |},
       showAlert "Failed to run consistency check." (logError (JSError_name err) st'))
  end.

(** *** The save button of [AnalysisCard] *)

(** [if (onSave && !localSaved) { onSave(data); setLocalSaved(true); }]
    with [saveToVault] for [onSave]; the result is [localSaved] after the
    click. *)
Definition saveButton_onClick (data : JSObject) (localSaved : bool) : M bool :=
  if localSaved then ret localSaved
  else run saveToVault data ;;; ret true.

(** The button clicked [n] times in a row. *)
Fixpoint saveButton_clicks (n : nat) (data : JSObject) (localSaved : bool) : M bool :=
  match n with
  | O => ret localSaved
  | S n' =>
      const saved <~ saveButton_onClick data localSaved ;;;
      saveButton_clicks n' data saved
  end.

(** The stored copy of the archive is the serialised archive. *)
Definition Mirrored (st : State) : Prop :=
  localStorage st !! "tradeLogic_cases"
  = Some (JSON_stringify (JArr (map JObj (vaultCases st)))).

(** * Properties *)

(** ** Conditions on strings *)

Lemma nonEmpty_true (s : string) : nonEmpty s = true <-> s <> EmptyString.
Proof.
  unfold nonEmpty. destruct (String.eqb_spec s EmptyString) as [-> | Hne]; simpl.
  - split; [discriminate | congruence].
  - split; [intros _; exact Hne | reflexivity].
Qed.

Lemma nonEmpty_false (s : string) : nonEmpty s = false <-> s = EmptyString.
Proof.
  unfold nonEmpty. destruct (String.eqb_spec s EmptyString) as [-> | Hne]; simpl.
  - split; reflexivity.
  - split; [discriminate | congruence].
Qed.

Lemma append_assoc (a b c : string) : (a +:+ b) +:+ c = a +:+ b +:+ c.
Proof.
  induction a as [| x a IH]; simpl; [reflexivity | f_equal; exact IH].
Qed.

(** ** The input form: submission gating *)

Lemma isStepValid_1 (f : StockAnalysisInput) :
  isStepValid f 1 = true <->
  ticker f <> EmptyString /\ price f <> EmptyString /\ capital f <> EmptyString.
Proof.
  unfold isStepValid; simpl.
  rewrite !andb_true_iff, !nonEmpty_true. tauto.
Qed.

Lemma isStepValid_2 (f : StockAnalysisInput) :
  isStepValid f 2 = true <->
  roe (fundamentals f) <> EmptyString /\ der (fundamentals f) <> EmptyString
  /\ pbv (fundamentals f) <> EmptyString /\ per (fundamentals f) <> EmptyString
  /\ npm (fundamentals f) <> EmptyString /\ growth (fundamentals f) <> EmptyString
  /\ cfo (fundamentals f) <> EmptyString /\ fcf (fundamentals f) <> EmptyString.
Proof.
  unfold isStepValid, Fundamentals_values; simpl.
  rewrite !andb_true_iff.
  repeat match goal with
         | |- context [negb (String.eqb ?s EmptyString)] =>
             change (negb (String.eqb s EmptyString)) with (nonEmpty s)
         end.
  rewrite !nonEmpty_true. tauto.
Qed.

Lemma isStepValid_3 (f : StockAnalysisInput) :
  isStepValid f 3 = true <->
  topBrokers (bandarmology f) <> EmptyString
  /\ bandarAvgPrice (bandarmology f) <> EmptyString.
Proof.
  unfold isStepValid; simpl.
  rewrite !andb_true_iff, !nonEmpty_true. tauto.
Qed.

Lemma isStepValid_4 (f : StockAnalysisInput) :
  isStepValid f 4 = true <-> (50 < String.length (rawIntelligenceData f))%nat.
Proof.
  unfold isStepValid; simpl. apply Nat.ltb_lt.
Qed.

Lemma form_onSubmit_Some (f : StockAnalysisInput) :
  form_onSubmit f = Some f <-> SubmissionEligible f.
Proof.
  unfold form_onSubmit, SubmissionEligible, RequiredFieldsFilled. split.
  - destruct (isStepValid f 1) eqn:E1, (isStepValid f 2) eqn:E2,
      (isStepValid f 3) eqn:E3, (isStepValid f 4) eqn:E4;
      simpl; intros H; try discriminate.
    apply isStepValid_1 in E1. apply isStepValid_2 in E2.
    apply isStepValid_3 in E3. apply isStepValid_4 in E4. tauto.
  - intros ((Ht & Hp & Hc & Hf & Hb & Ha) & Hlen).
    assert (E1 : isStepValid f 1 = true) by (apply isStepValid_1; tauto).
    assert (E2 : isStepValid f 2 = true) by (apply isStepValid_2; exact Hf).
    assert (E3 : isStepValid f 3 = true) by (apply isStepValid_3; tauto).
    assert (E4 : isStepValid f 4 = true) by (apply isStepValid_4; exact Hlen).
    rewrite E1, E2, E3, E4. reflexivity.
Qed.

(** C8.  The form hands the request on exactly when it is
    submission-eligible: ticker, price and capital non-empty, the eight
    fundamentals non-empty, top-broker codes and average price non-empty,
    and more than 50 characters of raw intelligence.  With exactly 50
    characters the request is held back; with 51 and the other fields
    filled it is handed on. *)
Theorem form_onSubmit_eligibility :
  (forall f, form_onSubmit f = Some f <-> SubmissionEligible f)
  /\ (forall f, form_onSubmit f = None <-> ~ SubmissionEligible f)
  /\ (forall f,
        String.length (rawIntelligenceData f) = 50%nat -> form_onSubmit f = None)
  /\ (forall f,
        RequiredFieldsFilled f ->
        String.length (rawIntelligenceData f) = 51%nat ->
        form_onSubmit f = Some f).
Proof.
  split; [exact form_onSubmit_Some |].
  assert (Hnone : forall f, form_onSubmit f = None <-> ~ SubmissionEligible f).
  { intros f. rewrite <- form_onSubmit_Some. unfold form_onSubmit.
    destruct (_ && _); split; intros H; try discriminate; try reflexivity.
    exfalso; apply H; reflexivity. }
  split; [exact Hnone |]. split.
  - intros f Hlen. apply Hnone. unfold SubmissionEligible. rewrite Hlen. lia.
  - intros f Hfilled Hlen. apply form_onSubmit_Some.
    split; [exact Hfilled | rewrite Hlen; lia].
Qed.

(** ** The input form: the capital advisory *)

(** *** Whole amounts are Numbers *)

Lemma roundToNumber_ext (q q' : Q) :
  Qnum q = Qnum q' -> Qden q = Qden q' -> roundToNumber q = roundToNumber q'.
Proof. destruct q, q'; simpl; intros -> ->; reflexivity. Qed.

Lemma roundHalfEven_whole (n : Z) : roundHalfEven n 1 = n.
Proof.
  unfold roundHalfEven. rewrite Z.mod_1_r, Z.div_1_r. reflexivity.
Qed.

(** A whole number below 2^53 is a Number: rounding leaves it as it is,
    written over a power of two. *)
Lemma roundToNumber_whole (n : Z) :
  0 < n < 2 ^ 53 ->
  exists j, 0 <= j /\ roundToNumber (n # 1) = Finite (n * 2 ^ j # Z.to_pos (2 ^ j)).
Proof.
  intros [Hpos Hlt].
  pose proof (Z.log2_spec n Hpos) as [Hlow Hhigh].
  assert (HL : 0 <= Z.log2 n <= 52).
  { split; [apply Z.log2_nonneg |].
    destruct (Z.le_gt_cases (Z.log2 n) 52) as [H | H]; [exact H | exfalso].
    assert (2 ^ 53 <= 2 ^ Z.log2 n) by (apply Z.pow_le_mono_r; lia). lia. }
  unfold roundToNumber. cbn [Qnum Qden].
  rewrite (Z.abs_eq n) by lia.
  destruct (Z.eqb_spec n 0) as [E | _]; [lia |].
  assert (Hfloor : floorLog2 n 1 = Z.log2 n).
  { unfold floorLog2, scaleByPow2. change (Z.log2 1) with 0. rewrite Z.sub_0_r.
    destruct (Z.leb_spec 0 (Z.log2 n)) as [_ | H]; [| lia].
    destruct (Z.leb_spec (1 * 2 ^ Z.log2 n) n) as [_ | H]; [reflexivity | lia]. }
  change (Z.pos 1) with 1. rewrite Hfloor.
  rewrite (Z.max_l (Z.log2 n - 52) (-1074)) by lia.
  destruct (Z.ltb_spec n 0) as [H | _]; [lia |].
  unfold scaleByPow2.
  destruct (Z.leb_spec 0 (Z.log2 n - 52)) as [Hge | Hneg].
  - assert (E : Z.log2 n - 52 = 0) by lia. rewrite E.
    change (1 * 2 ^ 0) with 1. rewrite roundHalfEven_whole.
    destruct (Z.leb_spec 1024 (Z.log2 n + 0)) as [H | _]; [lia |].
    exists 0. split; [lia | reflexivity].
  - rewrite roundHalfEven_whole.
    assert (Hj : 0 <= - (Z.log2 n - 52)) by lia.
    rewrite Z.log2_mul_pow2 by lia.
    destruct (Z.leb_spec 1024 (- (Z.log2 n - 52) + Z.log2 n + (Z.log2 n - 52)))
      as [H | _]; [lia |].
    exists (- (Z.log2 n - 52)). split; [exact Hj | reflexivity].
Qed.

Lemma gt_roundToNumber_whole (n bound : Z) :
  0 <= n < 2 ^ 53 -> gt (roundToNumber (n # 1)) bound = (bound <? n).
Proof.
  intros [Hnn Hlt]. destruct (Z.eq_dec n 0) as [-> | Hne].
  - replace (roundToNumber (0 # 1)) with (Finite 0) by reflexivity.
    unfold gt, Qle_bool. cbn [Qnum Qden inject_Z].
    destruct (Z.leb_spec (0 * 1) (bound * 1)); destruct (Z.ltb_spec bound 0);
      try reflexivity; lia.
  - destruct (roundToNumber_whole n) as (j & Hj & ->); [lia |].
    unfold gt, Qle_bool. cbn [Qnum Qden inject_Z].
    assert (Hpow : 0 < 2 ^ j) by (apply Z.pow_pos_nonneg; lia).
    rewrite Z2Pos.id by exact Hpow.
    destruct (Z.leb_spec (n * 2 ^ j * 1) (bound * 2 ^ j));
      destruct (Z.ltb_spec bound n); try reflexivity; exfalso; nia.
Qed.

Lemma lt_roundToNumber_whole (n bound : Z) :
  0 <= n < 2 ^ 53 -> lt (roundToNumber (n # 1)) bound = (n <? bound).
Proof.
  intros [Hnn Hlt]. destruct (Z.eq_dec n 0) as [-> | Hne].
  - replace (roundToNumber (0 # 1)) with (Finite 0) by reflexivity.
    unfold lt, Qle_bool. cbn [Qnum Qden inject_Z].
    destruct (Z.leb_spec (bound * 1) (0 * 1)); destruct (Z.ltb_spec 0 bound);
      try reflexivity; lia.
  - destruct (roundToNumber_whole n) as (j & Hj & ->); [lia |].
    unfold lt, Qle_bool. cbn [Qnum Qden inject_Z].
    assert (Hpow : 0 < 2 ^ j) by (apply Z.pow_pos_nonneg; lia).
    rewrite Z2Pos.id by exact Hpow.
    destruct (Z.leb_spec (bound * 2 ^ j) (n * 2 ^ j * 1));
      destruct (Z.ltb_spec n bound); try reflexivity; exfalso; nia.
Qed.

(** *** Reading a numeric string *)

Lemma ascii_differ (f : ascii -> bool) (c d : ascii) :
  f c = true -> f d = false -> Ascii.eqb c d = false.
Proof.
  intros Hc Hd. destruct (Ascii.eqb_spec c d) as [-> | Hne]; [congruence | reflexivity].
Qed.

Lemma isDigit_not_whiteSpace (c : ascii) :
  isDigit c = true -> isWhiteSpace c = false.
Proof.
  unfold isDigit, isWhiteSpace. intros H.
  apply andb_true_iff in H as [H1 H2].
  apply Nat.leb_le in H1. apply Nat.leb_le in H2.
  apply orb_false_iff; split; [apply orb_false_iff; split |].
  - apply andb_false_iff. right. apply Nat.leb_gt. lia.
  - apply Nat.eqb_neq. lia.
  - apply Nat.eqb_neq. lia.
Qed.

Lemma isWhiteSpace_not_digit (c : ascii) :
  isWhiteSpace c = true -> isDigit c = false.
Proof.
  intros H. destruct (isDigit c) eqn:E; [| reflexivity].
  rewrite (isDigit_not_whiteSpace c E) in H. discriminate.
Qed.

Lemma skipWhiteSpace_app (space rest : string) :
  allWhiteSpace space = true ->
  skipWhiteSpace (space +:+ rest) = skipWhiteSpace rest.
Proof.
  induction space as [| c space IH]; simpl; [reflexivity |].
  intros H. apply andb_true_iff in H as [Hc Hs]. rewrite Hc. exact (IH Hs).
Qed.

Lemma readDigits_app (digits : string) :
  forall acc count rest,
    allDigits digits = true -> stopsDigits rest = true ->
    readDigits acc count (digits +:+ rest)
    = (decimalValueFrom acc digits, (count + String.length digits)%nat, rest).
Proof.
  induction digits as [| c digits IH]; intros acc count rest Hall Hstop.
  - simpl. rewrite Nat.add_0_r. destruct rest as [| d rest]; [reflexivity |].
    simpl in Hstop. apply negb_true_iff in Hstop. simpl. rewrite Hstop. reflexivity.
  - simpl in Hall. apply andb_true_iff in Hall as [Hc Hs].
    simpl. rewrite Hc. rewrite (IH _ _ rest Hs Hstop). cbn [String.length].
    replace (S count + String.length digits)%nat
      with (count + S (String.length digits))%nat by lia.
    reflexivity.
Qed.

Lemma stopsDigits_whiteSpace (space : string) :
  allWhiteSpace space = true -> stopsDigits space = true.
Proof.
  destruct space as [| c space]; [reflexivity |]. simpl. intros H.
  apply andb_true_iff in H as [Hc _].
  rewrite (isWhiteSpace_not_digit c Hc). reflexivity.
Qed.

(** The text that follows the digits of a numeral: white space read as
    no exponent, an exponent read as its value. *)
Lemma readExponent_whiteSpace (space : string) :
  allWhiteSpace space = true -> readExponent space = 0.
Proof.
  destruct space as [| c space]; [reflexivity |]. simpl. intros H.
  apply andb_true_iff in H as [Hc _].
  rewrite (ascii_differ isWhiteSpace c "e" Hc eq_refl).
  rewrite (ascii_differ isWhiteSpace c "E" Hc eq_refl). reflexivity.
Qed.

Lemma readSign_text (s : Sign) (rest : string) :
  (forall c r, rest = String c r -> Ascii.eqb c "-" = false /\ Ascii.eqb c "+" = false) ->
  readSign (Sign_text s +:+ rest)
  = (match s with Minus => true | _ => false end, rest).
Proof.
  intros Hrest. destruct s; simpl; try reflexivity.
  destruct rest as [| c r]; [reflexivity |].
  destruct (Hrest c r eq_refl) as [H1 H2]. simpl. rewrite H1, H2. reflexivity.
Qed.

Lemma digits_head (digits rest : string) :
  allDigits digits = true -> digits <> EmptyString ->
  exists c r, digits +:+ rest = String c r /\ isDigit c = true.
Proof.
  destruct digits as [| c digits]; [congruence |]. simpl. intros H _.
  apply andb_true_iff in H as [Hc _]. eauto.
Qed.

Lemma readExponent_text (e : option Exponent) (trailing : string) :
  match e with
  | Some x => allDigits (exp_digits x) && nonEmpty (exp_digits x)
  | None => true
  end = true ->
  allWhiteSpace trailing = true ->
  readExponent (match e with
                | Some x => Exponent_text x
                | None => EmptyString
                end +:+ trailing)
  = Exponent_value e.
Proof.
  intros He Ht. destruct e as [x |]; [| apply readExponent_whiteSpace, Ht].
  apply andb_true_iff in He as [Hd Hne]. apply nonEmpty_true in Hne.
  unfold Exponent_text, Exponent_value.
  assert (Hsign : readSign (Sign_text (exp_sign x) +:+ exp_digits x +:+ trailing)
                  = (match exp_sign x with Minus => true | _ => false end,
                     exp_digits x +:+ trailing)).
  { apply readSign_text. intros c r Hcr.
    destruct (digits_head (exp_digits x) trailing Hd Hne) as (c' & r' & E & Hc').
    rewrite E in Hcr. injection Hcr as <- <-.
    split; apply (ascii_differ isDigit); auto. }
  assert (Hread : readDigits 0 0 (exp_digits x +:+ trailing)
                  = (decimalValue (exp_digits x),
                     (0 + String.length (exp_digits x))%nat, trailing))
    by (apply readDigits_app; [exact Hd | apply stopsDigits_whiteSpace, Ht]).
  assert (Hlen : (0 + String.length (exp_digits x) =? 0)%nat = false).
  { apply Nat.eqb_neq. destruct (exp_digits x); [congruence | simpl; lia]. }
  rewrite !append_assoc.
  destruct (exp_upper x); simpl; rewrite Hsign, Hread, Hlen;
    destruct (exp_sign x); reflexivity.
Qed.

Lemma stopsDigits_exponent (e : option Exponent) (trailing : string) :
  allWhiteSpace trailing = true ->
  stopsDigits (match e with
               | Some x => Exponent_text x
               | None => EmptyString
               end +:+ trailing) = true.
Proof.
  intros Ht. destruct e as [x |]; [| apply stopsDigits_whiteSpace, Ht].
  unfold Exponent_text. destruct (exp_upper x); reflexivity.
Qed.

(** The fraction of a numeral and what follows it. *)
Lemma readFraction_text (fraction : option string) (rest : string) :
  allDigits (default EmptyString fraction) = true ->
  stopsDigits rest = true ->
  (forall c r, rest = String c r -> Ascii.eqb c "." = false) ->
  match match fraction with
        | Some digits => "." +:+ digits
        | None => EmptyString
        end +:+ rest with
  | String c r => if Ascii.eqb c "." then readDigits 0 0 r else (0, 0%nat, String c r)
  | EmptyString => (0, 0%nat, EmptyString)
  end
  = (decimalValue (default EmptyString fraction),
     String.length (default EmptyString fraction), rest).
Proof.
  intros Hd Hstop Hpoint. destruct fraction as [digits |]; simpl in *.
  - apply (readDigits_app digits 0 0%nat rest Hd Hstop).
  - destruct rest as [| c r]; [reflexivity |].
    rewrite (Hpoint c r eq_refl). reflexivity.
Qed.

Lemma exponent_not_point (e : option Exponent) (trailing : string) :
  allWhiteSpace trailing = true ->
  forall c r,
    match e with
    | Some x => Exponent_text x
    | None => EmptyString
    end +:+ trailing = String c r ->
    Ascii.eqb c "." = false.
Proof.
  intros Ht c r. destruct e as [x |].
  - unfold Exponent_text. destruct (exp_upper x); simpl; intros H;
      injection H as <- _; reflexivity.
  - simpl. intros ->. simpl in Ht. apply andb_true_iff in Ht as [Hc _].
    apply (ascii_differ isWhiteSpace); auto.
Qed.

(** [parseFloat] reads a numeric string to its end and gives the Number
    value of the amount it denotes. *)
Lemma parseFloat_numeral (n : Numeral) :
  wellFormed n = true ->
  parseFloat (Numeral_text n) = roundToNumber (Numeral_value n).
Proof.
  unfold wellFormed. intros H.
  apply andb_true_iff in H as [H Htrail]. apply andb_true_iff in H as [H Hexp].
  apply andb_true_iff in H as [H Hsome]. apply andb_true_iff in H as [H Hfrac].
  apply andb_true_iff in H as [Hlead Hwhole]. apply nonEmpty_true in Hsome.
  destruct n as [leading sign whole fraction exponent trailing].
  cbn [num_leading num_sign num_whole num_fraction num_exponent num_trailing] in *.
  unfold Numeral_text, Numeral_value.
  cbn [num_leading num_sign num_whole num_fraction num_exponent num_trailing].
  set (tailX := match exponent with
                | Some e => Exponent_text e
                | None => EmptyString
                end +:+ trailing) in *.
  set (tailF := match fraction with
                | Some digits => "." +:+ digits
                | None => EmptyString
                end +:+ tailX) in *.
  assert (HstopX : stopsDigits tailX = true)
    by (apply stopsDigits_exponent, Htrail).
  assert (HstopF : stopsDigits tailF = true).
  { unfold tailF. destruct fraction; [reflexivity | exact HstopX]. }
  (* the head of the digits *)
  assert (Hhead : exists c r,
             whole +:+ tailF = String c r
             /\ isWhiteSpace c = false /\ Ascii.eqb c "-" = false
             /\ Ascii.eqb c "+" = false /\ Ascii.eqb "I" c = false).
  { destruct whole as [| c whole'].
    - destruct fraction as [digits |]; [| simpl in Hsome; congruence].
      exists "."%char, (digits +:+ tailX). repeat split; reflexivity.
    - simpl in Hwhole. apply andb_true_iff in Hwhole as [Hc _].
      exists c, (whole' +:+ tailF). split; [reflexivity |].
      split; [apply isDigit_not_whiteSpace, Hc |].
      split; [apply (ascii_differ isDigit); auto |].
      split; [apply (ascii_differ isDigit); auto |].
      rewrite Ascii.eqb_sym. apply (ascii_differ isDigit); auto. }
  destruct Hhead as (c & r & Hbody & Hws & Hminus & Hplus & HI).
  assert (Hskip : skipWhiteSpace (leading +:+ Sign_text sign +:+ whole +:+ tailF)
                  = Sign_text sign +:+ whole +:+ tailF).
  { rewrite (skipWhiteSpace_app _ _ Hlead).
    destruct sign; simpl; try reflexivity.
    rewrite Hbody. simpl. rewrite Hws. reflexivity. }
  assert (Hsign : readSign (Sign_text sign +:+ whole +:+ tailF)
                  = (match sign with Minus => true | _ => false end, whole +:+ tailF)).
  { apply readSign_text. intros c' r' E. rewrite Hbody in E.
    injection E as <- <-. auto. }
  assert (Hinf : startsWith (whole +:+ tailF) "Infinity" = false).
  { rewrite Hbody. cbn [startsWith]. rewrite HI. reflexivity. }
  assert (Hint : readDigits 0 0 (whole +:+ tailF)
                 = (decimalValue whole, (0 + String.length whole)%nat, tailF))
    by (apply readDigits_app; assumption).
  assert (Hfraction :
    match tailF with
    | String c r => if Ascii.eqb c "." then readDigits 0 0 r else (0, 0%nat, String c r)
    | EmptyString => (0, 0%nat, EmptyString)
    end
    = (decimalValue (default EmptyString fraction),
       String.length (default EmptyString fraction), tailX)).
  { apply readFraction_text; [exact Hfrac | exact HstopX |].
    apply exponent_not_point, Htrail. }
  assert (Hcount : (0 + String.length whole
                    + String.length (default EmptyString fraction) =? 0)%nat = false).
  { apply Nat.eqb_neq. intros E. apply Hsome.
    destruct whole; [| simpl in E; lia].
    destruct (default EmptyString fraction); [reflexivity | simpl in E; lia]. }
  assert (Hexponent : readExponent tailX = Exponent_value exponent)
    by (apply readExponent_text; assumption).
  unfold parseFloat. rewrite Hskip, Hsign, Hinf, Hint.
  assert (Hmatch :
    match tailF with
    | String c r => if Ascii.eqb c "." then readDigits 0 0 r else (0, 0%nat, tailF)
    | EmptyString => (0, 0%nat, tailF)
    end
    = (decimalValue (default EmptyString fraction),
       String.length (default EmptyString fraction), tailX)).
  { rewrite <- Hfraction. destruct tailF; reflexivity. }
  rewrite Hmatch, Hcount, Hexponent.
  destruct sign; reflexivity.
Qed.

(** *** The rules *)

Lemma append_empty_r (s : string) : s +:+ EmptyString = s.
Proof. induction s as [| c s IH]; simpl; [reflexivity | f_equal; exact IH]. Qed.

Lemma append_nonEmpty_r (a b : string) : b <> EmptyString -> a +:+ b <> EmptyString.
Proof. destruct a; simpl; [auto | discriminate]. Qed.

Lemma append_nonEmpty_l (a b : string) : a <> EmptyString -> a +:+ b <> EmptyString.
Proof. destruct a; simpl; [congruence | discriminate]. Qed.

Lemma Numeral_text_nonEmpty (n : Numeral) :
  wellFormed n = true -> Numeral_text n <> EmptyString.
Proof.
  unfold wellFormed. intros H.
  apply andb_true_iff in H as [H _]. apply andb_true_iff in H as [H _].
  apply andb_true_iff in H as [_ Hsome]. apply nonEmpty_true in Hsome.
  unfold Numeral_text.
  apply append_nonEmpty_r, append_nonEmpty_r.
  destruct (num_whole n) as [| c whole]; [| discriminate].
  destruct (num_fraction n) as [digits |]; [discriminate | simpl in Hsome; congruence].
Qed.

Lemma decimalValueFrom_nonneg (digits : string) :
  forall acc, 0 <= acc -> allDigits digits = true -> 0 <= decimalValueFrom acc digits.
Proof.
  induction digits as [| c digits IH]; intros acc Hacc Hall; simpl; [exact Hacc |].
  simpl in Hall. apply andb_true_iff in Hall as [Hc Hs].
  apply IH; [| exact Hs].
  unfold isDigit in Hc. apply andb_true_iff in Hc as [H1 _]. apply Nat.leb_le in H1.
  unfold digitValue. lia.
Qed.

Lemma wholeAmount_wellFormed (digits : string) :
  digits <> EmptyString -> allDigits digits = true ->
  wellFormed (wholeAmount digits) = true.
Proof.
  intros Hne Hall. unfold wellFormed, wholeAmount.
  cbn [num_leading num_sign num_whole num_fraction num_exponent num_trailing
       default allWhiteSpace allDigits andb].
  rewrite Hall, append_empty_r. apply nonEmpty_true in Hne. rewrite Hne. reflexivity.
Qed.

Lemma wholeAmount_text (digits : string) : Numeral_text (wholeAmount digits) = digits.
Proof.
  unfold Numeral_text, wholeAmount. simpl. apply append_empty_r.
Qed.

Lemma wholeAmount_value (digits : string) :
  roundToNumber (Numeral_value (wholeAmount digits))
  = roundToNumber (decimalValue digits # 1).
Proof.
  apply roundToNumber_ext.
  - unfold Numeral_value, wholeAmount, decimalMV, Exponent_value.
    cbn [num_sign num_whole num_fraction num_exponent default String.length].
    change (decimalValue EmptyString) with 0.
    change (10 ^ Z.of_nat 0) with 1.
    cbn [Qnum Qden Qmult Qplus Qdiv Qinv Qpower inject_Z]. lia.
  - reflexivity.
Qed.

(** C7, as the code has it.  The capital advisory compares the Number
    [parseFloat] reads from the capital with the bounds.  On an empty
    capital there is no advisory.  On a numeric string (white space, a
    sign, digits with an optional fraction, an optional exponent) that
    Number is the binary64 number nearest to the amount written, and the
    rule of the tier decides on it: MICRO above 150,000,000 is critical,
    RETAIL above 600,000,000 is a warning, INSTITUTIONAL below
    1,000,000,000 is invalid, and there is no advisory in every other
    case.  For a whole amount below 2^53 written in digits the Number is
    the amount itself.  The advisory depends on the capital and the tier
    only. *)
Theorem capitalWarning_rules (formData : StockAnalysisInput) :
  (capital formData = EmptyString -> capitalWarning formData = None)
  /\ (forall n,
        wellFormed n = true -> capital formData = Numeral_text n ->
        parseFloat (capital formData) = roundToNumber (Numeral_value n)
        /\ capitalWarning formData
           = advisory (capitalTier formData) (roundToNumber (Numeral_value n)))
  /\ (forall digits,
        digits <> EmptyString -> allDigits digits = true ->
        decimalValue digits < 2 ^ 53 -> capital formData = digits ->
        capitalWarning formData
        = match capitalTier formData with
          | MICRO =>
              if (150000000 <? decimalValue digits)%Z
              then Some WARNING_MICRO else None
          | RETAIL =>
              if (600000000 <? decimalValue digits)%Z
              then Some WARNING_RETAIL else None
          | HIGH_NET => None
          | INSTITUTIONAL =>
              if (decimalValue digits <? 1000000000)%Z
              then Some WARNING_INSTITUTIONAL else None
          end)
  /\ startsWith WARNING_MICRO "CRITICAL" = true
  /\ startsWith WARNING_RETAIL "WARNING" = true
  /\ startsWith WARNING_INSTITUTIONAL "INVALID" = true
  /\ (forall other : StockAnalysisInput,
        capital other = capital formData ->
        capitalTier other = capitalTier formData ->
        capitalWarning other = capitalWarning formData).
Proof.
  assert (Hnumeral : forall n,
            wellFormed n = true -> capital formData = Numeral_text n ->
            capitalWarning formData
            = advisory (capitalTier formData) (roundToNumber (Numeral_value n))).
  { intros n Hwf Hcap. unfold capitalWarning. rewrite Hcap.
    rewrite (proj2 (nonEmpty_true _) (Numeral_text_nonEmpty n Hwf)).
    rewrite (parseFloat_numeral n Hwf). cbn [negb].
    unfold advisory.
    destruct (capitalTier formData); cbn [CapitalTier_eqb andb]; reflexivity. }
  split; [| split; [| split; [| repeat split]]].
  - intros Hempty. unfold capitalWarning. rewrite Hempty. reflexivity.
  - intros n Hwf Hcap. split; [| exact (Hnumeral n Hwf Hcap)].
    rewrite Hcap. apply parseFloat_numeral, Hwf.
  - intros digits Hne Hall Hbound Hcap.
    rewrite (Hnumeral (wholeAmount digits) (wholeAmount_wellFormed digits Hne Hall))
      by (rewrite wholeAmount_text; exact Hcap).
    rewrite wholeAmount_value. unfold advisory.
    pose proof (decimalValueFrom_nonneg digits 0 (Z.le_refl 0) Hall) as Hnn.
    fold (decimalValue digits) in Hnn.
    rewrite !gt_roundToNumber_whole, lt_roundToNumber_whole by (split; assumption).
    reflexivity.
  - intros other Hc Ht. unfold capitalWarning. rewrite Hc, Ht. reflexivity.
Qed.

(** ** The request text of [analyzeStock] *)

Lemma startsWith_spec (t s : string) :
  startsWith t s = true <-> exists rest, t = s +:+ rest.
Proof.
  revert t. induction s as [| c s IH]; intros t; simpl.
  - split; [intros _; exists t; reflexivity | reflexivity].
  - destruct t as [| d t].
    + split; [discriminate | intros [rest H]; discriminate].
    + destruct (Ascii.eqb_spec c d) as [-> | Hne].
      * rewrite IH. split; intros [rest H]; exists rest; congruence.
      * split; [discriminate | intros [rest H]; congruence].
Qed.

Lemma includes_startsWith (t s : string) :
  startsWith t s = true -> includes t s = true.
Proof. intros H. destruct t; simpl; rewrite H; reflexivity. Qed.

(** [includes] finds every occurrence: where it answers [false] there is
    none. *)
Lemma includes_complete (t s : string) : Substring s t -> includes t s = true.
Proof.
  intros (before & after & ->).
  induction before as [| c before IH]; simpl.
  - apply includes_startsWith, startsWith_spec. exists after. reflexivity.
  - apply orb_true_iff. right. exact IH.
Qed.

Lemma includes_sound (t s : string) : includes t s = true -> Substring s t.
Proof.
  induction t as [| c t IH]; simpl; intros H; apply orb_true_iff in H as [H | H].
  - apply startsWith_spec in H as [rest ->]. exists EmptyString, rest. reflexivity.
  - discriminate.
  - apply startsWith_spec in H as [rest ->]. exists EmptyString, rest. reflexivity.
  - destruct (IH H) as (before & after & ->).
    exists (String c before), after. reflexivity.
Qed.

Lemma Substring_template (parts : list string) (x : string) :
  In x parts -> Substring x (template parts).
Proof.
  induction parts as [| p parts IH]; simpl; [tauto |].
  intros [-> | Hin].
  - exists EmptyString, (template parts). reflexivity.
  - destruct (IH Hin) as (before & after & Heq).
    exists (p +:+ before), after.
    change (template (p :: parts)) with (p +:+ template parts).
    rewrite Heq, append_assoc. reflexivity.
Qed.

(** The fields the template substitutes occur in the request text as they
    are: ticker, price, capital, tier, risk profile, six of the eight
    fundamentals, the order book, the trade book, the broker score, the
    top brokers, the average price and the raw intelligence text. *)
Lemma prompt_contains_interpolated (input : StockAnalysisInput) :
  Forall (fun value => Substring value (prompt input)) (interpolatedFieldValues input).
Proof.
  unfold interpolatedFieldValues, prompt.
  repeat constructor; apply Substring_template; unfold promptParts; simpl; tauto.
Qed.

(** C3, at a complete input.  The request text composed for [auditInput],
    a form with every field filled that the form hands on, contains
    neither its net profit margin, nor its growth, nor its duration: the
    template of [analyzeStock] substitutes none of the three. *)
Theorem prompt_omits_npm_growth_duration :
  form_onSubmit auditInput = Some auditInput
  /\ In (npm (fundamentals auditInput)) (inputFieldValues auditInput)
  /\ In (growth (fundamentals auditInput)) (inputFieldValues auditInput)
  /\ In (duration (bandarmology auditInput)) (inputFieldValues auditInput)
  /\ ~ Substring (npm (fundamentals auditInput)) (prompt auditInput)
  /\ ~ Substring (growth (fundamentals auditInput)) (prompt auditInput)
  /\ ~ Substring (duration (bandarmology auditInput)) (prompt auditInput).
Proof.
  split; [reflexivity |].
  split; [simpl; tauto |]. split; [simpl; tauto |]. split; [simpl; tauto |].
  repeat split; intros H; apply includes_complete in H;
    vm_compute in H; discriminate H.
Qed.

(** ** Sorting by timestamp *)

Lemma insertBy_Permutation {A} (compareFn : A -> A -> JSNumber) (x : A) (l : list A) :
  Permutation (x :: l) (insertBy compareFn x l).
Proof.
  induction l as [| y l IH]; simpl.
  - apply Permutation_refl.
  - destruct (notAfter (compareFn x y)).
    + apply Permutation_refl.
    + eapply perm_trans; [apply perm_swap |]. apply perm_skip. exact IH.
Qed.

Lemma Array_sort_Permutation {A} (compareFn : A -> A -> JSNumber) (l : list A) :
  Permutation l (Array_sort compareFn l).
Proof.
  induction l as [| x l IH]; simpl.
  - apply Permutation_refl.
  - eapply perm_trans; [apply perm_skip; exact IH |]. apply insertBy_Permutation.
Qed.

(** On two entries that have timestamps the comparator orders by
    timestamp; it puts one entry after another only then, and only when
    its timestamp is the greater. *)
Lemma notAfter_compareTimestamp (a b : AnalysisResult) (x y : Z) :
  ar_timestamp a = Some x -> ar_timestamp b = Some y ->
  notAfter (compareTimestamp a b) = (x <=? y).
Proof.
  intros Ha Hb. unfold compareTimestamp, timestampNumber. rewrite Ha, Hb.
  cbn [subtract notAfter]. unfold Qle_bool, Qminus, Qplus, Qopp, inject_Z.
  cbn [Qnum Qden].
  destruct (Z.leb_spec ((x * 1 + - y * 1) * 1) (0 * Z.pos (1 * 1)));
    destruct (Z.leb_spec x y); try reflexivity; lia.
Qed.

Lemma notAfter_compareTimestamp_false (a b : AnalysisResult) :
  notAfter (compareTimestamp a b) = false ->
  exists x y, ar_timestamp a = Some x /\ ar_timestamp b = Some y /\ y < x.
Proof.
  destruct (ar_timestamp a) as [x |] eqn:Ha, (ar_timestamp b) as [y |] eqn:Hb.
  - rewrite (notAfter_compareTimestamp a b x y Ha Hb). intros H.
    apply Z.leb_gt in H. exists x, y. auto.
  - unfold compareTimestamp, timestampNumber. rewrite Ha, Hb. discriminate.
  - unfold compareTimestamp, timestampNumber. rewrite Ha, Hb. discriminate.
  - unfold compareTimestamp, timestampNumber. rewrite Ha, Hb. discriminate.
Qed.

Lemma insertBy_timestamp_sorted (x : AnalysisResult) (l : list AnalysisResult) :
  dated x -> Forall dated l ->
  StronglySorted byTimestamp l ->
  StronglySorted byTimestamp (insertBy compareTimestamp x l).
Proof.
  intros Hx Hl Hsorted. unfold dated in Hx.
  destruct (ar_timestamp x) as [tx |] eqn:Ex; [clear Hx | congruence].
  induction Hsorted as [| y l Hsorted IH Hall]; simpl.
  - constructor; [constructor | constructor].
  - apply Forall_cons_iff in Hl as [Hy Hl]. unfold dated in Hy.
    destruct (ar_timestamp y) as [ty |] eqn:Ey; [clear Hy | congruence].
    rewrite (notAfter_compareTimestamp x y tx ty Ex Ey).
    destruct (Z.leb_spec tx ty) as [Hle | Hgt].
    + constructor; [constructor; assumption |].
      constructor; [unfold byTimestamp; rewrite Ex, Ey; exact Hle |].
      eapply Forall_impl; [exact Hall |].
      intros z Hz. unfold byTimestamp in *. rewrite Ex. rewrite Ey in Hz.
      destruct (ar_timestamp z); [lia | exact Hz].
    + constructor; [exact (IH Hl) |].
      eapply Permutation_Forall; [apply insertBy_Permutation |].
      constructor; [unfold byTimestamp; rewrite Ex, Ey; lia | exact Hall].
Qed.

Lemma sortByTimestamp_sorted (history : list AnalysisResult) :
  Forall dated history -> StronglySorted byTimestamp (sortByTimestamp history).
Proof.
  unfold sortByTimestamp.
  induction history as [| x l IH]; simpl; intros Hall.
  - constructor.
  - apply Forall_cons_iff in Hall as [Hx Hl].
    apply insertBy_timestamp_sorted; [exact Hx | | exact (IH Hl)].
    eapply Permutation_Forall; [apply Array_sort_Permutation | exact Hl].
Qed.

(** Inserting leaves the entries of any one timestamp in their order, the
    inserted entry ahead of those already there. *)
Lemma insertBy_timestamp_filter (t : Z) (x : AnalysisResult) (l : list AnalysisResult) :
  List.filter (hasTimestamp t) (insertBy compareTimestamp x l)
  = List.filter (hasTimestamp t) (x :: l).
Proof.
  induction l as [| y l IH]; [reflexivity |].
  cbn [insertBy].
  destruct (notAfter (compareTimestamp x y)) eqn:E; [reflexivity |].
  destruct (notAfter_compareTimestamp_false x y E) as (tx & ty & Ex & Ey & Hgt).
  cbn [List.filter] in *. rewrite IH. unfold hasTimestamp. rewrite Ex, Ey.
  destruct (Z.eqb_spec tx t) as [Hx | Hx];
    destruct (Z.eqb_spec ty t) as [Hy | Hy];
    try reflexivity.
  exfalso. lia.
Qed.

Lemma sortByTimestamp_stable (t : Z) (history : list AnalysisResult) :
  List.filter (hasTimestamp t) (sortByTimestamp history)
  = List.filter (hasTimestamp t) history.
Proof.
  unfold sortByTimestamp.
  induction history as [| x l IH]; [reflexivity |].
  change (Array_sort compareTimestamp (x :: l))
    with (insertBy compareTimestamp x (Array_sort compareTimestamp l)).
  rewrite insertBy_timestamp_filter.
  cbn [List.filter]. rewrite IH. reflexivity.
Qed.

Lemma sortByTimestamp_nonempty (history : list AnalysisResult) :
  history <> [] -> exists first rest, sortByTimestamp history = first :: rest.
Proof.
  intros Hne. destruct (sortByTimestamp history) as [| first rest] eqn:E.
  - exfalso. apply Hne. apply Permutation_nil.
    rewrite <- E. apply Permutation_sym, Array_sort_Permutation.
  - exists first, rest. reflexivity.
Qed.

(** ** [runConsistencyCheck] *)

Lemma runConsistencyCheck_empty (st : State) :
  runConsistencyCheck [] st = (Throw TypeError, st).
Proof. reflexivity. Qed.

(** On a history that is not empty the function sends one request, built
    from the sorted history, and returns what the answer parses to. *)
Lemma runConsistencyCheck_run (history : list AnalysisResult) (st : State)
    (first : AnalysisResult) (rest : list AnalysisResult) :
  sortByTimestamp history = first :: rest ->
  runConsistencyCheck history st
  = (match generateContent_at (length (requests st))
             (consistencyRequest (sortByTimestamp history) first) with
     | Rejected => Throw RejectedCall
     | ResponseText text =>
         match JSON_parse text with
         | Some v => Ok v
         | None => Throw SyntaxError
         end
     end,
     recordRequest (consistencyRequest (sortByTimestamp history) first) st).
Proof.
  intros E. unfold runConsistencyCheck, bind. rewrite E.
  unfold ret, generateContent.
  destruct (generateContent_at _ _) as [| text]; [reflexivity |].
  unfold parse. destruct (JSON_parse text); reflexivity.
Qed.

(** On a history whose every entry has a timestamp,
    [runConsistencyCheck] sends one request whose text serialises the
    history sorted by timestamp: a rearrangement of the input, in
    ascending order of timestamps, in which the entries of equal timestamp
    keep the order they had.  Entries with timestamps 300, 100, 200 are
    serialised in the order 100, 200, 300. *)
Theorem runConsistencyCheck_sends_sorted (history : list AnalysisResult) (st : State) :
  history <> [] -> Forall dated history ->
  exists first,
    hd_error (sortByTimestamp history) = Some first
    /\ requests (snd (runConsistencyCheck history st))
       = requests st ++ [consistencyRequest (sortByTimestamp history) first]
    /\ contents (consistencyRequest (sortByTimestamp history) first)
       = template
           [ "Analisa tren konsistensi untuk "; ar_ticker first; ". Data: ";
             JSON_stringify (JArr (map AnalysisResult_toJS (sortByTimestamp history)));
             ". Gunakan bahasa profesional dan berikan outlook trend jangka panjang." ]
    /\ Permutation history (sortByTimestamp history)
    /\ StronglySorted byTimestamp (sortByTimestamp history)
    /\ (forall t,
          List.filter (hasTimestamp t) (sortByTimestamp history)
          = List.filter (hasTimestamp t) history)
    /\ (forall a b c,
          ar_timestamp a = Some 300 -> ar_timestamp b = Some 100 ->
          ar_timestamp c = Some 200 ->
          sortByTimestamp [a; b; c] = [b; c; a]).
Proof.
  intros Hne Hdated.
  destruct (sortByTimestamp_nonempty history Hne) as (first & rest & E).
  exists first. split; [rewrite E; reflexivity |].
  split; [rewrite (runConsistencyCheck_run history st first rest E); reflexivity |].
  split; [reflexivity |].
  split; [apply Array_sort_Permutation |].
  split; [apply sortByTimestamp_sorted, Hdated |].
  split; [intros t; apply sortByTimestamp_stable |].
  intros a b c Ha Hb Hc.
  unfold sortByTimestamp, Array_sort. cbn [foldr insertBy].
  rewrite (notAfter_compareTimestamp b c 100 200 Hb Hc).
  change (100 <=? 200) with true. cbn [insertBy].
  rewrite (notAfter_compareTimestamp a b 300 100 Ha Hb).
  change (300 <=? 100) with false. cbn [insertBy].
  rewrite (notAfter_compareTimestamp a c 300 200 Ha Hc). reflexivity.
Qed.

(** C1, as the code has it.  [runConsistencyCheck] checks neither the
    number of entries nor their tickers.  On an empty history it throws a
    [TypeError] and sends nothing.  On every other history, a single entry
    or entries of several tickers included, it sends exactly one request,
    which names the ticker of the first entry of the sorted history. *)
Theorem runConsistencyCheck_dispatch (history : list AnalysisResult) (st : State) :
  (history = [] -> runConsistencyCheck history st = (Throw TypeError, st))
  /\ (history <> [] ->
      exists first,
        In first history
        /\ hd_error (sortByTimestamp history) = Some first
        /\ snd (runConsistencyCheck history st)
           = recordRequest (consistencyRequest (sortByTimestamp history) first) st
        /\ requests (snd (runConsistencyCheck history st))
           = requests st ++ [consistencyRequest (sortByTimestamp history) first]
        /\ Substring (ar_ticker first)
             (contents (consistencyRequest (sortByTimestamp history) first))).
Proof.
  split.
  - intros ->. apply runConsistencyCheck_empty.
  - intros Hne.
    destruct (sortByTimestamp_nonempty history Hne) as (first & rest & E).
    exists first. split.
    { apply (Permutation_in first
                (Permutation_sym (Array_sort_Permutation compareTimestamp history))).
      change (In first (sortByTimestamp history)). rewrite E. left. reflexivity. }
    split; [rewrite E; reflexivity |].
    rewrite (runConsistencyCheck_run history st first rest E).
    split; [reflexivity |]. split; [reflexivity |].
    apply Substring_template. simpl. tauto.
Qed.

(** ** [analyzeStock] *)

(** The three ways a call of [analyzeStock] ends: the hosted model rejects
    the request, its answer does not parse, or its answer parses and the
    parsed value is stamped and returned. *)
Lemma analyzeStock_run (input : StockAnalysisInput) (st : State) :
  analyzeStock input st
  = match generateContent_at (length (requests st)) (analysisRequest input) with
    | Rejected =>
        (Throw RejectedCall,
         logError "Gemini Error:" (recordRequest (analysisRequest input) st))
    | ResponseText text =>
        match JSON_parse text with
        | None =>
            (Throw SyntaxError,
             logError "Gemini Error:" (recordRequest (analysisRequest input) st))
        | Some data =>
            (Ok (stampResult data (randomUUID_at (uuidsDrawn st)) (clock st)),
             drawUuid (recordRequest (analysisRequest input) st))
        end
    end.
Proof.
  unfold analyzeStock, tryCatch, bind, generateContent.
  destruct (generateContent_at _ _) as [| text]; [reflexivity |].
  unfold parse. destruct (JSON_parse text) as [data |]; reflexivity.
Qed.

Lemma stampResult_id (data : JSValue) (id : string) (timestamp : Z) :
  stampResult data id timestamp !! "id" = Some (JStr id).
Proof.
  unfold stampResult.
  rewrite lookup_insert_ne by discriminate.
  rewrite lookup_insert_ne by discriminate.
  apply lookup_insert_eq.
Qed.

Lemma stampResult_timestamp (data : JSValue) (id : string) (timestamp : Z) :
  stampResult data id timestamp !! "timestamp" = Some (JNum (inject_Z timestamp)).
Proof.
  unfold stampResult.
  rewrite lookup_insert_ne by discriminate.
  apply lookup_insert_eq.
Qed.

Lemma stampResult_sources (data : JSValue) (id : string) (timestamp : Z) :
  stampResult data id timestamp !! "sources" = Some (JArr []).
Proof. unfold stampResult. apply lookup_insert_eq. Qed.

Lemma stampResult_other (data : JSValue) (id : string) (timestamp : Z) (key : string) :
  key <> "id" -> key <> "timestamp" -> key <> "sources" ->
  stampResult data id timestamp !! key = spread data !! key.
Proof.
  intros H1 H2 H3. unfold stampResult.
  rewrite !lookup_insert_ne by congruence. reflexivity.
Qed.

(** The decoding settings are the same in every request the two calls
    send, whatever the input, the state and the answers of the hosted
    model: the one request [analyzeStock] sends has temperature 0, the
    single most probable token, a nucleus of 0.1 and the seed 42069; the
    one request [runConsistencyCheck] sends on a history that is not empty
    has temperature 0 and the same seed, and sets neither of the other
    two; on the empty history it sends none. *)
Theorem decoding_settings_fixed (input : StockAnalysisInput)
    (history : list AnalysisResult) (st : State) :
  (exists sent,
     requests (snd (analyzeStock input st)) = requests st ++ [sent]
     /\ temperature (config sent) = 0%Q
     /\ topK (config sent) = Some 1
     /\ topP (config sent) = Some (1 # 10)%Q
     /\ seed (config sent) = 42069)
  /\ (history <> [] ->
      exists sent,
        requests (snd (runConsistencyCheck history st)) = requests st ++ [sent]
        /\ temperature (config sent) = 0%Q
        /\ topK (config sent) = None
        /\ topP (config sent) = None
        /\ seed (config sent) = 42069)
  /\ (history = [] ->
      requests (snd (runConsistencyCheck history st)) = requests st).
Proof.
  split; [| split].
  - exists (analysisRequest input). split; [| repeat split; reflexivity].
    rewrite analyzeStock_run.
    destruct (generateContent_at _ _) as [| text]; [reflexivity |].
    destruct (JSON_parse text); reflexivity.
  - intros Hne.
    destruct (sortByTimestamp_nonempty history Hne) as (first & rest & E).
    exists (consistencyRequest (sortByTimestamp history) first).
    split; [| repeat split; reflexivity].
    rewrite (runConsistencyCheck_run history st first rest E). reflexivity.
  - intros ->. rewrite runConsistencyCheck_empty. reflexivity.
Qed.

(** C4, as the code has it.  [analyzeStock] does not validate the parsed
    answer.  It sends one request, which carries the result schema, and it
    fails only when the hosted model rejects the request or when the answer
    does not parse; whatever the answer parses to, conforming to the schema
    or not, is stamped and returned. *)
Theorem analyzeStock_returns_any_payload (input : StockAnalysisInput) (st : State) :
  requests (snd (analyzeStock input st)) = requests st ++ [analysisRequest input]
  /\ responseSchema_ (config (analysisRequest input)) = responseSchema
  /\ (generateContent_at (length (requests st)) (analysisRequest input) = Rejected ->
      fst (analyzeStock input st) = Throw RejectedCall)
  /\ (forall text,
        generateContent_at (length (requests st)) (analysisRequest input)
        = ResponseText text ->
        JSON_parse text = None ->
        fst (analyzeStock input st) = Throw SyntaxError)
  /\ (forall text data,
        generateContent_at (length (requests st)) (analysisRequest input)
        = ResponseText text ->
        JSON_parse text = Some data ->
        fst (analyzeStock input st)
        = Ok (stampResult data (randomUUID_at (uuidsDrawn st)) (clock st))).
Proof.
  rewrite analyzeStock_run.
  split.
  { destruct (generateContent_at _ _) as [| text]; [reflexivity |].
    destruct (JSON_parse text); reflexivity. }
  split; [reflexivity |]. split; [| split].
  - intros ->. reflexivity.
  - intros text -> ->. reflexivity.
  - intros text data -> ->. reflexivity.
Qed.

(** C5.  Whenever [analyzeStock] returns a result, its [id] is the
    identifier drawn from [crypto.randomUUID] and its [timestamp] the
    reading of [Date.now], whatever [id] or [timestamp] the answer of the
    hosted model carried; its [sources] is the empty array; every other
    property is the one of the answer. *)
Theorem analyzeStock_stamps_identity (input : StockAnalysisInput) (st st' : State)
    (result : JSObject) :
  analyzeStock input st = (Ok result, st') ->
  exists text data,
    generateContent_at (length (requests st)) (analysisRequest input)
    = ResponseText text
    /\ JSON_parse text = Some data
    /\ result !! "id" = Some (JStr (randomUUID_at (uuidsDrawn st)))
    /\ result !! "timestamp" = Some (JNum (inject_Z (clock st)))
    /\ result !! "sources" = Some (JArr [])
    /\ (forall key,
          key <> "id" -> key <> "timestamp" -> key <> "sources" ->
          result !! key = spread data !! key)
    /\ uuidsDrawn st' = S (uuidsDrawn st).
Proof.
  rewrite analyzeStock_run.
  destruct (generateContent_at _ _) as [| text]; [discriminate |].
  destruct (JSON_parse text) as [data |] eqn:Hparse; [| discriminate].
  intros H. injection H as <- <-.
  exists text, data.
  split; [reflexivity |]. split; [exact Hparse |].
  split; [apply stampResult_id |].
  split; [apply stampResult_timestamp |].
  split; [apply stampResult_sources |].
  split; [intros key; apply stampResult_other | reflexivity].
Qed.

(** ** The case archive *)

Lemma onlyUuidsDrawn_refl (st : State) : onlyUuidsDrawn st st.
Proof. unfold onlyUuidsDrawn. repeat split; lia. Qed.

Lemma onlyUuidsDrawn_trans (st1 st2 st3 : State) :
  onlyUuidsDrawn st1 st2 -> onlyUuidsDrawn st2 st3 -> onlyUuidsDrawn st1 st3.
Proof.
  unfold onlyUuidsDrawn.
  intros (A1 & A2 & A3 & A4 & A5 & A6 & A7) (B1 & B2 & B3 & B4 & B5 & B6 & B7).
  repeat split; try congruence; lia.
Qed.

Lemma stampedFrom_mono (P Q : string -> Prop) (c : JSValue) (entry : JSObject) :
  (forall u, P u -> Q u) -> stampedFrom P c entry -> stampedFrom Q c entry.
Proof.
  intros HPQ (id & Heq & Hkeep & Hfresh). exists id.
  split; [exact Heq |]. split; [exact Hkeep |].
  intros Hf. destruct (Hfresh Hf) as (u & Hu & ->). exists u. auto.
Qed.

Lemma JSValue_null_dec (v : JSValue) : {v = JNull} + {v <> JNull}.
Proof. destruct v; (left; reflexivity) || (right; discriminate). Qed.

Lemma stampEntry_null (st : State) : stampEntry JNull st = (Throw TypeError, st).
Proof. reflexivity. Qed.

Lemma stampEntry_ok (c : JSValue) (st : State) :
  c <> JNull ->
  exists entry st',
    stampEntry c st = (Ok entry, st')
    /\ onlyUuidsDrawn st st'
    /\ stampedFrom (drawnBetween st st') c entry.
Proof.
  intros Hc. unfold stampEntry, bind.
  assert (Hget : getProperty c "id" st = (Ok (spread c !! "id"), st))
    by (destruct c; try reflexivity; congruence).
  rewrite Hget.
  destruct (truthy (spread c !! "id")) eqn:Htruthy.
  - exists (<["id" := default JNull (spread c !! "id")]> (spread c)), st.
    split; [reflexivity |]. split; [apply onlyUuidsDrawn_refl |].
    exists (default JNull (spread c !! "id")). split; [reflexivity |].
    split; [| congruence].
    intros _. destruct (spread c !! "id"); [reflexivity | discriminate].
  - exists (<["id" := JStr (randomUUID_at (uuidsDrawn st))]> (spread c)), (drawUuid st).
    split; [reflexivity |].
    split; [unfold onlyUuidsDrawn; simpl; repeat split; lia |].
    exists (JStr (randomUUID_at (uuidsDrawn st))). split; [reflexivity |].
    split; [congruence |].
    intros _. exists (randomUUID_at (uuidsDrawn st)). split; [| reflexivity].
    exists (uuidsDrawn st). simpl. split; [lia | reflexivity].
Qed.

(** Mapping [stampEntry] over elements none of which is [null] stamps
    every element, in order. *)
Lemma Array_map_stampEntry_ok (items : list JSValue) :
  forall st,
    ~ In JNull items ->
    exists stamped st',
      Array_map stampEntry items st = (Ok stamped, st')
      /\ onlyUuidsDrawn st st'
      /\ Forall2 (stampedFrom (drawnBetween st st')) items stamped.
Proof.
  induction items as [| c items IH]; intros st Hnull.
  - exists [], st. split; [reflexivity |].
    split; [apply onlyUuidsDrawn_refl | constructor].
  - assert (Hc : c <> JNull) by (intros ->; apply Hnull; left; reflexivity).
    assert (Hrest : ~ In JNull items) by (intros H; apply Hnull; right; exact H).
    destruct (stampEntry_ok c st Hc) as (entry & st1 & E1 & F1 & S1).
    destruct (IH st1 Hrest) as (stamped & st2 & E2 & F2 & S2).
    exists (entry :: stamped), st2.
    split; [cbn [Array_map]; unfold bind; rewrite E1, E2; reflexivity |].
    split; [eapply onlyUuidsDrawn_trans; eassumption |].
    pose proof F1 as (_ & _ & _ & _ & _ & _ & Hle1).
    pose proof F2 as (_ & _ & _ & _ & _ & _ & Hle2).
    constructor.
    + eapply stampedFrom_mono; [| exact S1].
      intros u (n & Hn & ->). exists n. split; [lia | reflexivity].
    + eapply Forall2_impl; [exact S2 |].
      intros c' entry' Hs. eapply stampedFrom_mono; [| exact Hs].
      intros u (n & Hn & ->). exists n. split; [lia | reflexivity].
Qed.

(** A [null] among the elements makes the mapping throw. *)
Lemma Array_map_stampEntry_null (items : list JSValue) :
  forall st,
    In JNull items ->
    exists st',
      Array_map stampEntry items st = (Throw TypeError, st')
      /\ onlyUuidsDrawn st st'.
Proof.
  induction items as [| c items IH]; intros st Hin; [destruct Hin |].
  destruct (JSValue_null_dec c) as [-> | Hc].
  - exists st. split; [reflexivity | apply onlyUuidsDrawn_refl].
  - destruct Hin as [Heq | Hin]; [congruence |].
    destruct (stampEntry_ok c st Hc) as (entry & st1 & E1 & F1 & _).
    destruct (IH st1 Hin) as (st2 & E2 & F2).
    exists st2.
    split; [cbn [Array_map]; unfold bind; rewrite E1, E2; reflexivity |].
    eapply onlyUuidsDrawn_trans; eassumption.
Qed.

(** *** [handleImportVault] *)

Lemma handleImportVault_no_file (st : State) :
  handleImportVault None st = (Ok tt, st).
Proof. reflexivity. Qed.

Lemma handleImportVault_unparsed (text : string) (st : State) :
  JSON_parse text = None ->
  handleImportVault (Some text) st
  = (Ok tt, showAlert "Invalid JSON file." (logError "Import failed" st)).
Proof.
  intros H. unfold handleImportVault, tryCatch, bind, parse. rewrite H. reflexivity.
Qed.

Lemma handleImportVault_not_array (text : string) (json : JSValue) (st : State) :
  JSON_parse text = Some json -> isArray json = false ->
  handleImportVault (Some text) st = (Ok tt, st).
Proof.
  intros H Harr. unfold handleImportVault, tryCatch, bind, parse. rewrite H.
  destruct json; try reflexivity; discriminate.
Qed.

Lemma handleImportVault_null (text : string) (items : list JSValue) (st : State) :
  JSON_parse text = Some (JArr items) -> In JNull items ->
  exists st1,
    onlyUuidsDrawn st st1
    /\ handleImportVault (Some text) st
       = (Ok tt, showAlert "Invalid JSON file." (logError "Import failed" st1)).
Proof.
  intros H Hnull.
  destruct (Array_map_stampEntry_null items st Hnull) as (st1 & E & F).
  exists st1. split; [exact F |].
  unfold handleImportVault, tryCatch, bind, parse, getVaultCases. rewrite H.
  cbn [ret]. rewrite E. reflexivity.
Qed.

Lemma handleImportVault_merged (text : string) (items : list JSValue) (st : State) :
  JSON_parse text = Some (JArr items) -> ~ In JNull items ->
  exists stamped st1,
    onlyUuidsDrawn st st1
    /\ Forall2 (stampedFrom (drawnBetween st st1)) items stamped
    /\ handleImportVault (Some text) st
       = (Ok tt,
          showAlert (importedMessage (length items))
            (storeItem "tradeLogic_cases"
               (JSON_stringify (JArr (map JObj (vaultCases st ++ stamped))))
               (withVaultCases (vaultCases st ++ stamped) st1))).
Proof.
  intros H Hnull.
  destruct (Array_map_stampEntry_ok items st Hnull) as (stamped & st1 & E & F & S).
  exists stamped, st1. split; [exact F |]. split; [exact S |].
  unfold handleImportVault, tryCatch, bind, parse, getVaultCases. rewrite H.
  cbn [ret]. rewrite E. reflexivity.
Qed.

(** A file whose text parses to something that is no array changes
    nothing and shows nothing. *)
Lemma handleImportVault_not_array_silent (text : string) (json : JSValue) (st : State) :
  JSON_parse text = Some json -> isArray json = false ->
  snd (handleImportVault (Some text) st) = st.
Proof.
  intros H Harr. rewrite (handleImportVault_not_array text json st H Harr). reflexivity.
Qed.

(** C2, as the code has it.  An import leaves the archive and its stored
    copy as they were when the text does not parse, when it parses to
    something that is no array, and when the array holds a [null]; in the
    first and the last case the alert [Invalid JSON file.] is shown.  In
    every other case, elements that are not result-shaped included, every
    element of the array is stamped and appended after the archive's
    entries.  So either nothing is merged or everything is. *)
Theorem handleImportVault_all_or_nothing (text : string) (st : State) :
  (JSON_parse text = None ->
   vaultCases (snd (handleImportVault (Some text) st)) = vaultCases st
   /\ localStorage (snd (handleImportVault (Some text) st)) = localStorage st
   /\ alerts (snd (handleImportVault (Some text) st))
      = alerts st ++ ["Invalid JSON file."])
  /\ (forall json,
        JSON_parse text = Some json -> isArray json = false ->
        vaultCases (snd (handleImportVault (Some text) st)) = vaultCases st
        /\ localStorage (snd (handleImportVault (Some text) st)) = localStorage st)
  /\ (forall items,
        JSON_parse text = Some (JArr items) -> In JNull items ->
        vaultCases (snd (handleImportVault (Some text) st)) = vaultCases st
        /\ localStorage (snd (handleImportVault (Some text) st)) = localStorage st
        /\ alerts (snd (handleImportVault (Some text) st))
           = alerts st ++ ["Invalid JSON file."])
  /\ (forall items,
        JSON_parse text = Some (JArr items) -> ~ In JNull items ->
        exists stamped st1,
          onlyUuidsDrawn st st1
          /\ Forall2 (stampedFrom (drawnBetween st st1)) items stamped
          /\ vaultCases (snd (handleImportVault (Some text) st))
             = vaultCases st ++ stamped
          /\ localStorage (snd (handleImportVault (Some text) st))
             = <["tradeLogic_cases" :=
                   JSON_stringify (JArr (map JObj (vaultCases st ++ stamped)))]>
                 (localStorage st)
          /\ alerts (snd (handleImportVault (Some text) st))
             = alerts st ++ [importedMessage (length items)]).
Proof.
  split; [| split; [| split]].
  - intros H. rewrite (handleImportVault_unparsed text st H). simpl. auto.
  - intros json H Harr. rewrite (handleImportVault_not_array text json st H Harr).
    simpl. auto.
  - intros items H Hnull.
    destruct (handleImportVault_null text items st H Hnull)
      as (st1 & (F1 & F2 & F3 & _) & ->).
    simpl. rewrite F1, F2, F3. auto.
  - intros items H Hnull.
    destruct (handleImportVault_merged text items st H Hnull)
      as (stamped & st1 & F & S & ->).
    exists stamped, st1. split; [exact F |]. split; [exact S |].
    destruct F as (F1 & F2 & F3 & _).
    simpl. rewrite F2, F3. auto.
Qed.

(** *** [saveToVault] *)

Lemma saveToVault_run (result : JSObject) (st : State) :
  saveToVault result st
  = (Ok tt,
     showAlert "Snapshot archived to Vault successfully."
       (storeItem "tradeLogic_cases"
          (JSON_stringify
             (JArr (map JObj
                (<["timestamp" := JNum (inject_Z (clock st))]>
                   (<["id" := JStr (randomUUID_at (uuidsDrawn st))]> result)
                 :: vaultCases st))))
          (withVaultCases
             (<["timestamp" := JNum (inject_Z (clock st))]>
                (<["id" := JStr (randomUUID_at (uuidsDrawn st))]> result)
              :: vaultCases st)
             (drawUuid st)))).
Proof. reflexivity. Qed.

Lemma identityKey_truthy_id (entry : JSObject) (id : JSValue) :
  entry !! "id" = Some id -> truthy (Some id) = true -> identityKey entry = Some id.
Proof.
  intros Hid Ht. unfold identityKey, orElse. rewrite Hid, Ht. reflexivity.
Qed.

Lemma truthy_nonempty_string (s : string) :
  s <> EmptyString -> truthy (Some (JStr s)) = true.
Proof. intros H. simpl. apply nonEmpty_true in H. exact H. Qed.

Lemma stampedFrom_id (generated : string -> Prop) (c : JSValue) (entry : JSObject) :
  stampedFrom generated c entry ->
  (truthy (spread c !! "id") = true ->
   entry !! "id" = spread c !! "id" /\ identityKey entry = spread c !! "id")
  /\ (truthy (spread c !! "id") = false ->
      exists u, generated u /\ entry !! "id" = Some (JStr u)).
Proof.
  intros (id & -> & Hkeep & Hfresh). split.
  - intros Ht. rewrite (Hkeep Ht). split; [apply lookup_insert_eq |].
    apply identityKey_truthy_id; [apply lookup_insert_eq |].
    rewrite <- (Hkeep Ht). exact Ht.
  - intros Hf. destruct (Hfresh Hf) as (u & Hu & ->).
    exists u. split; [exact Hu | apply lookup_insert_eq].
Qed.

(** The ids the two ways into the archive give.  Adding an entry always
    gives it a freshly drawn id, whatever id it had: the identity keys stay
    unique when that identifier is not empty and is not yet a key of the
    archive.  Import appends every element of the snapshot and re-keys
    none that has an id: an element whose id is truthy keeps it as its
    identity key, and only an element without a truthy id is given a
    freshly drawn one. *)
Theorem archive_identity_keys (st : State) :
  (forall result : JSObject,
     exists entry,
       vaultCases (snd (saveToVault result st)) = entry :: vaultCases st
       /\ entry !! "id" = Some (JStr (randomUUID_at (uuidsDrawn st)))
       /\ (randomUUID_at (uuidsDrawn st) <> EmptyString ->
           identityKey entry = Some (JStr (randomUUID_at (uuidsDrawn st)))
           /\ (List.NoDup (map identityKey (vaultCases st)) ->
               ~ In (Some (JStr (randomUUID_at (uuidsDrawn st))))
                    (map identityKey (vaultCases st)) ->
               List.NoDup (map identityKey (vaultCases (snd (saveToVault result st)))))))
  /\ (forall text items,
        JSON_parse text = Some (JArr items) -> ~ In JNull items ->
        exists stamped,
          vaultCases (snd (handleImportVault (Some text) st))
          = vaultCases st ++ stamped
          /\ length stamped = length items
          /\ Forall2
               (fun c entry =>
                  (truthy (spread c !! "id") = true ->
                   entry !! "id" = spread c !! "id"
                   /\ identityKey entry = spread c !! "id")
                  /\ (truthy (spread c !! "id") = false ->
                      exists n,
                        (uuidsDrawn st <= n)%nat
                        /\ entry !! "id" = Some (JStr (randomUUID_at n))))
               items stamped).
Proof.
  split.
  - intros result. rewrite saveToVault_run. cbn [snd].
    eexists. split; [reflexivity |].
    assert (Hid : (<["timestamp" := JNum (inject_Z (clock st))]>
                     (<["id" := JStr (randomUUID_at (uuidsDrawn st))]> result)
                   : JSObject) !! "id"
                  = Some (JStr (randomUUID_at (uuidsDrawn st)))).
    { rewrite lookup_insert_ne by discriminate. apply lookup_insert_eq. }
    split; [exact Hid |].
    intros Hne.
    assert (Hkey : identityKey
                     (<["timestamp" := JNum (inject_Z (clock st))]>
                        (<["id" := JStr (randomUUID_at (uuidsDrawn st))]> result))
                   = Some (JStr (randomUUID_at (uuidsDrawn st)))).
    { apply identityKey_truthy_id; [exact Hid |].
      apply truthy_nonempty_string. exact Hne. }
    split; [exact Hkey |].
    intros Hnodup Hfresh. cbn [vaultCases withVaultCases showAlert storeItem map].
    rewrite Hkey. constructor; assumption.
  - intros text items H Hnull.
    destruct (handleImportVault_merged text items st H Hnull)
      as (stamped & st1 & F & S & ->).
    exists stamped. split; [reflexivity |].
    split; [symmetry; eapply Forall2_length; exact S |].
    eapply Forall2_impl; [exact S |].
    intros c entry Hs. destruct (stampedFrom_id _ c entry Hs) as [Hkeep Hfresh].
    split; [exact Hkeep |].
    intros Hf. destruct (Hfresh Hf) as (u & (n & Hn & ->) & Hid).
    exists n. split; [lia | exact Hid].
Qed.

(** *** [removeFromVault] *)

Lemma removeFromVault_run (id : string) (st : State) :
  removeFromVault id st
  = (Ok tt,
     storeItem "tradeLogic_cases"
       (JSON_stringify
          (JArr (map JObj
             (List.filter (fun c => strictNeqString (c !! "id") id) (vaultCases st)))))
       (withVaultCases
          (List.filter (fun c => strictNeqString (c !! "id") id) (vaultCases st))
          st)).
Proof. reflexivity. Qed.

(** An entry stays in the archive exactly when its [id] is not the
    string passed. *)
Lemma removeFromVault_by_id (id : string) (st : State) (c : JSObject) :
  In c (vaultCases (snd (removeFromVault id st)))
  <-> In c (vaultCases st) /\ c !! "id" <> Some (JStr id).
Proof.
  rewrite removeFromVault_run. cbn [snd vaultCases storeItem withVaultCases].
  rewrite filter_In. unfold strictNeqString.
  split; intros [Hin Hid]; (split; [exact Hin |]).
  - intros Heq. rewrite Heq in Hid. rewrite String.eqb_refl in Hid. discriminate.
  - destruct (c !! "id") as [[| | | s | |] |]; try reflexivity.
    destruct (String.eqb_spec s id) as [-> | Hne]; [| reflexivity].
    exfalso. apply Hid. reflexivity.
Qed.

(** On an archive whose entries all carry a non-empty string id,
    removing by id is removing by identity key. *)
Lemma removeFromVault_by_identityKey (id : string) (st : State) (c : JSObject) :
  Forall (fun entry => exists s, entry !! "id" = Some (JStr s) /\ s <> EmptyString)
    (vaultCases st) ->
  In c (vaultCases (snd (removeFromVault id st)))
  <-> In c (vaultCases st) /\ identityKey c <> Some (JStr id).
Proof.
  intros Hall. rewrite removeFromVault_by_id.
  split; intros [Hin Hne]; (split; [exact Hin |]);
    rewrite List.Forall_forall in Hall; destruct (Hall c Hin) as (s & Hs & Hnonempty);
    rewrite (identityKey_truthy_id c (JStr s) Hs (truthy_nonempty_string s Hnonempty))
      in *; congruence.
Qed.

(** * Further properties *)

(** ** The archive: ids, the stored copy, adding and removing *)

Lemma In_JNull_dec (items : list JSValue) : {In JNull items} + {~ In JNull items}.
Proof.
  induction items as [| c items IH].
  - right. intros [].
  - destruct (JSValue_null_dec c) as [-> | Hc].
    + left. left. reflexivity.
    + destruct IH as [Hin | Hnot].
      * left. right. exact Hin.
      * right. intros [Heq | Hin]; [congruence | exact (Hnot Hin)].
Qed.

(** What an import does to the archive and to its stored copy: nothing,
    or every element stamped and appended. *)
Lemma handleImportVault_cases (file : option string) (st : State) :
  (vaultCases (snd (handleImportVault file st)) = vaultCases st
   /\ localStorage (snd (handleImportVault file st)) = localStorage st)
  \/ (exists items stamped st1,
        onlyUuidsDrawn st st1
        /\ Forall2 (stampedFrom (drawnBetween st st1)) items stamped
        /\ snd (handleImportVault file st)
           = showAlert (importedMessage (length items))
               (storeItem "tradeLogic_cases"
                  (JSON_stringify (JArr (map JObj (vaultCases st ++ stamped))))
                  (withVaultCases (vaultCases st ++ stamped) st1))).
Proof.
  destruct file as [text |]; [| left; split; reflexivity].
  destruct (JSON_parse text) as [json |] eqn:Hparse.
  - destruct (isArray json) eqn:Harr.
    + destruct json as [| | | | items |]; try discriminate.
      destruct (In_JNull_dec items) as [Hnull | Hnull].
      * left.
        destruct (handleImportVault_null text items st Hparse Hnull)
          as (st1 & (F1 & F2 & _) & ->).
        split; [exact F1 | exact F2].
      * right.
        destruct (handleImportVault_merged text items st Hparse Hnull)
          as (stamped & st1 & F & S & ->).
        exists items, stamped, st1. auto.
    + left. rewrite (handleImportVault_not_array text json st Hparse Harr).
      split; reflexivity.
  - left. rewrite (handleImportVault_unparsed text st Hparse). split; reflexivity.
Qed.

Lemma HasId_fresh (entry : JSObject) (u : string) :
  u <> EmptyString -> HasId (<["id" := JStr u]> entry).
Proof.
  intros Hu. unfold HasId. rewrite lookup_insert_eq.
  apply truthy_nonempty_string. exact Hu.
Qed.

Lemma stampedFrom_HasId (generated : string -> Prop) (c : JSValue) (entry : JSObject) :
  (forall u, generated u -> u <> EmptyString) ->
  stampedFrom generated c entry -> HasId entry.
Proof.
  intros Hgen (id & -> & Hkeep & Hfresh). unfold HasId.
  rewrite lookup_insert_eq.
  destruct (truthy (spread c !! "id")) eqn:Ht.
  - rewrite <- (Hkeep eq_refl). exact Ht.
  - destruct (Hfresh eq_refl) as (u & Hu & ->).
    apply truthy_nonempty_string, Hgen, Hu.
Qed.

(** Every entry of the archive keeps a truthy id: adding, removing and
    importing preserve it, provided [crypto.randomUUID] never returns the
    empty string. *)
Theorem archive_entries_keep_ids (st : State) :
  (forall n, randomUUID_at n <> EmptyString) ->
  Forall HasId (vaultCases st) ->
  (forall result, Forall HasId (vaultCases (snd (saveToVault result st))))
  /\ (forall id, Forall HasId (vaultCases (snd (removeFromVault id st))))
  /\ (forall file, Forall HasId (vaultCases (snd (handleImportVault file st)))).
Proof.
  intros Huuid Hall. split; [| split].
  - intros result. rewrite saveToVault_run. cbn [snd vaultCases showAlert storeItem
      withVaultCases].
    constructor; [| exact Hall].
    unfold HasId. rewrite lookup_insert_ne by discriminate.
    rewrite lookup_insert_eq. apply truthy_nonempty_string, Huuid.
  - intros id. rewrite removeFromVault_run. cbn [snd vaultCases storeItem withVaultCases].
    apply List.Forall_forall. intros c Hin. apply filter_In in Hin as [Hin _].
    rewrite List.Forall_forall in Hall. exact (Hall c Hin).
  - intros file.
    destruct (handleImportVault_cases file st)
      as [[Hsame _] | (items & stamped & st1 & F & S & ->)].
    + rewrite Hsame. exact Hall.
    + cbn [vaultCases showAlert storeItem withVaultCases].
      apply Forall_app. split; [exact Hall |].
      clear - S Huuid. induction S as [| c entry items stamped Hs _ IH]; constructor.
      * eapply stampedFrom_HasId; [| exact Hs].
        intros u (n & _ & ->). apply Huuid.
      * exact IH.
Qed.

(** After an entry is added, after entries are removed and after an
    import, the stored copy is the serialised archive; an import that
    merges nothing leaves a stored copy that was in step as it is. *)
Theorem archive_stored_copy_in_step (st : State) :
  (forall result, Mirrored (snd (saveToVault result st)))
  /\ (forall id, Mirrored (snd (removeFromVault id st)))
  /\ (forall file, Mirrored st -> Mirrored (snd (handleImportVault file st))).
Proof.
  split; [| split].
  - intros result. rewrite saveToVault_run. unfold Mirrored.
    cbn [snd vaultCases localStorage showAlert storeItem withVaultCases].
    apply lookup_insert_eq.
  - intros id. rewrite removeFromVault_run. unfold Mirrored.
    cbn [snd vaultCases localStorage storeItem withVaultCases].
    apply lookup_insert_eq.
  - intros file Hmirror.
    destruct (handleImportVault_cases file st)
      as [[Hcases Hstore] | (items & stamped & st1 & F & S & ->)].
    + unfold Mirrored. rewrite Hcases, Hstore. exact Hmirror.
    + unfold Mirrored.
      cbn [vaultCases localStorage showAlert storeItem withVaultCases].
      apply lookup_insert_eq.
Qed.

Lemma filter_all {A} (f : A -> bool) (l : list A) :
  (forall x, In x l -> f x = true) -> List.filter f l = l.
Proof.
  induction l as [| x l IH]; intros H; [reflexivity |].
  cbn [List.filter]. rewrite (H x (or_introl eq_refl)).
  rewrite IH; [reflexivity |]. intros y Hy. apply H. right. exact Hy.
Qed.

(** Removing the entry that was just added, by the id it was given,
    restores the archive, provided no older entry has that id. *)
Theorem removeFromVault_undoes_saveToVault (result : JSObject) (st : State) :
  (forall c, In c (vaultCases st) ->
     c !! "id" <> Some (JStr (randomUUID_at (uuidsDrawn st)))) ->
  vaultCases
    (snd (removeFromVault (randomUUID_at (uuidsDrawn st))
            (snd (saveToVault result st))))
  = vaultCases st.
Proof.
  intros Hfresh. rewrite removeFromVault_run, saveToVault_run.
  cbn [snd vaultCases showAlert storeItem withVaultCases List.filter].
  rewrite lookup_insert_ne by discriminate. rewrite lookup_insert_eq.
  cbn [strictNeqString]. rewrite String.eqb_refl. cbn [negb].
  apply filter_all. intros c Hin. specialize (Hfresh c Hin).
  unfold strictNeqString.
  destruct (c !! "id") as [[| | | s | |] |]; try reflexivity.
  destruct (String.eqb_spec s (randomUUID_at (uuidsDrawn st))) as [-> | Hne];
    [exfalso; apply Hfresh; reflexivity | reflexivity].
Qed.

(** ** The archive: export, import and loading *)

Lemma stampEntry_identified (entry : JSObject) (st : State) :
  HasId entry -> stampEntry (JObj entry) st = (Ok entry, st).
Proof.
  intros Hid. unfold stampEntry, bind, getProperty. cbn [ret spread].
  unfold HasId in Hid. rewrite Hid. cbn [ret].
  destruct (entry !! "id") as [id |] eqn:E; [| discriminate].
  cbn [default]. rewrite insert_id by exact E. reflexivity.
Qed.

Lemma Array_map_stampEntry_identified (entries : list JSObject) (st : State) :
  Forall HasId entries ->
  Array_map stampEntry (map JObj entries) st = (Ok entries, st).
Proof.
  induction 1 as [| entry entries Hid _ IH]; [reflexivity |].
  cbn [map Array_map]. unfold bind at 1.
  rewrite (stampEntry_identified entry st Hid).
  unfold bind at 1. rewrite IH. reflexivity.
Qed.

(** Importing a snapshot whose elements are objects with a truthy id
    appends them as they are and draws no identifier. *)
Lemma handleImportVault_identified (text : string) (entries : list JSObject)
    (st : State) :
  JSON_parse text = Some (JArr (map JObj entries)) ->
  Forall HasId entries ->
  snd (handleImportVault (Some text) st)
  = showAlert (importedMessage (length entries))
      (storeItem "tradeLogic_cases"
         (JSON_stringify (JArr (map JObj (vaultCases st ++ entries))))
         (withVaultCases (vaultCases st ++ entries) st)).
Proof.
  intros Hparse Hall.
  unfold handleImportVault, tryCatch, bind, parse, getVaultCases. rewrite Hparse.
  cbn [ret]. rewrite (Array_map_stampEntry_identified entries st Hall).
  rewrite length_map. reflexivity.
Qed.

(** Export then import.  When the exported text parses back to the
    archive it was made from and every entry of that archive has a truthy
    id, importing the text appends that archive, entry for entry and
    unchanged, to the archive that imports it: into an empty archive it
    reproduces the exported one, into the archive it was exported from it
    doubles every entry. *)
Theorem import_of_export (source st : State) :
  JSON_parse (handleExportVault source)
  = Some (JArr (map JObj (vaultCases source))) ->
  Forall HasId (vaultCases source) ->
  vaultCases (snd (handleImportVault (Some (handleExportVault source)) st))
  = vaultCases st ++ vaultCases source
  /\ uuidsDrawn (snd (handleImportVault (Some (handleExportVault source)) st))
     = uuidsDrawn st
  /\ (vaultCases st = [] ->
      vaultCases (snd (handleImportVault (Some (handleExportVault source)) st))
      = vaultCases source)
  /\ vaultCases (snd (handleImportVault (Some (handleExportVault source)) source))
     = vaultCases source ++ vaultCases source.
Proof.
  intros Hparse Hall.
  rewrite !(handleImportVault_identified _ _ _ Hparse Hall).
  cbn [vaultCases uuidsDrawn showAlert storeItem withVaultCases].
  split; [reflexivity |]. split; [reflexivity |]. split; [| reflexivity].
  intros ->. reflexivity.
Qed.

Lemma sanitizeEntry_null (st : State) : sanitizeEntry JNull st = (Throw TypeError, st).
Proof. reflexivity. Qed.

Lemma getProperty_not_null (c : JSValue) (name : string) (st : State) :
  c <> JNull -> getProperty c name st = (Ok (spread c !! name), st).
Proof. intros Hc. destruct c; try reflexivity; congruence. Qed.

Lemma sanitizeEntry_ok (c : JSValue) (st : State) :
  c <> JNull ->
  exists entry st',
    sanitizeEntry c st = (Ok entry, st')
    /\ onlyUuidsDrawn st st'
    /\ sanitizedFrom (drawnBetween st st') (clock st) c entry.
Proof.
  intros Hc. unfold sanitizeEntry. unfold bind at 1.
  rewrite (getProperty_not_null c "id" st Hc).
  destruct (truthy (spread c !! "id")) eqn:Hid.
  - unfold bind at 1. cbn [ret]. unfold bind at 1.
    rewrite (getProperty_not_null c "timestamp" st Hc).
    destruct (truthy (spread c !! "timestamp")) eqn:Hts.
    + eexists _, st. split; [reflexivity |]. split; [apply onlyUuidsDrawn_refl |].
      eexists _, _. split; [reflexivity |].
      split; [intros _; destruct (spread c !! "id"); [reflexivity | discriminate] |].
      split; [congruence |].
      split; [intros _; destruct (spread c !! "timestamp");
                [reflexivity | discriminate] | congruence].
    + eexists _, st. split; [reflexivity |]. split; [apply onlyUuidsDrawn_refl |].
      eexists _, _. split; [reflexivity |].
      split; [intros _; destruct (spread c !! "id"); [reflexivity | discriminate] |].
      split; [congruence |]. split; [congruence | reflexivity].
  - unfold bind at 1. unfold bind at 1. cbn [crypto_randomUUID ret].
    unfold bind at 1.
    rewrite (getProperty_not_null c "timestamp" (drawUuid st) Hc).
    assert (Hdrawn : drawnBetween st (drawUuid st) (randomUUID_at (uuidsDrawn st))).
    { exists (uuidsDrawn st). simpl. split; [lia | reflexivity]. }
    assert (Hframe : onlyUuidsDrawn st (drawUuid st)).
    { unfold onlyUuidsDrawn. simpl. repeat split; lia. }
    destruct (truthy (spread c !! "timestamp")) eqn:Hts.
    + eexists _, (drawUuid st). split; [reflexivity |]. split; [exact Hframe |].
      eexists _, _. split; [reflexivity |].
      split; [congruence |].
      split; [intros _; eexists; split; [exact Hdrawn | reflexivity] |].
      split; [intros _; destruct (spread c !! "timestamp");
                [reflexivity | discriminate] | congruence].
    + eexists _, (drawUuid st). split; [reflexivity |]. split; [exact Hframe |].
      eexists _, _. split; [reflexivity |].
      split; [congruence |].
      split; [intros _; eexists; split; [exact Hdrawn | reflexivity] |].
      split; [congruence | reflexivity].
Qed.

Lemma sanitizedFrom_mono (P Q : string -> Prop) (now : Z) (c : JSValue)
    (entry : JSObject) :
  (forall u, P u -> Q u) -> sanitizedFrom P now c entry -> sanitizedFrom Q now c entry.
Proof.
  intros HPQ (id & ts & Heq & Hkeep & Hfresh & Hts).
  exists id, ts. split; [exact Heq |]. split; [exact Hkeep |].
  split; [| exact Hts].
  intros Hf. destruct (Hfresh Hf) as (u & Hu & ->). exists u. auto.
Qed.

Lemma Array_map_sanitizeEntry_ok (items : list JSValue) :
  forall st,
    ~ In JNull items ->
    exists loaded st',
      Array_map sanitizeEntry items st = (Ok loaded, st')
      /\ onlyUuidsDrawn st st'
      /\ Forall2 (sanitizedFrom (drawnBetween st st') (clock st)) items loaded.
Proof.
  induction items as [| c items IH]; intros st Hnull.
  - exists [], st. split; [reflexivity |].
    split; [apply onlyUuidsDrawn_refl | constructor].
  - assert (Hc : c <> JNull) by (intros ->; apply Hnull; left; reflexivity).
    assert (Hrest : ~ In JNull items) by (intros H; apply Hnull; right; exact H).
    destruct (sanitizeEntry_ok c st Hc) as (entry & st1 & E1 & F1 & S1).
    destruct (IH st1 Hrest) as (loaded & st2 & E2 & F2 & S2).
    exists (entry :: loaded), st2.
    split; [cbn [Array_map]; unfold bind; rewrite E1, E2; reflexivity |].
    split; [eapply onlyUuidsDrawn_trans; eassumption |].
    pose proof F1 as (_ & _ & _ & _ & Hclock & _ & Hle1).
    pose proof F2 as (_ & _ & _ & _ & _ & _ & Hle2).
    constructor.
    + eapply sanitizedFrom_mono; [| exact S1].
      intros u (n & Hn & ->). exists n. split; [lia | reflexivity].
    + eapply Forall2_impl; [exact S2 |].
      intros c' entry' Hs. rewrite Hclock in Hs.
      eapply sanitizedFrom_mono; [| exact Hs].
      intros u (n & Hn & ->). exists n. split; [lia | reflexivity].
Qed.

Lemma Array_map_sanitizeEntry_null (items : list JSValue) :
  forall st,
    In JNull items ->
    exists st',
      Array_map sanitizeEntry items st = (Throw TypeError, st')
      /\ onlyUuidsDrawn st st'.
Proof.
  induction items as [| c items IH]; intros st Hin; [destruct Hin |].
  destruct (JSValue_null_dec c) as [-> | Hc].
  - exists st. split; [reflexivity | apply onlyUuidsDrawn_refl].
  - destruct Hin as [Heq | Hin]; [congruence |].
    destruct (sanitizeEntry_ok c st Hc) as (entry & st1 & E1 & F1 & _).
    destruct (IH st1 Hin) as (st2 & E2 & F2).
    exists st2.
    split; [cbn [Array_map]; unfold bind; rewrite E1, E2; reflexivity |].
    eapply onlyUuidsDrawn_trans; eassumption.
Qed.

Lemma loadVault_nothing_stored (st : State) :
  localStorage st !! "tradeLogic_cases" = None
  \/ localStorage st !! "tradeLogic_cases" = Some EmptyString ->
  loadVault st = (Ok tt, st).
Proof. intros [H | H]; unfold loadVault; rewrite H; reflexivity. Qed.

Lemma loadVault_stored (text : string) (st : State) :
  localStorage st !! "tradeLogic_cases" = Some text -> text <> EmptyString ->
  loadVault st
  = tryCatch
      (const parsed <~ parse text ;;;
       const sanitized <~ callMap parsed sanitizeEntry ;;;
       setVaultCases sanitized)
      (fun e => console_error "Failed to load vault") st.
Proof.
  intros H Hne. unfold loadVault. rewrite H.
  apply nonEmpty_true in Hne. rewrite Hne. reflexivity.
Qed.

(** The ways the loading of the archive ends: nothing happens, the load
    is given up with a console line, or the archive is replaced by the
    sanitized stored elements. *)
Lemma loadVault_cases (st : State) :
  snd (loadVault st) = st
  \/ (exists st1,
        onlyUuidsDrawn st st1
        /\ snd (loadVault st) = logError "Failed to load vault" st1)
  \/ (exists text items loaded st1,
        localStorage st !! "tradeLogic_cases" = Some text
        /\ JSON_parse text = Some (JArr items)
        /\ onlyUuidsDrawn st st1
        /\ Forall2 (sanitizedFrom (drawnBetween st st1) (clock st)) items loaded
        /\ snd (loadVault st) = withVaultCases loaded st1).
Proof.
  destruct (localStorage st !! "tradeLogic_cases") as [text |] eqn:Hstored;
    [| left; rewrite loadVault_nothing_stored by (left; exact Hstored); reflexivity].
  destruct (String.eqb_spec text EmptyString) as [-> | Hne];
    [left; rewrite loadVault_nothing_stored by (right; exact Hstored); reflexivity |].
  rewrite (loadVault_stored text st Hstored Hne).
  unfold tryCatch, bind, parse.
  destruct (JSON_parse text) as [parsed |] eqn:Hparse.
  - cbn [ret].
    destruct parsed as [| | | | items |];
      try (right; left; exists st; split; [apply onlyUuidsDrawn_refl | reflexivity]).
    cbn [callMap].
    destruct (In_JNull_dec items) as [Hnull | Hnull].
    + destruct (Array_map_sanitizeEntry_null items st Hnull) as (st1 & E & F).
      rewrite E. right. left. exists st1. split; [exact F | reflexivity].
    + destruct (Array_map_sanitizeEntry_ok items st Hnull) as (loaded & st1 & E & F & S).
      rewrite E. right. right. exists text, items, loaded, st1. auto.
  - right. left. exists st. split; [apply onlyUuidsDrawn_refl | reflexivity].
Qed.

(** Loading the archive.  The load writes nothing to local storage, shows
    no alert and sends no request.  With nothing stored, or the empty
    text, it changes nothing.  When the stored text does not parse,
    parses to something that is no array, or holds a [null], the archive
    stays as it is and one console line is written.  Otherwise the archive
    is replaced by the stored elements, each given an id and a timestamp
    where it had none. *)
Theorem loadVault_outcomes (st : State) :
  localStorage (snd (loadVault st)) = localStorage st
  /\ alerts (snd (loadVault st)) = alerts st
  /\ requests (snd (loadVault st)) = requests st
  /\ (localStorage st !! "tradeLogic_cases" = None
      \/ localStorage st !! "tradeLogic_cases" = Some EmptyString ->
      loadVault st = (Ok tt, st))
  /\ (forall text,
        localStorage st !! "tradeLogic_cases" = Some text -> text <> EmptyString ->
        JSON_parse text = None
        \/ (exists json, JSON_parse text = Some json /\ isArray json = false)
        \/ (exists items, JSON_parse text = Some (JArr items) /\ In JNull items) ->
        vaultCases (snd (loadVault st)) = vaultCases st
        /\ console (snd (loadVault st)) = console st ++ ["Failed to load vault"])
  /\ (forall text items,
        localStorage st !! "tradeLogic_cases" = Some text -> text <> EmptyString ->
        JSON_parse text = Some (JArr items) -> ~ In JNull items ->
        Forall2 (sanitizedFrom (drawnBetween st (snd (loadVault st))) (clock st))
          items (vaultCases (snd (loadVault st)))).
Proof.
  split; [| split; [| split; [| split; [| split]]]].
  - destruct (loadVault_cases st)
      as [-> | [(st1 & F & ->) | (t & i & l & st1 & _ & _ & F & _ & ->)]];
      [reflexivity | |]; destruct F as (_ & F2 & _); exact F2.
  - destruct (loadVault_cases st)
      as [-> | [(st1 & F & ->) | (t & i & l & st1 & _ & _ & F & _ & ->)]];
      [reflexivity | |]; destruct F as (_ & _ & F3 & _); exact F3.
  - destruct (loadVault_cases st)
      as [-> | [(st1 & F & ->) | (t & i & l & st1 & _ & _ & F & _ & ->)]];
      [reflexivity | |]; destruct F as (_ & _ & _ & _ & _ & F6 & _); exact F6.
  - apply loadVault_nothing_stored.
  - intros text Hstored Hne Hbad.
    rewrite (loadVault_stored text st Hstored Hne).
    unfold tryCatch, bind, parse.
    destruct Hbad as [Hparse | [(json & Hparse & Harr) | (items & Hparse & Hnull)]];
      rewrite Hparse.
    + split; reflexivity.
    + cbn [ret]. destruct json; try discriminate; split; reflexivity.
    + cbn [ret callMap].
      destruct (Array_map_sanitizeEntry_null items st Hnull)
        as (st1 & E & (F1 & _ & _ & F4 & _)).
      rewrite E. cbn [snd console_error logError vaultCases console].
      rewrite F1, F4. split; reflexivity.
  - intros text items Hstored Hne Hparse Hnull.
    rewrite (loadVault_stored text st Hstored Hne).
    unfold tryCatch, bind, parse. rewrite Hparse. cbn [ret callMap].
    destruct (Array_map_sanitizeEntry_ok items st Hnull) as (loaded & st1 & E & F & S).
    rewrite E. exact S.
Qed.

Lemma sanitizeEntry_identified (entry : JSObject) (st : State) :
  HasId entry -> HasTimestamp entry -> sanitizeEntry (JObj entry) st = (Ok entry, st).
Proof.
  unfold HasId, HasTimestamp. intros Hid Hts.
  unfold sanitizeEntry, bind, getProperty. cbn [ret spread].
  rewrite Hid. cbn [ret]. rewrite Hts. cbn [ret].
  destruct (entry !! "id") as [id |] eqn:E1; [| discriminate].
  destruct (entry !! "timestamp") as [ts |] eqn:E2; [| discriminate].
  cbn [default]. rewrite (insert_id entry "id" id E1).
  rewrite (insert_id entry "timestamp" ts E2). reflexivity.
Qed.

Lemma Array_map_sanitizeEntry_identified (entries : list JSObject) (st : State) :
  Forall HasId entries -> Forall HasTimestamp entries ->
  Array_map sanitizeEntry (map JObj entries) st = (Ok entries, st).
Proof.
  intros Hid. revert st.
  induction Hid as [| entry entries Hentry _ IH]; intros st Hts; [reflexivity |].
  apply Forall_cons in Hts as [Hts1 Hts].
  cbn [map Array_map]. unfold bind at 1.
  rewrite (sanitizeEntry_identified entry st Hentry Hts1).
  unfold bind at 1. rewrite (IH st Hts). reflexivity.
Qed.

(** Reloading.  When the stored copy is in step with the archive, the
    serialised archive is not empty and parses back to the archive, and
    every entry has a truthy id and timestamp, loading from that storage
    gives the archive back unchanged and draws no identifier. *)
Theorem loadVault_restores_archive (st page : State) :
  Mirrored st ->
  JSON_stringify (JArr (map JObj (vaultCases st))) <> EmptyString ->
  JSON_parse (JSON_stringify (JArr (map JObj (vaultCases st))))
  = Some (JArr (map JObj (vaultCases st))) ->
  Forall HasId (vaultCases st) -> Forall HasTimestamp (vaultCases st) ->
  localStorage page = localStorage st ->
  vaultCases (snd (loadVault page)) = vaultCases st
  /\ uuidsDrawn (snd (loadVault page)) = uuidsDrawn page.
Proof.
  intros Hmirror Hne Hparse Hid Hts Hstore.
  unfold Mirrored in Hmirror. rewrite <- Hstore in Hmirror.
  rewrite (loadVault_stored _ page Hmirror Hne).
  unfold tryCatch, bind, parse. rewrite Hparse. cbn [ret callMap].
  rewrite (Array_map_sanitizeEntry_identified _ page Hid Hts).
  split; reflexivity.
Qed.

(** ** Removing from the archive *)





(** ** The calls to the hosted model *)

Lemma sorted_by_timestamp_unique (l1 : list AnalysisResult) :
  forall l2,
    StronglySorted byTimestamp l1 -> StronglySorted byTimestamp l2 ->
    Permutation l1 l2 -> List.NoDup (map ar_timestamp l1) -> l1 = l2.
Proof.
  induction l1 as [| x l1 IH]; intros l2 S1 S2 Hperm Hnodup.
  - apply Permutation_nil in Hperm. congruence.
  - destruct l2 as [| y l2];
      [apply Permutation_sym, Permutation_nil in Hperm; discriminate |].
    apply StronglySorted_inv in S1 as [S1 Hx].
    apply StronglySorted_inv in S2 as [S2 Hy].
    cbn [map] in Hnodup. apply List.NoDup_cons_iff in Hnodup as [Hnotin Hnodup].
    assert (Heq : x = y).
    { assert (Hxin : In x (y :: l2))
        by (eapply Permutation_in; [exact Hperm | left; reflexivity]).
      assert (Hyin : In y (x :: l1))
        by (eapply Permutation_in;
            [apply Permutation_sym; exact Hperm | left; reflexivity]).
      destruct Hxin as [-> | Hxin]; [reflexivity |].
      destruct Hyin as [-> | Hyin]; [reflexivity |].
      exfalso. apply Hnotin.
      rewrite List.Forall_forall in Hx, Hy.
      pose proof (Hx y Hyin) as H1. pose proof (Hy x Hxin) as H2.
      unfold byTimestamp in H1, H2.
      destruct (ar_timestamp x) as [tx |] eqn:Ex; [| contradiction].
      destruct (ar_timestamp y) as [ty |] eqn:Ey; [| contradiction].
      replace tx with ty by lia. rewrite <- Ey.
      apply in_map. exact Hyin. }
    subst y. f_equal.
    apply IH; [exact S1 | exact S2 | | exact Hnodup].
    eapply Permutation_cons_inv. exact Hperm.
Qed.

Lemma sortByTimestamp_of_Permutation (h1 h2 : list AnalysisResult) :
  Permutation h1 h2 -> Forall dated h1 -> List.NoDup (map ar_timestamp h1) ->
  sortByTimestamp h1 = sortByTimestamp h2.
Proof.
  intros Hperm Hdated Hnodup.
  apply sorted_by_timestamp_unique.
  - apply sortByTimestamp_sorted, Hdated.
  - apply sortByTimestamp_sorted.
    eapply Permutation_Forall; [exact Hperm | exact Hdated].
  - eapply perm_trans;
      [apply Permutation_sym, (Array_sort_Permutation compareTimestamp h1) |].
    eapply perm_trans; [exact Hperm |].
    apply (Array_sort_Permutation compareTimestamp h2).
  - eapply Permutation_NoDup; [| exact Hnodup].
    apply Permutation_map, (Array_sort_Permutation compareTimestamp h1).
Qed.

(** The consistency check does not depend on the order in which the
    entries are handed over, as long as every entry has a timestamp and
    no two of them have the same: rearranging the history changes neither
    the request sent nor the outcome. *)
Theorem runConsistencyCheck_order_independent (h1 h2 : list AnalysisResult)
    (st : State) :
  Permutation h1 h2 -> Forall dated h1 -> List.NoDup (map ar_timestamp h1) ->
  runConsistencyCheck h1 st = runConsistencyCheck h2 st.
Proof.
  intros Hperm Hdated Hnodup. unfold runConsistencyCheck.
  rewrite (sortByTimestamp_of_Permutation h1 h2 Hperm Hdated Hnodup). reflexivity.
Qed.

(** Neither call touches the archive, local storage or the alerts.  A
    consistency check draws no identifier and writes no console line.  An
    analysis draws one identifier when it returns and none when it fails,
    and writes one console line exactly when it fails. *)
Theorem gateway_calls_frame (input : StockAnalysisInput)
    (history : list AnalysisResult) (st : State) :
  (vaultCases (snd (analyzeStock input st)) = vaultCases st
   /\ localStorage (snd (analyzeStock input st)) = localStorage st
   /\ alerts (snd (analyzeStock input st)) = alerts st)
  /\ (vaultCases (snd (runConsistencyCheck history st)) = vaultCases st
      /\ localStorage (snd (runConsistencyCheck history st)) = localStorage st
      /\ alerts (snd (runConsistencyCheck history st)) = alerts st
      /\ uuidsDrawn (snd (runConsistencyCheck history st)) = uuidsDrawn st
      /\ console (snd (runConsistencyCheck history st)) = console st)
  /\ (forall result,
        fst (analyzeStock input st) = Ok result ->
        uuidsDrawn (snd (analyzeStock input st)) = S (uuidsDrawn st)
        /\ console (snd (analyzeStock input st)) = console st)
  /\ (forall e,
        fst (analyzeStock input st) = Throw e ->
        uuidsDrawn (snd (analyzeStock input st)) = uuidsDrawn st
        /\ console (snd (analyzeStock input st)) = console st ++ ["Gemini Error:"]).
Proof.
  rewrite analyzeStock_run.
  split; [| split; [| split]].
  - destruct (generateContent_at _ _) as [| text]; [repeat split |].
    destruct (JSON_parse text); repeat split.
  - destruct (sortByTimestamp history) as [| first rest] eqn:E.
    + assert (Hrun : runConsistencyCheck history st = (Throw TypeError, st))
        by (unfold runConsistencyCheck, bind; rewrite E; reflexivity).
      rewrite Hrun. repeat split.
    + rewrite (runConsistencyCheck_run history st first rest E). repeat split.
  - intros result.
    destruct (generateContent_at _ _) as [| text]; [discriminate |].
    destruct (JSON_parse text); [| discriminate]. intros _. split; reflexivity.
  - intros e.
    destruct (generateContent_at _ _) as [| text]; [intros _; split; reflexivity |].
    destruct (JSON_parse text); [discriminate |]. intros _. split; reflexivity.
Qed.

Lemma gateway_frame_consistency (history : list AnalysisResult) (st : State) :
  alerts (snd (runConsistencyCheck history st)) = alerts st.
Proof.
  destruct (sortByTimestamp history) as [| first rest] eqn:E.
  - assert (Hrun : runConsistencyCheck history st = (Throw TypeError, st))
      by (unfold runConsistencyCheck, bind; rewrite E; reflexivity).
    rewrite Hrun. reflexivity.
  - rewrite (runConsistencyCheck_run history st first rest E). reflexivity.
Qed.

(** The analysis submitted from the form.  The risk profile sent is the
    one of the configuration: the profile the form carries has no effect,
    and the instruction of the configured profile is in the request.  The
    handler always ends with [loading] off; when the analysis fails, for
    whatever reason, the view shows the one generic message and no result;
    when it returns, the view shows the result and no message. *)
Theorem handleAnalysisSubmit_outcome (appConfig : AppConfig) (innerWidth : Z)
    (data : StockAnalysisInput) (view : AppView) (st : State) :
  (forall profile,
     handleAnalysisSubmit appConfig innerWidth (withRiskProfile profile data) view st
     = handleAnalysisSubmit appConfig innerWidth data view st)
  /\ requests (snd (handleAnalysisSubmit appConfig innerWidth data view st))
     = requests st
       ++ [analysisRequest (withRiskProfile (config_riskProfile appConfig) data)]
  /\ Substring
       (riskInstruction (withRiskProfile (config_riskProfile appConfig) data))
       (contents
          (analysisRequest (withRiskProfile (config_riskProfile appConfig) data)))
  /\ loading (fst (handleAnalysisSubmit appConfig innerWidth data view st)) = false
  /\ (forall e,
        fst (analyzeStock (withRiskProfile (config_riskProfile appConfig) data) st)
        = Throw e ->
        analysis (fst (handleAnalysisSubmit appConfig innerWidth data view st)) = None
        /\ error (fst (handleAnalysisSubmit appConfig innerWidth data view st))
           = Some ANALYSIS_FAILED)
  /\ (forall result,
        fst (analyzeStock (withRiskProfile (config_riskProfile appConfig) data) st)
        = Ok result ->
        analysis (fst (handleAnalysisSubmit appConfig innerWidth data view st))
        = Some result
        /\ error (fst (handleAnalysisSubmit appConfig innerWidth data view st)) = None).
Proof.
  split; [intros profile; reflexivity |].
  unfold handleAnalysisSubmit.
  pose proof (analyzeStock_run
                (withRiskProfile (config_riskProfile appConfig) data) st) as Hrun.
  destruct (analyzeStock (withRiskProfile (config_riskProfile appConfig) data) st)
    as [[result | e] st'] eqn:E; cbn [fst snd loading analysis error].
  - split.
    { destruct (generateContent_at _ _) as [| text]; [discriminate |].
      destruct (JSON_parse text); [| discriminate].
      injection Hrun as _ ->. reflexivity. }
    split; [apply Substring_template; simpl; tauto |].
    split; [reflexivity |]. split; [discriminate |].
    intros r Hr. injection Hr as <-. split; reflexivity.
  - split.
    { destruct (generateContent_at _ _) as [| text];
        [injection Hrun as _ ->; reflexivity |].
      destruct (JSON_parse text); [discriminate |].
      injection Hrun as _ ->. reflexivity. }
    split; [apply Substring_template; simpl; tauto |].
    split; [reflexivity |]. split; [intros _ _; split; reflexivity | discriminate].
Qed.

(** The consistency check started from the archive view.  The handler
    always ends with the busy flag off.  With nothing selected it sends no
    request and shows the failure alert; every other failure shows the same
    alert and leaves the shown result as it was; when the check returns,
    the parsed answer, whatever its shape, becomes the shown result. *)
Theorem handleRunConsistency_outcome (selected : list AnalysisResult)
    (view : AppView) (st : State) :
  checkingConsistency (fst (handleRunConsistency selected view st)) = false
  /\ (selected = [] ->
      requests (snd (handleRunConsistency selected view st)) = requests st
      /\ alerts (snd (handleRunConsistency selected view st))
         = alerts st ++ ["Failed to run consistency check."]
      /\ consistencyResult (fst (handleRunConsistency selected view st))
         = consistencyResult view)
  /\ (forall e,
        fst (runConsistencyCheck selected st) = Throw e ->
        alerts (snd (handleRunConsistency selected view st))
        = alerts st ++ ["Failed to run consistency check."]
        /\ consistencyResult (fst (handleRunConsistency selected view st))
           = consistencyResult view)
  /\ (forall result,
        fst (runConsistencyCheck selected st) = Ok result ->
        alerts (snd (handleRunConsistency selected view st)) = alerts st
        /\ consistencyResult (fst (handleRunConsistency selected view st))
           = Some result).
Proof.
  pose proof (gateway_frame_consistency selected st) as Hframe.
  unfold handleRunConsistency.
  destruct (runConsistencyCheck selected st) as [[result | e] st'] eqn:E;
    cbn [fst snd checkingConsistency consistencyResult alerts showAlert logError] in *.
  - split; [reflexivity |]. split.
    { intros ->. rewrite runConsistencyCheck_empty in E. discriminate. }
    split; [discriminate |].
    intros r Hr. injection Hr as <-. split; [exact Hframe | reflexivity].
  - split; [reflexivity |]. split.
    { intros ->. rewrite runConsistencyCheck_empty in E. injection E as _ <-.
      repeat split. }
    split; [| discriminate].
    intros _ _. rewrite Hframe. split; reflexivity.
Qed.

(** ** The save button and the configuration *)

Lemma saveButton_clicks_saved (n : nat) (data : JSObject) (st : State) :
  saveButton_clicks n data true st = (Ok true, st).
Proof. induction n as [| n IH]; [reflexivity | exact IH]. Qed.

(** However often the save button of a result is clicked, the result is
    archived once: the first click saves it, every later click does
    nothing, and the archive has one entry more. *)
Theorem saveButton_saves_once (n : nat) (data : JSObject) (st : State) :
  saveButton_clicks (S n) data false st = (Ok true, snd (saveToVault data st))
  /\ length (vaultCases (snd (saveButton_clicks (S n) data false st)))
     = S (length (vaultCases st))
  /\ saveButton_clicks n data true st = (Ok true, st).
Proof.
  assert (H : saveButton_clicks (S n) data false st
              = (Ok true, snd (saveToVault data st))).
  { change (saveButton_clicks (S n) data false st)
      with (saveButton_clicks n data true (snd (saveToVault data st))).
    apply saveButton_clicks_saved. }
  split; [exact H |]. split; [| apply saveButton_clicks_saved].
  rewrite H, saveToVault_run. reflexivity.
Qed.

Lemma handleImportVault_other_key (file : option string) (st : State) (key : string) :
  key <> "tradeLogic_cases" ->
  localStorage (snd (handleImportVault file st)) !! key = localStorage st !! key.
Proof.
  intros Hkey.
  destruct (handleImportVault_cases file st)
    as [[_ ->] | (items & stamped & st1 & F & _ & ->)]; [reflexivity |].
  destruct F as (_ & F2 & _).
  cbn [snd localStorage showAlert storeItem withVaultCases].
  rewrite lookup_insert_ne by congruence. rewrite F2. reflexivity.
Qed.

(** The two stored items are kept apart: saving the configuration leaves
    the archive and its stored copy alone, and saving to, removing from
    and importing into the archive leave the stored configuration alone. *)
Theorem stored_items_independent (newConfig : AppConfig) (result : JSObject)
    (id : string) (file : option string) (st : State) :
  (vaultCases (snd (handleSaveConfig newConfig st)) = vaultCases st
   /\ localStorage (snd (handleSaveConfig newConfig st)) !! "tradeLogic_cases"
      = localStorage st !! "tradeLogic_cases")
  /\ localStorage (snd (saveToVault result st)) !! "tradeLogic_config"
     = localStorage st !! "tradeLogic_config"
  /\ localStorage (snd (removeFromVault id st)) !! "tradeLogic_config"
     = localStorage st !! "tradeLogic_config"
  /\ localStorage (snd (handleImportVault file st)) !! "tradeLogic_config"
     = localStorage st !! "tradeLogic_config".
Proof.
  split; [split; [reflexivity |] | split; [| split]].
  - cbn [snd handleSaveConfig localStorage showAlert storeItem].
    apply lookup_insert_ne. discriminate.
  - rewrite saveToVault_run.
    cbn [snd localStorage showAlert storeItem withVaultCases].
    apply lookup_insert_ne. discriminate.
  - rewrite removeFromVault_run.
    cbn [snd localStorage showAlert storeItem withVaultCases].
    apply lookup_insert_ne. discriminate.
  - apply handleImportVault_other_key. discriminate.
Qed.

(** A saved configuration is the one found at the next start: when the
    serialised configuration is not the empty text and parses back to the
    configuration, a page that starts on the storage left by
    [handleSaveConfig] holds that configuration afterwards, whatever was
    archived, removed or imported in between; nothing is written or
    logged by the load. *)
Theorem loadConfig_restores_config (newConfig : AppConfig) (st page : State)
    (current : JSValue) :
  JSON_stringify (AppConfig_toJS newConfig) <> EmptyString ->
  JSON_parse (JSON_stringify (AppConfig_toJS newConfig))
  = Some (AppConfig_toJS newConfig) ->
  localStorage page !! "tradeLogic_config"
  = localStorage (snd (handleSaveConfig newConfig st)) !! "tradeLogic_config" ->
  loadConfig current page = (fst (handleSaveConfig newConfig st), page).
Proof.
  intros Hne Hparse Hpage. unfold loadConfig. rewrite Hpage.
  cbn [snd fst handleSaveConfig localStorage showAlert storeItem].
  rewrite lookup_insert_eq, (proj2 (nonEmpty_true _) Hne), Hparse. reflexivity.
Qed.

End Host.

(** ** The selection of the archive view *)

Lemma Set_has_In (s : list string) (x : string) : Set_has s x = true <-> In x s.
Proof.
  unfold Set_has. rewrite existsb_exists. split.
  - intros [y [Hin Heq]]. apply String.eqb_eq in Heq. subst. exact Hin.
  - intros Hin. exists x. split; [exact Hin | apply String.eqb_refl].
Qed.

Lemma Set_has_not_In (s : list string) (x : string) :
  Set_has s x = false <-> ~ In x s.
Proof.
  rewrite <- Set_has_In. destruct (Set_has s x); intuition congruence.
Qed.

Lemma Set_add_In (s : list string) (x y : string) :
  In y (Set_add s x) <-> In y s \/ y = x.
Proof.
  unfold Set_add. destruct (Set_has s x) eqn:E.
  - apply Set_has_In in E. split; [tauto | intros [H | ->]; assumption].
  - rewrite in_app_iff. simpl. intuition congruence.
Qed.

Lemma Set_add_NoDup (s : list string) (x : string) :
  List.NoDup s -> List.NoDup (Set_add s x).
Proof.
  intros H. unfold Set_add. destruct (Set_has s x) eqn:E; [exact H |].
  apply Set_has_not_In in E.
  eapply Permutation_NoDup; [apply Permutation_cons_append |].
  constructor; assumption.
Qed.

Lemma Set_delete_In (s : list string) (x y : string) :
  In y (Set_delete s x) <-> In y s /\ y <> x.
Proof.
  unfold Set_delete. rewrite filter_In, negb_true_iff, String.eqb_neq. tauto.
Qed.

Lemma foldl_Set_add_In (values : list string) :
  forall acc x, In x (foldl Set_add acc values) <-> In x acc \/ In x values.
Proof.
  induction values as [| v values IH]; intros acc x; simpl; [tauto |].
  rewrite IH, Set_add_In. intuition congruence.
Qed.

Lemma Set_from_In (values : list string) (x : string) :
  In x (Set_from values) <-> In x values.
Proof.
  unfold Set_from. rewrite foldl_Set_add_In. simpl. tauto.
Qed.

Lemma foldl_Set_add_NoDup (values : list string) :
  forall acc, List.NoDup (acc ++ values) -> foldl Set_add acc values = acc ++ values.
Proof.
  induction values as [| v values IH]; intros acc H; simpl;
    [rewrite app_nil_r; reflexivity |].
  assert (Hnotin : ~ In v acc).
  { apply NoDup_remove_2 in H. intros Hin. apply H, in_or_app. left. exact Hin. }
  apply Set_has_not_In in Hnotin. unfold Set_add at 2. rewrite Hnotin.
  rewrite IH; rewrite <- app_assoc; [reflexivity | exact H].
Qed.

(** The copy of a set is the set. *)
Lemma Set_from_NoDup (s : list string) : List.NoDup s -> Set_from s = s.
Proof. intros H. unfold Set_from. rewrite foldl_Set_add_NoDup; [reflexivity | exact H]. Qed.

Lemma filter_length_eq {A : Type} (f : A -> bool) (l : list A) :
  length (List.filter f l) = length l -> List.filter f l = l.
Proof.
  induction l as [| a l IH]; simpl; [reflexivity |].
  destruct (f a); simpl; intros H.
  - f_equal. apply IH. lia.
  - pose proof (List.filter_length_le f l). lia.
Qed.

Lemma validIds_has (cases : list AnalysisResult) (k : string) :
  Set_has (Set_from (map caseKey cases)) k = true
  <-> exists c, In c cases /\ caseKey c = k.
Proof.
  rewrite Set_has_In, Set_from_In, in_map_iff.
  split; intros [c [H1 H2]]; exists c; tauto.
Qed.

Lemma syncSelection_filter (cases : list AnalysisResult) (prev : list string) :
  List.NoDup prev ->
  syncSelection cases prev
  = List.filter (Set_has (Set_from (map caseKey cases))) prev.
Proof.
  intros H. unfold syncSelection.
  rewrite (Set_from_NoDup (List.filter _ prev)) by (apply List.NoDup_filter, H).
  destruct (Nat.eqb_spec (length (List.filter (Set_has (Set_from (map caseKey cases))) prev))
                         (length prev)) as [E | E]; [| reflexivity].
  symmetry. apply filter_length_eq, E.
Qed.

Lemma filter_filter_same {A : Type} (f : A -> bool) (l : list A) :
  List.filter f (List.filter f l) = List.filter f l.
Proof.
  induction l as [| a l IH]; simpl; [reflexivity |].
  destruct (f a) eqn:E; simpl; [rewrite E, IH; reflexivity | exact IH].
Qed.

Lemma matchesKey_caseKey (firstId : string) (c : AnalysisResult) :
  firstId <> EmptyString ->
  (matchesKey firstId c = true <-> caseKey c = firstId).
Proof.
  intros Hne. unfold matchesKey, caseKey, nonEmpty.
  rewrite orb_true_iff, andb_true_iff, negb_involutive, !String.eqb_eq.
  destruct (String.eqb_spec (ar_id c) EmptyString) as [E | E]; simpl.
  - rewrite E. split.
    + intros [H | [_ H]]; [congruence | exact H].
    + intros H. right. split; [reflexivity | exact H].
  - split.
    + intros [H | [H _]]; [exact H | contradiction].
    + intros H. left. exact H.
Qed.

Lemma KeysDistinct_inj (cases : list AnalysisResult) (c c' : AnalysisResult) :
  KeysDistinct cases -> In c cases -> In c' cases ->
  caseKey c = caseKey c' -> c = c'.
Proof.
  unfold KeysDistinct.
  induction cases as [| a cases IH]; simpl; intros Hnd Hc Hc' Hk; [contradiction |].
  apply List.NoDup_cons_iff in Hnd as [Hnotin Hnd].
  destruct Hc as [-> | Hc], Hc' as [-> | Hc'].
  - reflexivity.
  - exfalso. apply Hnotin. rewrite Hk. apply in_map, Hc'.
  - exfalso. apply Hnotin. rewrite <- Hk. apply in_map, Hc.
  - apply IH; assumption.
Qed.

Lemma activeTicker_coherent (cases : list AnalysisResult) (firstId : string)
    (rest : list string) :
  KeysNonEmpty cases -> SelectionCoherent cases (firstId :: rest) ->
  exists c0,
    In c0 cases /\ caseKey c0 = firstId
    /\ activeTicker cases (firstId :: rest) = Some (ar_ticker c0).
Proof.
  intros Hne [_ [Hkeys _]].
  destruct (Hkeys firstId (or_introl eq_refl)) as [c [Hc Hk]].
  assert (Hfirst : firstId <> EmptyString) by (rewrite <- Hk; apply Hne, Hc).
  simpl. destruct (List.find (matchesKey firstId) cases) as [c0 |] eqn:F.
  - apply List.find_some in F as [Hin Hm].
    apply (matchesKey_caseKey firstId c0 Hfirst) in Hm.
    exists c0. repeat split; assumption.
  - exfalso. pose proof (List.find_none _ _ F c Hc) as Hno.
    apply (matchesKey_caseKey firstId c Hfirst) in Hk. congruence.
Qed.

Lemma SelectionCoherent_nil (cases : list AnalysisResult) :
  SelectionCoherent cases [].
Proof.
  split; [constructor |]. split; [intros k [] | intros c c' _ _ []].
Qed.

Lemma card_onClick_coherent (cases : list AnalysisResult) (sel : list string)
    (item : AnalysisResult) :
  KeysDistinct cases -> KeysNonEmpty cases -> In item cases ->
  SelectionCoherent cases sel ->
  SelectionCoherent cases (card_onClick cases sel item).
Proof.
  intros Hdist Hne Hitem Hcoh. unfold card_onClick.
  destruct (isDisabled cases sel item) eqn:Hdis; [exact Hcoh |].
  pose proof Hcoh as [Hnd [Hkeys Htick]].
  unfold toggleSelection. rewrite (Set_from_NoDup sel Hnd).
  destruct (Set_has sel (caseKey item)) eqn:Hhas.
  - split; [apply List.NoDup_filter, Hnd |]. split.
    + intros k Hk. apply Set_delete_In in Hk as [Hk _]. apply Hkeys, Hk.
    + intros c c' Hc Hc' Hin Hin'.
      apply Set_delete_In in Hin as [Hin _]. apply Set_delete_In in Hin' as [Hin' _].
      apply Htick; assumption.
  - split; [apply Set_add_NoDup, Hnd |]. split.
    + intros k Hk. apply Set_add_In in Hk as [Hk | ->];
        [apply Hkeys, Hk | exists item; split; [exact Hitem | reflexivity]].
    + assert (Hall : forall c, In c cases -> In (caseKey c) (Set_add sel (caseKey item)) ->
                               ar_ticker c = ar_ticker item).
      { intros c Hc Hin. apply Set_add_In in Hin as [Hin | Hin].
        - destruct sel as [| firstId rest]; [destruct Hin |].
          destruct (activeTicker_coherent cases firstId rest Hne Hcoh)
            as [c0 [Hc0 [Hk0 Hact]]].
          unfold isDisabled, isSelected in Hdis. rewrite Hact, Hhas in Hdis.
          simpl in Hdis. rewrite andb_true_r in Hdis.
          apply negb_false_iff, String.eqb_eq in Hdis.
          rewrite <- Hdis. apply Htick; [exact Hc | exact Hc0 | exact Hin |].
          rewrite Hk0. left. reflexivity.
        - f_equal. apply (KeysDistinct_inj cases); assumption. }
      intros c c' Hc Hc' Hin Hin'.
      rewrite (Hall c Hc Hin), (Hall c' Hc' Hin'). reflexivity.
Qed.

Lemma foldl_card_onClick_coherent (cases clicks : list AnalysisResult) :
  KeysDistinct cases -> KeysNonEmpty cases ->
  (forall item, In item clicks -> In item cases) ->
  forall sel,
    SelectionCoherent cases sel ->
    SelectionCoherent cases (foldl (card_onClick cases) sel clicks).
Proof.
  intros Hdist Hne. induction clicks as [| item clicks IH]; intros Hin sel Hcoh;
    simpl; [exact Hcoh |].
  apply IH; [intros i Hi; apply Hin; right; exact Hi |].
  apply card_onClick_coherent; try assumption. apply Hin. left. reflexivity.
Qed.

Lemma selected_cases_length (cases : list AnalysisResult) (sel : list string) :
  KeysDistinct cases -> SelectionCoherent cases sel ->
  length (List.filter (fun c => Set_has sel (caseKey c)) cases) = length sel.
Proof.
  intros Hdist [Hnd [Hkeys _]].
  rewrite <- (length_map caseKey).
  apply Permutation_length, Permutation.NoDup_Permutation.
  - clear Hkeys. unfold KeysDistinct in Hdist.
    induction cases as [| a cases IH]; simpl; [constructor |].
    apply List.NoDup_cons_iff in Hdist as [Hnotin Hdist].
    destruct (Set_has sel (caseKey a)); [| apply IH, Hdist].
    simpl. constructor; [| apply IH, Hdist].
    intros Hin. apply Hnotin. apply in_map_iff in Hin as [c [Hk Hc]].
    apply filter_In in Hc as [Hc _]. rewrite <- Hk. apply in_map, Hc.
  - exact Hnd.
  - intros k. rewrite in_map_iff. split.
    + intros [c [Hk Hc]]. apply filter_In in Hc as [_ Hc].
      apply Set_has_In in Hc. rewrite <- Hk. exact Hc.
    + intros Hk. destruct (Hkeys k Hk) as [c [Hc Hkc]].
      exists c. split; [exact Hkc |]. apply filter_In. split; [exact Hc |].
      apply Set_has_In. rewrite Hkc. exact Hk.
Qed.

(** Whatever cards of the archive view are clicked, in whatever order,
    starting from the empty selection: as long as no two cases have one
    key and no case has the empty key, the selection stays coherent, and
    when the audit button is there, a click on it passes on at least two
    cases, all of them archive entries with one ticker, as many as keys
    are selected; the consistency check then sends its request. *)
Theorem CaseVault_audits_one_ticker
    (JSON_parse : string -> option JSValue) (JSON_stringify : JSValue -> string)
    (generateContent_at : nat -> GenerateContentParameters -> Response)
    (cases clicks : list AnalysisResult) :
  KeysDistinct cases -> KeysNonEmpty cases ->
  (forall item, In item clicks -> In item cases) ->
  SelectionCoherent cases (afterClicks cases clicks)
  /\ forall history,
       auditButton_onClick cases (afterClicks cases clicks) = Some history ->
       sameTicker history
       /\ (2 <= length history)%nat
       /\ length history = length (afterClicks cases clicks)
       /\ (forall c, In c history -> In c cases)
       /\ (forall st,
             length (requests
                       (snd (runConsistencyCheck JSON_parse JSON_stringify
                               generateContent_at history st)))
             = S (length (requests st))).
Proof.
  intros Hdist Hne Hclicks.
  assert (Hcoh : SelectionCoherent cases (afterClicks cases clicks))
    by (apply foldl_card_onClick_coherent;
        [assumption | assumption | assumption | apply SelectionCoherent_nil]).
  split; [exact Hcoh |].
  intros history. unfold auditButton_onClick.
  destruct (Nat.leb_spec 2 (length (afterClicks cases clicks))) as [Hlen | Hlen];
    [| discriminate].
  intros H. injection H as <-.
  pose proof (selected_cases_length cases _ Hdist Hcoh) as Hsame.
  split; [| split; [| split; [| split]]].
  - destruct Hcoh as [_ [_ Htick]]. intros a b Ha Hb.
    apply filter_In in Ha as [Ha Hka]. apply filter_In in Hb as [Hb Hkb].
    apply Set_has_In in Hka. apply Set_has_In in Hkb. apply Htick; assumption.
  - lia.
  - exact Hsame.
  - intros c Hc. apply filter_In in Hc as [Hc _]. exact Hc.
  - intros st.
    destruct (sortByTimestamp
                (List.filter (fun c => Set_has (afterClicks cases clicks) (caseKey c))
                   cases)) as [| first rest] eqn:E.
    + exfalso.
      pose proof (Permutation_length
                    (Array_sort_Permutation compareTimestamp
                       (List.filter
                          (fun c => Set_has (afterClicks cases clicks) (caseKey c))
                          cases))) as Hp.
      unfold sortByTimestamp in E. rewrite E in Hp. simpl in Hp. lia.
    + rewrite (runConsistencyCheck_run JSON_parse JSON_stringify generateContent_at
                 _ st first rest E). simpl.
      rewrite length_app. simpl. lia.
Qed.

(** The effect that prunes the selection when the archive changes keeps
    exactly the selected keys that some case still has, in their order;
    it changes nothing when every selected key is still there, running it
    again changes nothing, and after entries were removed from the archive
    it turns a coherent selection into a coherent one. *)
Theorem syncSelection_prunes (cases : list AnalysisResult) (prev : list string) :
  List.NoDup prev ->
  (forall k, In k (syncSelection cases prev)
             <-> In k prev /\ exists c, In c cases /\ caseKey c = k)
  /\ List.NoDup (syncSelection cases prev)
  /\ ((forall k, In k prev -> exists c, In c cases /\ caseKey c = k) ->
      syncSelection cases prev = prev)
  /\ syncSelection cases (syncSelection cases prev) = syncSelection cases prev
  /\ (forall before,
        (forall c, In c cases -> In c before) ->
        SelectionCoherent before prev ->
        SelectionCoherent cases (syncSelection cases prev)).
Proof.
  intros Hnd.
  assert (Hnd' : List.NoDup (List.filter (Set_has (Set_from (map caseKey cases))) prev))
    by (apply List.NoDup_filter, Hnd).
  rewrite (syncSelection_filter cases _ Hnd).
  rewrite (syncSelection_filter cases _ Hnd').
  assert (Hin : forall k,
             In k (List.filter (Set_has (Set_from (map caseKey cases))) prev)
             <-> In k prev /\ exists c, In c cases /\ caseKey c = k)
    by (intros k; rewrite filter_In, validIds_has; tauto).
  split; [exact Hin |]. split; [exact Hnd' |]. split; [| split].
  - intros Hall. apply filter_length_eq. f_equal.
    induction prev as [| k prev IH]; simpl; [reflexivity |].
    apply List.NoDup_cons_iff in Hnd as [_ Hnd].
    assert (Hk : Set_has (Set_from (map caseKey cases)) k = true)
      by (apply validIds_has, Hall; left; reflexivity).
    rewrite Hk. f_equal. apply IH.
    + exact Hnd.
    + apply List.NoDup_filter, Hnd.
    + intros k'. rewrite filter_In, validIds_has. tauto.
    + intros k' Hk'. apply Hall. right. exact Hk'.
  - apply filter_filter_same.
  - intros before Hsub [_ [_ Htick]].
    split; [exact Hnd' |]. split.
    + intros k Hk. apply Hin in Hk as [_ Hk]. exact Hk.
    + intros c c' Hc Hc' Hk Hk'.
      apply Hin in Hk as [Hk _]. apply Hin in Hk' as [Hk' _].
      apply Htick; auto.
Qed.

(** ** The capital warning *)

(** The capital warning is advice only.  Whether the form hands its input
    on does not depend on the tier, so a warning never holds an input
    back; the tier HIGH_NET is never warned; a warning shown is the one of
    the form's tier, for a capital that is not empty. *)
Theorem capitalWarning_is_advisory (formData : StockAnalysisInput) :
  (forall tier,
     form_onSubmit (withCapitalTier tier formData) = None
     <-> form_onSubmit formData = None)
  /\ (capitalTier formData = HIGH_NET -> capitalWarning formData = None)
  /\ (forall warning,
        capitalWarning formData = Some warning ->
        capital formData <> EmptyString
        /\ ((capitalTier formData = MICRO /\ warning = WARNING_MICRO)
            \/ (capitalTier formData = RETAIL /\ warning = WARNING_RETAIL)
            \/ (capitalTier formData = INSTITUTIONAL
                /\ warning = WARNING_INSTITUTIONAL))).
Proof.
  split; [| split].
  - intros tier. unfold form_onSubmit, isStepValid. simpl.
    destruct (_ && _ && _ && _); split; intros H; congruence.
  - intros Htier. unfold capitalWarning. rewrite Htier.
    destruct (negb (nonEmpty (capital formData))); reflexivity.
  - intros warning. unfold capitalWarning, nonEmpty.
    destruct (String.eqb_spec (capital formData) EmptyString) as [E | E];
      [discriminate |]. simpl.
    destruct (capitalTier formData); simpl;
      repeat match goal with
             | |- context [if ?b then _ else _] => destruct b
             end;
      intros H; try discriminate; injection H as <-; split; auto.
Qed.


(** * The properties at the sample data *)

(** ** The input form *)

(** C8 at the boundary: the complete form is handed on; with 50
    characters of intelligence it is held back, with 51 it is handed on. *)
Lemma form_onSubmit_eligibility_witness :
  SubmissionEligible auditInput
  /\ form_onSubmit auditInput = Some auditInput
  /\ form_onSubmit (withIntelligence fiftyCharacters auditInput) = None
  /\ form_onSubmit (withIntelligence (fiftyCharacters +:+ "Y") auditInput)
     = Some (withIntelligence (fiftyCharacters +:+ "Y") auditInput).
Proof.
  destruct form_onSubmit_eligibility as (Hiff & _ & H50 & H51).
  split; [apply Hiff; reflexivity |].
  split; [reflexivity |].
  split; [apply H50; reflexivity |].
  apply H51; [| reflexivity].
  unfold RequiredFieldsFilled. simpl. repeat split; discriminate.
Defined.

(** C7 at the two scenarios of the specification, 2,000,000,000 in the
    RETAIL tier and 500,000,000 in the INSTITUTIONAL tier, at the empty
    capital, and at two numeric strings that are not digits only:
    [ +1.6e8 ] denotes 160,000,000 and [6000000001e-1] denotes
    600,000,000.1. *)
Lemma capitalWarning_rules_witness :
  capitalWarning auditInput = Some WARNING_RETAIL
  /\ capitalWarning (withCapital "500000000" INSTITUTIONAL auditInput)
     = Some WARNING_INSTITUTIONAL
  /\ capitalWarning (withCapital EmptyString MICRO auditInput) = None
  /\ Numeral_text spacedNumeral = " +1.6e8 "
  /\ Qeq (Numeral_value spacedNumeral) 160000000
  /\ capitalWarning (withCapital " +1.6e8 " MICRO auditInput) = Some WARNING_MICRO
  /\ Numeral_text tenthNumeral = "6000000001e-1"
  /\ capitalWarning (withCapital "6000000001e-1" RETAIL auditInput)
     = Some WARNING_RETAIL.
Proof.
  assert (Hwhole : forall digits tier,
            digits <> EmptyString -> allDigits digits = true ->
            decimalValue digits < 2 ^ 53 ->
            capitalWarning (withCapital digits tier auditInput)
            = match tier with
              | MICRO =>
                  if (150000000 <? decimalValue digits)%Z
                  then Some WARNING_MICRO else None
              | RETAIL =>
                  if (600000000 <? decimalValue digits)%Z
                  then Some WARNING_RETAIL else None
              | HIGH_NET => None
              | INSTITUTIONAL =>
                  if (decimalValue digits <? 1000000000)%Z
                  then Some WARNING_INSTITUTIONAL else None
              end).
  { intros digits tier Hne Hall Hbound.
    exact (proj1 (proj2 (proj2 (capitalWarning_rules (withCapital digits tier auditInput))))
             digits Hne Hall Hbound eq_refl). }
  assert (Hnumeral : forall n tier,
            wellFormed n = true ->
            capitalWarning (withCapital (Numeral_text n) tier auditInput)
            = advisory tier (roundToNumber (Numeral_value n))).
  { intros n tier Hwf.
    exact (proj2 (proj1 (proj2 (capitalWarning_rules
                                  (withCapital (Numeral_text n) tier auditInput)))
                    n Hwf eq_refl)). }
  split; [exact (Hwhole "2000000000" RETAIL ltac:(discriminate) eq_refl eq_refl) |].
  split; [exact (Hwhole "500000000" INSTITUTIONAL ltac:(discriminate) eq_refl eq_refl) |].
  split; [exact (proj1 (capitalWarning_rules (withCapital EmptyString MICRO auditInput))
                   eq_refl) |].
  split; [reflexivity |]. split; [vm_compute; reflexivity |].
  split; [refine (eq_trans (Hnumeral spacedNumeral MICRO eq_refl) _);
          vm_compute; reflexivity |].
  split; [reflexivity |].
  refine (eq_trans (Hnumeral tenthNumeral RETAIL eq_refl) _). vm_compute. reflexivity.
Defined.

(** C7 fails on the code for an amount next to a bound: the amount
    150000000.00000001 is above 150,000,000 and draws no advisory in the
    MICRO tier, and 999999999.99999999 is below 1,000,000,000 and draws
    none in the INSTITUTIONAL tier, because the binary64 number nearest to
    each is the bound itself. *)
Lemma capitalWarning_compares_rounded_amount :
  wellFormed justAboveMicroBound = true
  /\ Numeral_text justAboveMicroBound = "150000000.00000001"
  /\ Qlt 150000000 (Numeral_value justAboveMicroBound)
  /\ parseFloat "150000000.00000001" = roundToNumber 150000000
  /\ capitalWarning (withCapital "150000000.00000001" MICRO auditInput) = None
  /\ wellFormed justBelowInstitutionalBound = true
  /\ Numeral_text justBelowInstitutionalBound = "999999999.99999999"
  /\ Qlt (Numeral_value justBelowInstitutionalBound) 1000000000
  /\ parseFloat "999999999.99999999" = roundToNumber 1000000000
  /\ capitalWarning (withCapital "999999999.99999999" INSTITUTIONAL auditInput) = None.
Proof. repeat split; vm_compute; reflexivity. Qed.

(** ** [runConsistencyCheck] *)

(** C1 fails on the code: a history of one entry, and a history of two
    entries with different tickers, are both sent to the hosted model, and
    the call returns its answer. *)
Lemma runConsistencyCheck_accepts_single_and_mixed :
  (length singleHistory < 2)%nat
  /\ runConsistencyCheck sampleParse sampleStringify (answering "{}")
       singleHistory emptyState
     = (Ok (JObj ∅),
        recordRequest
          (consistencyRequest sampleStringify singleHistory (bbcaAt "a" 100))
          emptyState)
  /\ ~ sameTicker mixedHistory
  /\ runConsistencyCheck sampleParse sampleStringify (answering "{}")
       mixedHistory emptyState
     = (Ok (JObj ∅),
        recordRequest
          (consistencyRequest sampleStringify mixedHistory (bbcaAt "a" 100))
          emptyState).
Proof.
  split; [simpl; lia |]. split; [reflexivity |]. split; [| reflexivity].
  intros Hsame.
  specialize (Hsame (bbcaAt "a" 100) (tlkmAt "b" 200)).
  assert (H : ar_ticker (bbcaAt "a" 100) = ar_ticker (tlkmAt "b" 200)).
  { apply Hsame; simpl; auto. }
  discriminate H.
Qed.

Lemma runConsistencyCheck_dispatch_witness :
  singleHistory <> []
  /\ requests
       (snd (runConsistencyCheck sampleParse sampleStringify (answering "{}")
               singleHistory emptyState))
     = [consistencyRequest sampleStringify singleHistory (bbcaAt "a" 100)].
Proof.
  assert (Hne : singleHistory <> []) by discriminate.
  split; [exact Hne |].
  destruct (proj2 (runConsistencyCheck_dispatch sampleParse sampleStringify
                     (answering "{}") singleHistory emptyState) Hne)
    as (first & _ & Hhd & _ & Hreq & _).
  injection Hhd as <-. exact Hreq.
Defined.

(** The example of the specification: entries with timestamps 300, 100,
    200 are sent in the order 100, 200, 300. *)
Lemma runConsistencyCheck_sends_sorted_witness :
  unsortedHistory <> []
  /\ Forall dated unsortedHistory
  /\ map ar_timestamp (sortByTimestamp unsortedHistory) = [Some 100; Some 200; Some 300]
  /\ requests
       (snd (runConsistencyCheck sampleParse sampleStringify (answering "{}")
               unsortedHistory emptyState))
     = [consistencyRequest sampleStringify
          [bbcaAt "a" 100; bbcaAt "b" 200; bbcaAt "c" 300] (bbcaAt "a" 100)].
Proof.
  assert (Hne : unsortedHistory <> []) by discriminate.
  assert (Hdated : Forall dated unsortedHistory)
    by (repeat constructor; discriminate).
  split; [exact Hne |]. split; [exact Hdated |].
  destruct (runConsistencyCheck_sends_sorted sampleParse sampleStringify
              (answering "{}") unsortedHistory emptyState Hne Hdated)
    as (first & Hhd & Hreq & _ & _ & _ & _ & Hexample).
  assert (Hsorted : sortByTimestamp unsortedHistory
                    = [bbcaAt "a" 100; bbcaAt "b" 200; bbcaAt "c" 300])
    by (apply Hexample; reflexivity).
  rewrite Hsorted in Hhd, Hreq. injection Hhd as <-.
  split; [rewrite Hsorted; reflexivity | exact Hreq].
Defined.

(** C9 fails on the code after an import.  A file of three entries of one
    ticker, the second without a timestamp, is imported into the empty
    archive: [handleImportVault] gives no entry a timestamp, where the
    mount effect gives the same stored element the current time.  The
    three cards are selected in the archive view and the audit is run: the
    comparator answers [NaN] for the entry without a timestamp and for
    each of its neighbours, the history is left as it was, and the request
    serialises the timestamp 300 before the timestamp 100. *)
Theorem runConsistencyCheck_sends_undated_unsorted :
  importParse textSnapshotUndated = Some (JArr (map JObj snapshotUndated))
  /\ vaultCases
       (snd (handleImportVault importParse orderStringify sampleUUID
               (Some textSnapshotUndated) emptyState))
     = snapshotUndated
  /\ Reachable importParse orderStringify sampleUUID
       (snd (handleImportVault importParse orderStringify sampleUUID
               (Some textSnapshotUndated) emptyState))
  /\ vaultCases
       (snd (loadVault importParse sampleUUID
               (storeItem "tradeLogic_cases" textSnapshotUndated emptyState)))
     = [datedEntry "x" 300;
        <["timestamp" := JNum (inject_Z (clock emptyState))]> (undatedEntry "y");
        datedEntry "z" 100]
  /\ map AnalysisResult_toJS undatedHistory = map JObj snapshotUndated
  /\ afterClicks undatedHistory undatedHistory = ["x"; "y"; "z"]
  /\ auditButton_onClick undatedHistory (afterClicks undatedHistory undatedHistory)
     = Some undatedHistory
  /\ sameTicker undatedHistory
  /\ compareTimestamp (bbcaAt "x" 300) (bbcaUndated "y") = NaN
  /\ compareTimestamp (bbcaUndated "y") (bbcaAt "z" 100) = NaN
  /\ map ar_timestamp (sortByTimestamp undatedHistory) = [Some 300; None; Some 100]
  /\ requests
       (snd (runConsistencyCheck importParse orderStringify (answering "{}")
               undatedHistory
               (snd (handleImportVault importParse orderStringify sampleUUID
                       (Some textSnapshotUndated) emptyState))))
     = [consistencyRequest orderStringify
          [bbcaAt "x" 300; bbcaUndated "y"; bbcaAt "z" 100] (bbcaAt "x" 300)]
  /\ contents
       (consistencyRequest orderStringify
          [bbcaAt "x" 300; bbcaUndated "y"; bbcaAt "z" 100] (bbcaAt "x" 300))
     = "Analisa tren konsistensi untuk BBCA. Data: 300;none;100;. Gunakan bahasa profesional dan berikan outlook trend jangka panjang.".
Proof.
  split; [reflexivity |]. split; [vm_compute; reflexivity |].
  split; [apply Reachable_handleImportVault, Reachable_start; reflexivity |].
  split; [vm_compute; reflexivity |]. split; [vm_compute; reflexivity |].
  split; [vm_compute; reflexivity |]. split; [vm_compute; reflexivity |].
  split.
  { intros a b Ha Hb.
    destruct Ha as [<- | [<- | [<- | []]]]; destruct Hb as [<- | [<- | [<- | []]]];
      reflexivity. }
  split; [reflexivity |]. split; [reflexivity |].
  split; [vm_compute; reflexivity |].
  split; vm_compute; reflexivity.
Qed.

(** ** [analyzeStock] *)

(** C4 fails on the code: an answer that lacks every required key, and an
    answer that has every required key and a direction outside the
    enumerated set, are both returned. *)
Lemma analyzeStock_accepts_nonconforming :
  sampleParse "{}" = Some (JObj ∅)
  /\ conforms responseSchema (JObj ∅) = false
  /\ fst (analyzeStock sampleParse sampleUUID (answering "{}") auditInput emptyState)
     = Ok (stampResult (JObj ∅) "uuid-0" 1700000000000)
  /\ sampleParse textSideways = Some (JObj sidewaysPayload)
  /\ conforms responseSchema (JObj validPayload) = true
  /\ conforms responseSchema (JObj sidewaysPayload) = false
  /\ fst (analyzeStock sampleParse sampleUUID (answering textSideways)
            auditInput emptyState)
     = Ok (stampResult (JObj sidewaysPayload) "uuid-0" 1700000000000).
Proof. repeat split; vm_compute; reflexivity. Qed.

Lemma analyzeStock_returns_any_payload_witness :
  sampleParse "{}" = Some (JObj ∅)
  /\ fst (analyzeStock sampleParse sampleUUID (answering "{}") auditInput emptyState)
     = Ok (stampResult (JObj ∅) (sampleUUID 0) (clock emptyState)).
Proof.
  split; [reflexivity |].
  destruct (analyzeStock_returns_any_payload sampleParse sampleUUID (answering "{}")
              auditInput emptyState) as (_ & _ & _ & _ & Hok).
  exact (Hok "{}" (JObj ∅) eq_refl eq_refl).
Defined.

(** C5 at an answer that carries an id, a timestamp and sources of its
    own: none of the three survives. *)
Lemma analyzeStock_stamps_identity_witness :
  identityPayload !! "id" = Some (JStr "from-model")
  /\ exists result st',
       analyzeStock sampleParse sampleUUID (answering textWithIdentity)
         auditInput emptyState
       = (Ok result, st')
       /\ result !! "id" = Some (JStr (sampleUUID 0))
       /\ result !! "timestamp" = Some (JNum (inject_Z (clock emptyState)))
       /\ result !! "sources" = Some (JArr []).
Proof.
  split; [reflexivity |].
  exists (stampResult (JObj identityPayload) (sampleUUID 0) (clock emptyState)),
    (drawUuid (recordRequest (analysisRequest auditInput) emptyState)).
  assert (Hrun : analyzeStock sampleParse sampleUUID (answering textWithIdentity)
                   auditInput emptyState
                 = (Ok (stampResult (JObj identityPayload) (sampleUUID 0)
                          (clock emptyState)),
                    drawUuid (recordRequest (analysisRequest auditInput) emptyState)))
    by reflexivity.
  split; [exact Hrun |].
  destruct (analyzeStock_stamps_identity sampleParse sampleUUID
              (answering textWithIdentity) auditInput emptyState _ _ Hrun)
    as (text & data & _ & _ & Hid & Hts & Hsrc & _).
  split; [exact Hid |]. split; [exact Hts | exact Hsrc].
Defined.

(** ** The case archive *)

(** C2 fails on the code: a snapshot of one result-shaped record and the
    number 42 is merged whole, the number as an entry of its own, and the
    import is reported as a success. *)
Lemma handleImportVault_merges_malformed :
  sampleParse textSnapshotMixed = Some (JArr [JObj validPayload; JNum 42])
  /\ resultShaped (JObj validPayload) = true
  /\ resultShaped (JNum 42) = false
  /\ sequenceOfResults (JArr [JObj validPayload; JNum 42]) = false
  /\ vaultCases
       (snd (handleImportVault sampleParse sampleStringify sampleUUID
               (Some textSnapshotMixed) archiveWithCase1))
     = [case1; <["id" := JStr "uuid-0"]> validPayload; <["id" := JStr "uuid-1"]> ∅]
  /\ alerts
       (snd (handleImportVault sampleParse sampleStringify sampleUUID
               (Some textSnapshotMixed) archiveWithCase1))
     = ["Successfully imported 2 cases."].
Proof. repeat split; vm_compute; reflexivity. Qed.

Lemma handleImportVault_all_or_nothing_witness :
  sampleParse "[{}, null]" = Some (JArr [JObj ∅; JNull])
  /\ In JNull [JObj ∅; JNull]
  /\ vaultCases
       (snd (handleImportVault sampleParse sampleStringify sampleUUID
               (Some "[{}, null]") archiveWithCase1))
     = [case1]
  /\ alerts
       (snd (handleImportVault sampleParse sampleStringify sampleUUID
               (Some "[{}, null]") archiveWithCase1))
     = ["Invalid JSON file."].
Proof.
  assert (Hparse : sampleParse "[{}, null]" = Some (JArr [JObj ∅; JNull]))
    by reflexivity.
  assert (Hnull : In JNull [JObj ∅; JNull]) by (right; left; reflexivity).
  destruct (handleImportVault_all_or_nothing sampleParse sampleStringify sampleUUID
              "[{}, null]" archiveWithCase1) as (_ & _ & H & _).
  destruct (H _ Hparse Hnull) as (Hcases & _ & Halerts).
  split; [exact Hparse |]. split; [exact Hnull |].
  split; [exact Hcases | exact Halerts].
Defined.

(** C6 fails on the code when one file is imported twice.  The first
    import, into the empty archive, gives the archive the entry with the
    id [case-1]; the second appends the same entry with the same id and
    draws no identifier, so two entries have one identity key.  An entry
    added by [saveToVault] with that id is given a drawn identifier
    instead. *)
Theorem handleImportVault_keeps_duplicate_id :
  sampleParse textSnapshotCase1 = Some (JArr [JObj case1])
  /\ vaultCases
       (snd (handleImportVault sampleParse sampleStringify sampleUUID
               (Some textSnapshotCase1) emptyState))
     = [case1]
  /\ vaultCases
       (snd (handleImportVault sampleParse sampleStringify sampleUUID
               (Some textSnapshotCase1)
               (snd (handleImportVault sampleParse sampleStringify sampleUUID
                       (Some textSnapshotCase1) emptyState))))
     = [case1; case1]
  /\ uuidsDrawn
       (snd (handleImportVault sampleParse sampleStringify sampleUUID
               (Some textSnapshotCase1)
               (snd (handleImportVault sampleParse sampleStringify sampleUUID
                       (Some textSnapshotCase1) emptyState))))
     = 0%nat
  /\ Reachable sampleParse sampleStringify sampleUUID
       (snd (handleImportVault sampleParse sampleStringify sampleUUID
               (Some textSnapshotCase1)
               (snd (handleImportVault sampleParse sampleStringify sampleUUID
                       (Some textSnapshotCase1) emptyState))))
  /\ map identityKey [case1; case1] = [Some (JStr "case-1"); Some (JStr "case-1")]
  /\ ~ List.NoDup
         (map identityKey
            (vaultCases
               (snd (handleImportVault sampleParse sampleStringify sampleUUID
                       (Some textSnapshotCase1)
                       (snd (handleImportVault sampleParse sampleStringify sampleUUID
                               (Some textSnapshotCase1) emptyState))))))
  /\ map identityKey
       (vaultCases
          (snd (saveToVault sampleStringify sampleUUID case1
                  (snd (handleImportVault sampleParse sampleStringify sampleUUID
                          (Some textSnapshotCase1) emptyState)))))
     = [Some (JStr "uuid-0"); Some (JStr "case-1")].
Proof.
  assert (Hmerged :
    vaultCases
      (snd (handleImportVault sampleParse sampleStringify sampleUUID
              (Some textSnapshotCase1)
              (snd (handleImportVault sampleParse sampleStringify sampleUUID
                      (Some textSnapshotCase1) emptyState))))
    = [case1; case1]) by (vm_compute; reflexivity).
  split; [reflexivity |]. split; [vm_compute; reflexivity |].
  split; [exact Hmerged |]. split; [vm_compute; reflexivity |].
  split; [do 2 apply Reachable_handleImportVault; apply Reachable_start; reflexivity |].
  split; [vm_compute; reflexivity |].
  split; [| vm_compute; reflexivity].
  rewrite Hmerged. intros Hnodup. inversion Hnodup as [| ? ? Hnotin _]; subst.
  apply Hnotin. left. reflexivity.
Qed.

(** An added entry whose id is already in the archive is given the drawn
    identifier, and the keys stay distinct. *)
Lemma archive_identity_keys_witness :
  sampleUUID 0 <> EmptyString
  /\ List.NoDup (map identityKey (vaultCases archiveWithCase1))
  /\ ~ In (Some (JStr (sampleUUID 0))) (map identityKey (vaultCases archiveWithCase1))
  /\ List.NoDup
       (map identityKey
          (vaultCases (snd (saveToVault sampleStringify sampleUUID case1 archiveWithCase1)))).
Proof.
  assert (Hne : sampleUUID 0 <> EmptyString) by discriminate.
  assert (Hnodup : List.NoDup (map identityKey (vaultCases archiveWithCase1))).
  { simpl. constructor; [intros [] | constructor]. }
  assert (Hfresh : ~ In (Some (JStr (sampleUUID 0)))
                     (map identityKey (vaultCases archiveWithCase1))).
  { simpl. intros [H | []]. discriminate H. }
  destruct (archive_identity_keys sampleParse sampleStringify sampleUUID
              archiveWithCase1) as [Hadd _].
  destruct (Hadd case1) as (entry & _ & _ & Hkeys).
  split; [exact Hne |]. split; [exact Hnodup |]. split; [exact Hfresh |].
  exact (proj2 (Hkeys Hne) Hnodup Hfresh).
Defined.


(** Removal by id on an archive whose entries carry ids, and the import of
    a text that is no array. *)
Lemma removeFromVault_by_identityKey_witness :
  Forall (fun entry => exists s, entry !! "id" = Some (JStr s) /\ s <> EmptyString)
    (vaultCases archiveWithCase1)
  /\ (In case1
        (vaultCases (snd (removeFromVault sampleStringify "case-2" archiveWithCase1)))
      <-> In case1 (vaultCases archiveWithCase1)
          /\ identityKey case1 <> Some (JStr "case-2")).
Proof.
  assert (Hall : Forall
            (fun entry => exists s, entry !! "id" = Some (JStr s) /\ s <> EmptyString)
            (vaultCases archiveWithCase1)).
  { constructor; [| constructor]. exists "case-1". split; [reflexivity | discriminate]. }
  split; [exact Hall |].
  exact (removeFromVault_by_identityKey sampleStringify "case-2" archiveWithCase1
           case1 Hall).
Defined.

Lemma handleImportVault_not_array_silent_witness :
  sampleParse "42" = Some (JNum 42)
  /\ isArray (JNum 42) = false
  /\ snd (handleImportVault sampleParse sampleStringify sampleUUID (Some "42")
            archiveWithCase1)
     = archiveWithCase1.
Proof.
  split; [reflexivity |]. split; [reflexivity |].
  exact (handleImportVault_not_array_silent sampleParse sampleStringify sampleUUID
           "42" (JNum 42) archiveWithCase1 eq_refl eq_refl).
Defined.

(** * Further properties at the sample data *)

(** ** The archive *)

Lemma archive_entries_keep_ids_witness :
  (forall n, sampleUUID n <> EmptyString)
  /\ Forall HasId (vaultCases archiveWithCase1)
  /\ Forall HasId
       (vaultCases
          (snd (handleImportVault sampleParse sampleStringify sampleUUID
                  (Some textSnapshotMixed) archiveWithCase1))).
Proof.
  assert (Hfresh : forall n, sampleUUID n <> EmptyString) by (intros n; discriminate).
  assert (Hids : Forall HasId (vaultCases archiveWithCase1))
    by (constructor; [reflexivity | constructor]).
  split; [exact Hfresh |]. split; [exact Hids |].
  exact (proj2 (proj2 (archive_entries_keep_ids sampleParse sampleStringify sampleUUID
                         archiveWithCase1 Hfresh Hids))
           (Some textSnapshotMixed)).
Defined.

Lemma removeFromVault_undoes_saveToVault_witness :
  (forall c, In c (vaultCases archiveWithCase1) ->
     c !! "id" <> Some (JStr (sampleUUID (uuidsDrawn archiveWithCase1))))
  /\ vaultCases
       (snd (removeFromVault sampleStringify
               (sampleUUID (uuidsDrawn archiveWithCase1))
               (snd (saveToVault sampleStringify sampleUUID validPayload
                       archiveWithCase1))))
     = vaultCases archiveWithCase1.
Proof.
  assert (Hold : forall c, In c (vaultCases archiveWithCase1) ->
                   c !! "id" <> Some (JStr (sampleUUID (uuidsDrawn archiveWithCase1)))).
  { intros c [<- | []]. vm_compute. discriminate. }
  split; [exact Hold |].
  exact (removeFromVault_undoes_saveToVault sampleStringify sampleUUID validPayload
           archiveWithCase1 Hold).
Defined.

Lemma import_of_export_witness :
  storedParse (handleExportVault storedStringify stampedArchive)
  = Some (JArr (map JObj (vaultCases stampedArchive)))
  /\ Forall HasId (vaultCases stampedArchive)
  /\ vaultCases
       (snd (handleImportVault storedParse storedStringify sampleUUID
               (Some (handleExportVault storedStringify stampedArchive))
               archiveWithCase1))
     = vaultCases archiveWithCase1 ++ vaultCases stampedArchive.
Proof.
  assert (Hparse : storedParse (handleExportVault storedStringify stampedArchive)
                   = Some (JArr (map JObj (vaultCases stampedArchive))))
    by reflexivity.
  assert (Hids : Forall HasId (vaultCases stampedArchive))
    by (constructor; [reflexivity | constructor]).
  split; [exact Hparse |]. split; [exact Hids |].
  exact (proj1 (import_of_export storedParse storedStringify sampleUUID storedStringify
                  stampedArchive archiveWithCase1 Hparse Hids)).
Defined.

Lemma loadVault_restores_archive_witness :
  Mirrored storedStringify stampedArchive
  /\ storedStringify (JArr (map JObj (vaultCases stampedArchive))) <> EmptyString
  /\ storedParse (storedStringify (JArr (map JObj (vaultCases stampedArchive))))
     = Some (JArr (map JObj (vaultCases stampedArchive)))
  /\ Forall HasId (vaultCases stampedArchive)
  /\ Forall HasTimestamp (vaultCases stampedArchive)
  /\ localStorage freshPage = localStorage stampedArchive
  /\ vaultCases freshPage = []
  /\ vaultCases (snd (loadVault storedParse sampleUUID freshPage))
     = vaultCases stampedArchive.
Proof.
  assert (H1 : Mirrored storedStringify stampedArchive) by reflexivity.
  assert (H2 : storedStringify (JArr (map JObj (vaultCases stampedArchive)))
               <> EmptyString) by discriminate.
  assert (H3 : storedParse (storedStringify (JArr (map JObj (vaultCases stampedArchive))))
               = Some (JArr (map JObj (vaultCases stampedArchive)))) by reflexivity.
  assert (H4 : Forall HasId (vaultCases stampedArchive))
    by (constructor; [reflexivity | constructor]).
  assert (H5 : Forall HasTimestamp (vaultCases stampedArchive))
    by (constructor; [reflexivity | constructor]).
  assert (H6 : localStorage freshPage = localStorage stampedArchive) by reflexivity.
  repeat (split; [assumption |]). split; [reflexivity |].
  exact (proj1 (loadVault_restores_archive storedParse storedStringify sampleUUID
                  stampedArchive freshPage H1 H2 H3 H4 H5 H6)).
Defined.

(** ** The consistency check *)

Lemma runConsistencyCheck_order_independent_witness :
  Permutation [bbcaAt "b" 200; bbcaAt "a" 100] [bbcaAt "a" 100; bbcaAt "b" 200]
  /\ Forall dated [bbcaAt "b" 200; bbcaAt "a" 100]
  /\ List.NoDup (map ar_timestamp [bbcaAt "b" 200; bbcaAt "a" 100])
  /\ runConsistencyCheck sampleParse sampleStringify (answering "{}")
       [bbcaAt "b" 200; bbcaAt "a" 100] emptyState
     = runConsistencyCheck sampleParse sampleStringify (answering "{}")
         [bbcaAt "a" 100; bbcaAt "b" 200] emptyState.
Proof.
  assert (Hperm : Permutation [bbcaAt "b" 200; bbcaAt "a" 100]
                    [bbcaAt "a" 100; bbcaAt "b" 200]) by apply perm_swap.
  assert (Hnodup : List.NoDup (map ar_timestamp [bbcaAt "b" 200; bbcaAt "a" 100])).
  { simpl. constructor; [intros [H | []]; discriminate H |].
    constructor; [intros [] | constructor]. }
  assert (Hdated : Forall dated [bbcaAt "b" 200; bbcaAt "a" 100])
    by (repeat constructor; discriminate).
  split; [exact Hperm |]. split; [exact Hdated |]. split; [exact Hnodup |].
  exact (runConsistencyCheck_order_independent sampleParse sampleStringify
           (answering "{}") _ _ emptyState Hperm Hdated Hnodup).
Defined.

(** ** The selection of the archive view *)

(** The three cards clicked in turn: the second, of another ticker, is
    disabled after the first click, so the keys of the first and the third
    are selected. *)
Lemma CaseVault_audits_one_ticker_witness :
  KeysDistinct sampleCases
  /\ KeysNonEmpty sampleCases
  /\ (forall item, In item sampleCases -> In item sampleCases)
  /\ afterClicks sampleCases sampleCases = ["a"; "c"]
  /\ SelectionCoherent sampleCases (afterClicks sampleCases sampleCases)
  /\ (forall history,
        auditButton_onClick sampleCases (afterClicks sampleCases sampleCases)
        = Some history ->
        sameTicker history).
Proof.
  assert (Hdist : KeysDistinct sampleCases).
  { unfold KeysDistinct. simpl.
    constructor; [intros [H | [H | []]]; discriminate H |].
    constructor; [intros [H | []]; discriminate H |].
    constructor; [intros [] | constructor]. }
  assert (Hne : KeysNonEmpty sampleCases).
  { intros c [<- | [<- | [<- | []]]]; discriminate. }
  assert (Hin : forall item, In item sampleCases -> In item sampleCases)
    by (intros item H; exact H).
  split; [exact Hdist |]. split; [exact Hne |]. split; [exact Hin |].
  split; [reflexivity |].
  split.
  - exact (proj1 (CaseVault_audits_one_ticker sampleParse sampleStringify
                    (answering "{}") sampleCases sampleCases Hdist Hne Hin)).
  - intros history H.
    exact (proj1 (proj2 (CaseVault_audits_one_ticker sampleParse sampleStringify
                           (answering "{}") sampleCases sampleCases Hdist Hne Hin)
                    history H)).
Defined.

(** A selection that holds the key of an entry that is no longer there:
    the key is dropped, the other is kept. *)
Lemma syncSelection_prunes_witness :
  List.NoDup ["a"; "ghost"]
  /\ syncSelection sampleCases ["a"; "ghost"] = ["a"]
  /\ syncSelection sampleCases (syncSelection sampleCases ["a"; "ghost"])
     = syncSelection sampleCases ["a"; "ghost"].
Proof.
  assert (Hnodup : List.NoDup ["a"; "ghost"]).
  { constructor; [intros [H | []]; discriminate H |].
    constructor; [intros [] | constructor]. }
  split; [exact Hnodup |]. split; [reflexivity |].
  exact (proj1 (proj2 (proj2 (proj2 (syncSelection_prunes sampleCases ["a"; "ghost"]
                                       Hnodup))))).
Defined.

(** ** The configuration *)

(** The default configuration saved, an analysis archived, and a page
    started on that storage. *)
Lemma loadConfig_restores_config_witness :
  storedStringify (AppConfig_toJS DEFAULT_CONFIG) <> EmptyString
  /\ storedParse (storedStringify (AppConfig_toJS DEFAULT_CONFIG))
     = Some (AppConfig_toJS DEFAULT_CONFIG)
  /\ loadConfig storedParse JNull
       (snd (saveToVault storedStringify sampleUUID validPayload
               (snd (handleSaveConfig storedStringify DEFAULT_CONFIG emptyState))))
     = (AppConfig_toJS DEFAULT_CONFIG,
        snd (saveToVault storedStringify sampleUUID validPayload
               (snd (handleSaveConfig storedStringify DEFAULT_CONFIG emptyState)))).
Proof.
  assert (H1 : storedStringify (AppConfig_toJS DEFAULT_CONFIG) <> EmptyString)
    by discriminate.
  assert (H2 : storedParse (storedStringify (AppConfig_toJS DEFAULT_CONFIG))
               = Some (AppConfig_toJS DEFAULT_CONFIG)) by reflexivity.
  split; [exact H1 |]. split; [exact H2 |].
  exact (loadConfig_restores_config storedParse storedStringify DEFAULT_CONFIG
           emptyState
           (snd (saveToVault storedStringify sampleUUID validPayload
                   (snd (handleSaveConfig storedStringify DEFAULT_CONFIG emptyState))))
           JNull H1 H2 eq_refl).
Defined.
